(** * IconDiffBot: the webhook pipeline of [pr_icon_differ.py]

    A shallow embedding of the event pipeline: signature verification,
    extraction of sprite paths from a diff, retrieval of both sides of each
    path, rendering of the report, publishing of images through the upload
    cache, and the single bot comment of a pull request.

    Python [str] and [bytes] are [string] and [list byte]; machine words are
    [Z] with the wrap-around written out; the scratch directory and the upload
    cache are [gmap]s; everything outside the process is part of an explicit
    world that the functions thread through.  A call that can raise returns a
    [result], and an exception ends the computation in the world that the call
    left: the program catches none but the [OSError] of the removal of a
    missing scratch file. *)

From Stdlib Require Import ZArith Strings.String Strings.Ascii Strings.Byte List Bool Lia.
From stdpp Require Import base option list strings gmap pretty.
Import ListNotations.
Local Open Scope string_scope.
Local Open Scope Z_scope.
Set Warnings "-register-all".

(** ** Exceptions

    The exceptions the modelled code can raise; [result] is the outcome of a
    call that either returns or raises. *)

Inductive exn : Type :=
  | TypeError (msg : string)
  | KeyError (key : string)
  | AttributeError (name : string)
  | OSError (path : string)
  | JSONDecodeError.

Inductive result (A : Type) : Type :=
  | Ok (a : A)
  | Raise (e : exn).
Arguments Ok {A} a.
Arguments Raise {A} e.

Definition rbind {A B} (r : result A) (k : A -> result B) : result B :=
  match r with
  | Ok a => k a
  | Raise e => Raise e
  end.

(** ** SHA-1 and HMAC ([hashlib.sha1], [hmac.new])

    FIPS 180-4 and RFC 2104, on 32-bit words held in [Z]. *)

Module Sha1.

Definition w32 (x : Z) : Z := x mod 2 ^ 32.

Definition rotl (n x : Z) : Z :=
  w32 (Z.lor (Z.shiftl x n) (Z.shiftr x (32 - n))).

Definition byte_Z (b : byte) : Z := Z.of_N (Byte.to_N b).

Definition Z_byte (z : Z) : byte :=
  match Byte.of_N (Z.to_N (z mod 256)) with
  | Some b => b
  | None => x00
  end.

(** Big-endian encoding of [z] on [n] bytes. *)
Fixpoint be_bytes (n : nat) (z : Z) : list Z :=
  match n with
  | O => []
  | S k => (Z.shiftr z (8 * Z.of_nat k)) mod 256 :: be_bytes k z
  end.

Definition pad (msg : list Z) : list Z :=
  let len := Z.of_nat (length msg) in
  let zeros := Z.to_nat ((55 - len) mod 64) in
  msg ++ [128] ++ repeat 0 zeros ++ be_bytes 8 (8 * len).

Fixpoint be_words (fuel : nat) (bs : list Z) : list Z :=
  match fuel, bs with
  | S k, b0 :: b1 :: b2 :: b3 :: rest =>
      (Z.shiftl b0 24 + Z.shiftl b1 16 + Z.shiftl b2 8 + b3) :: be_words k rest
  | _, _ => []
  end.

Definition f (t : nat) (b c d : Z) : Z :=
  if (t <? 20)%nat then Z.lor (Z.land b c) (Z.land (Z.lxor b (2 ^ 32 - 1)) d)
  else if (t <? 40)%nat then Z.lxor (Z.lxor b c) d
  else if (t <? 60)%nat then Z.lor (Z.lor (Z.land b c) (Z.land b d)) (Z.land c d)
  else Z.lxor (Z.lxor b c) d.

Definition K (t : nat) : Z :=
  if (t <? 20)%nat then 0x5A827999
  else if (t <? 40)%nat then 0x6ED9EBA1
  else if (t <? 60)%nat then 0x8F1BBCDC
  else 0xCA62C1D6.

(** The message schedule is kept as the window [w(t-16) .. w(t-1)]. *)
Definition next_w (win : list Z) : Z :=
  rotl 1 (Z.lxor (Z.lxor (nth 13 win 0) (nth 8 win 0))
                 (Z.lxor (nth 2 win 0) (nth 0 win 0))).

Record state := State { ha : Z; hb : Z; hc : Z; hd : Z; he : Z }.

Definition init : state :=
  State 0x67452301 0xEFCDAB89 0x98BADCFE 0x10325476 0xC3D2E1F0.

Fixpoint rounds (n : nat) (t : nat) (win : list Z) (s : state) : state :=
  match n with
  | O => s
  | S k =>
      let wt := nth 0 win 0 in
      let temp := w32 (rotl 5 (ha s) + f t (hb s) (hc s) (hd s) + he s + K t + wt) in
      rounds k (S t) (tl win ++ [next_w win])
             (State temp (ha s) (rotl 30 (hb s)) (hc s) (hd s))
  end.

Definition compress (s : state) (block : list Z) : state :=
  let r := rounds 80 0 (be_words 16 block) s in
  State (w32 (ha s + ha r)) (w32 (hb s + hb r)) (w32 (hc s + hc r))
        (w32 (hd s + hd r)) (w32 (he s + he r)).

Fixpoint blocks (fuel : nat) (s : state) (bs : list Z) : state :=
  match fuel with
  | O => s
  | S k =>
      match bs with
      | [] => s
      | _ => blocks k (compress s (firstn 64 bs)) (skipn 64 bs)
      end
  end.

Definition digest (msg : list byte) : list byte :=
  let p := pad (map byte_Z msg) in
  let s := blocks (length p) init p in
  map Z_byte (be_bytes 4 (ha s) ++ be_bytes 4 (hb s) ++ be_bytes 4 (hc s)
              ++ be_bytes 4 (hd s) ++ be_bytes 4 (he s)).

End Sha1.

Module Hmac.

Definition block_size : nat := 64.

Definition xor_byte (c : Z) (b : byte) : byte :=
  Sha1.Z_byte (Z.lxor c (Sha1.byte_Z b)).

(** [hmac.new(key, msg, sha1)]: a key longer than a block is hashed first,
    then the key is padded with zero bytes to the block size. *)
Definition block_key (key : list byte) : list byte :=
  let k := if (block_size <? length key)%nat then Sha1.digest key else key in
  k ++ repeat x00 (block_size - length k).

Definition digest (key msg : list byte) : list byte :=
  let k := block_key key in
  Sha1.digest (map (xor_byte 0x5C) k ++ Sha1.digest (map (xor_byte 0x36) k ++ msg)).

Definition hex_digit (n : Z) : ascii :=
  ascii_of_nat (Z.to_nat (if n <? 10 then 48 + n else 87 + n)).

Fixpoint hex (bs : list byte) : string :=
  match bs with
  | [] => ""
  | b :: rest =>
      let z := Sha1.byte_Z b in
      String (hex_digit (z / 16)) (String (hex_digit (z mod 16)) (hex rest))
  end.

(** [hmac.new(key, msg, sha1).hexdigest()] *)
Definition hexdigest (key msg : list byte) : string := hex (digest key msg).

End Hmac.

Definition bytes_of (s : string) : list byte := list_byte_of_string s.

(** ** Strings ([str.replace], [str.split], [str.lower], [hmac.compare_digest]) *)

Definition newline : ascii := ascii_of_nat 10.

Definition is_newline (c : ascii) : bool := Ascii.eqb c newline.

(** [s.replace(old, new)] for a non-empty [old]: occurrences are found from
    the left and do not overlap; [skip] counts the characters of a found
    occurrence that are still to be dropped. *)
Fixpoint replace_from (old new : string) (skip : nat) (s : string) : string :=
  match s with
  | EmptyString => EmptyString
  | String c t =>
      match skip with
      | S k => replace_from old new k t
      | O =>
          if String.prefix old s
          then new +:+ replace_from old new (String.length old - 1) t
          else String c (replace_from old new 0 t)
      end
  end.

(** With an empty [old], Python puts [new] before every character and at
    the end. *)
Fixpoint interleave (new s : string) : string :=
  match s with
  | EmptyString => new
  | String c t => new +:+ String c (interleave new t)
  end.

Definition str_replace (old new s : string) : string :=
  match old with
  | EmptyString => interleave new s
  | _ => replace_from old new 0 s
  end.

(** [s.split('\n')] *)
Fixpoint split_lines (s : string) : list string :=
  match s with
  | EmptyString => [EmptyString]
  | String c t =>
      if is_newline c then EmptyString :: split_lines t
      else match split_lines t with
           | l :: ls => String c l :: ls
           | [] => [String c EmptyString]
           end
  end.

(** [s.lower()] on the code points below 256, which are those of a body
    decoded byte by byte: the ASCII capitals and the capitals of Latin-1 (192
    to 222, the multiplication sign 215 apart) move up by 32. *)
Definition lower_char (c : ascii) : ascii :=
  let n := nat_of_ascii c in
  if (((65 <=? n) && (n <=? 90))
      || ((192 <=? n) && (n <=? 222) && negb (n =? 215)))%nat
  then ascii_of_nat (n + 32) else c.

Fixpoint lower (s : string) : string :=
  match s with
  | EmptyString => EmptyString
  | String c t => String (lower_char c) (lower t)
  end.

Definition is_ascii_char (c : ascii) : bool := (nat_of_ascii c <? 128)%nat.

Fixpoint is_ascii_str (s : string) : bool :=
  match s with
  | EmptyString => true
  | String c t => is_ascii_char c && is_ascii_str t
  end.

(** [hmac.compare_digest(a, b)] on two [str]: a [TypeError] unless both are
    ASCII only, else whether they are equal. *)
Definition compare_digest (a b : string) : result bool :=
  if is_ascii_str a && is_ascii_str b then Ok (String.eqb a b)
  else Raise (TypeError "comparing strings with non-ASCII characters is not supported").

(** ** Configuration ([Config]) *)

Record Config := {
  webhook_port : Z;
  github_secret : list byte;
  github_user : string;
  github_auth : string;
  upload_api_url : string;
  upload_api_key : string;
  ignore_list : list string
}.

Definition actions_to_check : list string := ["opened"; "synchronize"].

(** ** Signature verification ([compare_secret]) *)

Definition compare_secret (config : Config)
    (secret_to_compare : option string) (payload : list byte) : result bool :=
  match secret_to_compare with
  | None => Ok false
  | Some secret =>
      let this_secret := Hmac.hexdigest (github_secret config) payload in
      let secret := str_replace "sha1=" "" secret in
      compare_digest secret this_secret
  end.

(** ** Regular expressions ([re])

    The patterns of the program use literals, greedy starred classes (any
    character, a digit), an optional character and one capture group.  [match_at] is the backtracking matcher of
    [re] on these constructs: it returns group 1 and the input left after the
    match. *)

Inductive charclass : Type :=
  | Dot      (* any character but a newline *)
  | Digit.   (* a decimal digit *)

Inductive atom : Type :=
  | Lit (s : string)
  | Star (cls : charclass)   (* greedy, zero or more *)
  | Opt (cls : charclass)    (* greedy, zero or one *)
  | GroupOpen
  | GroupClose.

Definition is_digit (c : ascii) : bool :=
  let n := nat_of_ascii c in ((48 <=? n) && (n <=? 57))%nat.

Definition in_class (cls : charclass) (c : ascii) : bool :=
  match cls with
  | Dot => negb (is_newline c)
  | Digit => is_digit c
  end.

Fixpoint strip_prefix (l s : string) : option string :=
  match l, s with
  | EmptyString, _ => Some s
  | String a l', String b s' => if Ascii.eqb a b then strip_prefix l' s' else None
  | String _ _, EmptyString => None
  end.

Definition capture (open : bool) (g : string) (c : string) : string :=
  if open then g +:+ c else g.

(** A greedy starred class followed by the continuation [k]: take one more
    character of the class when the rest can then match, else stop here. *)
Fixpoint star (cls : charclass) (k : bool -> string -> string -> option (string * string))
    (open : bool) (g s : string) : option (string * string) :=
  match s with
  | EmptyString => k open g s
  | String c t =>
      if in_class cls c
      then match star cls k open (capture open g (String c EmptyString)) t with
           | Some r => Some r
           | None => k open g s
           end
      else k open g s
  end.

Fixpoint match_at (p : list atom) (open : bool) (g s : string) : option (string * string) :=
  match p with
  | [] => Some (g, s)
  | Lit l :: p' =>
      match strip_prefix l s with
      | Some s' => match_at p' open (capture open g l) s'
      | None => None
      end
  | Star cls :: p' => star cls (match_at p') open g s
  | Opt cls :: p' =>
      match s with
      | EmptyString => match_at p' open g s
      | String c t =>
          if in_class cls c
          then match match_at p' open (capture open g (String c EmptyString)) t with
               | Some r => Some r
               | None => match_at p' open g s
               end
          else match_at p' open g s
      end
  | GroupOpen :: p' => match_at p' true EmptyString s
  | GroupClose :: p' => match_at p' false g s
  end.

(** [pattern.search(s)]: the match at the leftmost position that has one;
    [group(1)] of it. *)
Fixpoint search (p : list atom) (s : string) : option string :=
  match match_at p false EmptyString s with
  | Some (g, _) => Some g
  | None =>
      match s with
      | EmptyString => None
      | String _ t => search p t
      end
  end.

(** [re.sub] with the replacement that keeps group 1: every match, from the left and without
    overlap, is replaced by its group 1.  [fuel] bounds the number of steps;
    [String.length s + 1] is enough. *)
Fixpoint sub_group1 (fuel : nat) (p : list atom) (s : string) : string :=
  match fuel with
  | O => s
  | S k =>
      match match_at p false EmptyString s with
      | Some (g, rest) =>
          if (String.length rest <? String.length s)%nat then g +:+ sub_group1 k p rest
          else match s with
               | EmptyString => g
               | String c t => g +:+ String c (sub_group1 k p t)
               end
      | None =>
          match s with
          | EmptyString => EmptyString
          | String c t => String c (sub_group1 k p t)
          end
      end
  end.

Definition re_sub_group1 (p : list atom) (s : string) : string :=
  sub_group1 (S (String.length s)) p s.

(** [binary_regex]: the literal [diff --git a/], group 1 made of a greedy
    any-characters run and the literal [.dmi], the literal [ b/], and one
    optional character. *)
Definition binary_regex : list atom :=
  [Lit "diff --git a/"; GroupOpen; Star Dot; Lit ".dmi"; GroupClose; Lit " b/"; Opt Dot].

(** The pattern of the scratch name of an icon in [check_icons]: a greedy
    any-characters run, a slash, group 1 made of a greedy any-characters run,
    and the literal [.dmi]. *)
Definition name_regex : list atom :=
  [Star Dot; Lit "/"; GroupOpen; Star Dot; GroupClose; Lit ".dmi"].

(** The pattern of the issue number in [check_icons]: a greedy any-characters
    run, the literal [/issues/], and group 1 made of a greedy run of digits. *)
Definition issue_regex : list atom :=
  [Star Dot; Lit "/issues/"; GroupOpen; Star Digit; GroupClose].

(** ** Data of the pipeline *)

(** A reply to [requests.get]: the members the program reads. *)
Record Response := {
  status_code : Z;
  text : string;
  content : list byte
}.

(** One value of the dict that [icons.compare_two_icon_files] returns.  An
    image is held as the bytes its [save] writes. *)
Record Entry := {
  status : string;
  img_a : option (list byte);
  img_a_hash : string;
  img_b : option (list byte);
  img_b_hash : string
}.

(** A comment of the hosting platform: its own URL, its page, the listing
    ([{issue}/comments]) it belongs to, its author and its body. *)
Record Comment := {
  c_url : string;
  c_html_url : string;
  c_listing : string;
  c_login : string;
  c_body : string
}.

(** A reply of the comment API: status, the JSON list of a listing, and the
    [html_url] member of a written comment. *)
Record ApiReply := {
  r_status : Z;
  r_json : list Comment;
  r_html_url : string
}.

(** What happens to a call of the comment API: it is served, or the given
    reply comes back (an outage, a rate limit, a refused token) and the
    comments stay as they are. *)
Inductive outcome : Type :=
  | Served
  | Replied (r : ApiReply).

(** What the process does to the outside, in the order it happens. *)
Inductive Event : Type :=
  | Log (msg : string)
  | Get (url : string)
  | Compare (path_a path_b : string)
  | Upload (img_hash : string) (file : list byte)
  | ListComments (url : string)
  | PostComment (url body : string)
  | PatchComment (url body : string).

(** JSON values ([json.loads]); an object keeps its members in order. *)
Inductive json : Type :=
  | JNull
  | JBool (b : bool)
  | JNum (z : Z)
  | JStr (s : string)
  | JArr (l : list json)
  | JObj (members : list (string * json)).

Fixpoint assoc (k : string) (members : list (string * json)) : option json :=
  match members with
  | [] => None
  | (k', v) :: rest => if String.eqb k' k then Some v else assoc k rest
  end.

(** [j[k]] *)
Definition getitem (j : json) (k : string) : result json :=
  match j with
  | JObj members =>
      match assoc k members with
      | Some v => Ok v
      | None => Raise (KeyError k)
      end
  | _ => Raise (TypeError "indices must be integers")
  end.

(** [j.get(k, default)] of a dict; anything else, [None] included, has no
    [get]. *)
Definition json_get (j : json) (k : string) (dflt : json) : result json :=
  match j with
  | JObj members => Ok (default dflt (assoc k members))
  | _ => Raise (AttributeError "get")
  end.

(** [j in l] for a list of strings *)
Definition json_in (j : json) (l : list string) : bool :=
  match j with
  | JStr s => existsb (String.eqb s) l
  | _ => false
  end.

(** [j.lower()] *)
Definition json_lower (j : json) : result string :=
  match j with
  | JStr s => Ok (lower s)
  | _ => Raise (AttributeError "lower")
  end.

(** A member used as a URL or a name: a string is expected. *)
Definition json_str (j : json) : result string :=
  match j with
  | JStr s => Ok s
  | _ => Raise (TypeError "a string is expected")
  end.

(** [str(j)] of a scalar, as [format] writes it. *)
Definition json_format (j : json) : string :=
  match j with
  | JNull => "None"
  | JBool true => "True"
  | JBool false => "False"
  | JNum z => pretty z
  | JStr s => s
  | JArr _ => "[...]"
  | JObj _ => "{...}"
  end.

(** [side['repo']['full_name']]: each subscript raises on a missing
    member. *)
Definition repo_full_name (side : json) : result json :=
  rbind (getitem side "repo") (fun repo => getitem repo "full_name").

(** [side.get('repo').get('html_url')]: a missing [repo] gives [None], which
    has no [get]; a missing [html_url] gives [None]. *)
Definition repo_html_url (side : json) : result json :=
  rbind (json_get side "repo" JNull) (fun repo => json_get repo "html_url" JNull).

(** ['{}/blob/{}/{}'.format(repo_url, ref, icon)] *)
Definition blob_url (repo_url ref : json) (icon : string) : string :=
  json_format repo_url +:+ "/blob/" +:+ json_format ref +:+ "/" +:+ icon.

(** ** The world

    [files] is the local file system (the scratch directory [./icon_dump]),
    [db] the persistent upload cache, [comments] the comments of the hosting
    platform (oldest first), [net] the fate of the coming calls of the comment
    API (none left: served), [events] the trace so far. *)
Record World := {
  files : gmap string (list byte);
  db : gmap string string;
  comments : list Comment;
  net : list outcome;
  events : list Event
}.

(** What the program is given from outside: its configuration, the [DEBUG]
    flag, the remote files behind [requests.get], the paths at which the file
    system lets a file be created ([open(path, 'wb')] and [img.save(path)]
    raise elsewhere: a [FileNotFoundError] when the directory of the path does
    not exist, as for a name with a slash in the flat scratch directory), the
    compare capability ([icons.compare_two_icon_files]; the [icons] module is
    not among the sources, so the capability is a parameter: it reads the two
    scratch files and returns the dict of the entries), what
    [req.json()['url']] gives on the reply of the image host, called at a URL
    with a key, to the n-th upload (section 6 of the specification: a POST of
    the key and the file answers a JSON object with a [url]; a reply that is
    not JSON or has no [url] raises), and [json.loads] ([None]: it raises). *)
Record Env := {
  config : Config;
  DEBUG : bool;
  remote : string -> Response;
  writable : string -> bool;
  compare_two_icon_files : gmap string (list byte) -> string -> string -> list (string * Entry);
  upload_reply : string -> string -> nat -> list byte -> result string;
  json_loads : string -> option json
}.

(** ** The state monad of the pipeline *)

Definition M (A : Type) : Type := World -> A * World.

Definition ret {A} (a : A) : M A := fun w => (a, w).

Definition bind {A B} (m : M A) (k : A -> M B) : M B :=
  fun w => match m w with (a, w') => k a w' end.

Notation "x <- m ;; k" := (bind m (fun x => k))
  (at level 100, m at next level, right associativity).
Notation "m ;;; k" := (bind m (fun _ => k))
  (at level 100, right associativity).

(** Calls that may raise: an exception ends the computation, in the world
    that the call left. *)
Definition MR (A : Type) : Type := M (result A).

Definition bindR {A B} (m : MR A) (k : A -> MR B) : MR B :=
  r <- m ;;
  match r with
  | Ok a => k a
  | Raise e => ret (Raise e)
  end.

Notation "x <~ m ;; k" := (bindR m (fun x => k))
  (at level 100, m at next level, right associativity).
Notation "m ;;~ k" := (bindR m (fun _ => k))
  (at level 100, right associativity).

Definition liftR {A} (r : result A) : MR A := ret r.

Definition set_files (f : gmap string (list byte)) (w : World) : World :=
  {| files := f; db := db w; comments := comments w; net := net w; events := events w |}.

Definition set_db (d : gmap string string) (w : World) : World :=
  {| files := files w; db := d; comments := comments w; net := net w; events := events w |}.

Definition set_comments (c : list Comment) (w : World) : World :=
  {| files := files w; db := db w; comments := c; net := net w; events := events w |}.

Definition set_net (n : list outcome) (w : World) : World :=
  {| files := files w; db := db w; comments := comments w; net := n; events := events w |}.

Definition emit (e : Event) : M unit :=
  fun w => (tt, {| files := files w; db := db w; comments := comments w; net := net w;
                   events := events w ++ [e] |}).

(** [log_message] *)
Definition log_message (message : string) : M unit := emit (Log message).

(** The body of a [for] loop that appends at most one item to a list;
    [for_each] runs it over the list and returns what was appended.  An
    exception in the body ends the loop. *)
Fixpoint for_each {A B} (body : A -> MR (option B)) (l : list A) : MR (list B) :=
  match l with
  | [] => ret (Ok [])
  | x :: rest =>
      o <~ body x ;;
      more <~ for_each body rest ;;
      ret (Ok (match o with Some b => b :: more | None => more end))
  end.

(** *** Local files *)

Definition lookup_file (w : World) (path : string) : option (list byte) :=
  if String.eqb path "" then None else files w !! path.

(** [open(path, 'wb').write(data)], [img.save(path)]: an [OSError] where
    the file system does not let the file be created. *)
Definition write_file (E : Env) (path : string) (data : list byte) : MR unit :=
  fun w => if writable E path
           then (Ok tt, set_files (<[path := data]> (files w)) w)
           else (Raise (OSError path), w).

(** [open(path, 'rb')]: the bytes that are read from it *)
Definition read_file (path : string) : M (list byte) :=
  fun w => (default [] (lookup_file w path), w).

(** [os.path.exists(path)] *)
Definition os_path_exists (path : string) : M bool :=
  fun w => (bool_decide (is_Some (lookup_file w path)), w).

(** [os.remove(path)]: [false] stands for the [OSError] of a missing file. *)
Definition os_remove (path : string) : M bool :=
  fun w => match lookup_file w path with
           | Some _ => (true, set_files (delete path (files w)) w)
           | None => (false, w)
           end.

(** *** Remote files ([requests.get] of the diff and of raw content) *)

Definition requests_get (E : Env) (url : string) : M Response :=
  emit (Get url) ;;; ret (remote E url).

(** *** The upload cache ([database.DBCore]) *)

(** Modelled from the spec: [DB.get_url] of the [database] module, which is
    absent; section 6 gives the persistent cache as get(hash) -> URL or
    absent. *)
Definition get_url (img_hash : string) : M (option string) :=
  fun w => (db w !! img_hash, w).

(** Modelled from the spec: [DB.set_url] of the [database] module, which is
    absent; section 6 gives set(hash, URL). *)
Definition set_url (img_hash url : string) : M unit :=
  fun w => (tt, set_db (<[img_hash := url]> (db w)) w).

Definition is_upload (e : Event) : bool :=
  match e with Upload _ _ => true | _ => false end.

(** [requests.post(config.upload_api_url, data=data, files=files)] followed
    by [req.json()['url']]: the POST is made, then the reply gives the URL of
    the stored image or raises; [img_hash] only labels the event. *)
Definition requests_post_image (E : Env) (img_hash : string) (file : list byte) : MR string :=
  fun w => (upload_reply E (upload_api_url (config E)) (upload_api_key (config E))
                         (length (List.filter is_upload (events w))) file,
            snd (emit (Upload img_hash file) w)).

(** *** The comment API

    The hosting platform, as section 6 of the specification gives it: a GET
    lists the comments of an issue, a POST creates one, a PATCH at the own URL
    of a comment updates it.  A call that is not served answers the reply that
    [net] holds for it and changes nothing. *)

Definition next_outcome (w : World) : outcome * World :=
  match net w with
  | [] => (Served, w)
  | o :: rest => (o, set_net rest w)
  end.

Definition on_listing (url : string) (c : Comment) : bool := String.eqb (c_listing c) url.

(** GET of a listing: served, it answers 200 and the comments of the
    listing, oldest first. *)
Definition api_get (url : string) : M ApiReply :=
  emit (ListComments url) ;;;
  fun w => match next_outcome w with
           | (Served, w') =>
               ({| r_status := 200; r_json := List.filter (on_listing url) (comments w');
                   r_html_url := "" |}, w')
           | (Replied r, w') => (r, w')
           end.

(** The comment that a served POST creates: it is written by the
    authenticated user and numbered after the comments so far. *)
Definition new_comment (url body user : string) (w : World) : Comment :=
  {| c_url := url +:+ "/" +:+ pretty (length (comments w));
     c_html_url := url +:+ "#" +:+ pretty (length (comments w));
     c_listing := url; c_login := user; c_body := body |}.

(** POST on a listing: served, it appends a comment written by the
    authenticated user and answers 201. *)
Definition api_post (url body : string) (auth : string * string) : M ApiReply :=
  emit (PostComment url body) ;;;
  fun w => match next_outcome w with
           | (Served, w') =>
               let c := new_comment url body (fst auth) w' in
               ({| r_status := 201; r_json := []; r_html_url := c_html_url c |},
                set_comments (comments w' ++ [c]) w')
           | (Replied r, w') => (r, w')
           end.

Definition patch_body (url body : string) (c : Comment) : Comment :=
  if String.eqb (c_url c) url
  then {| c_url := c_url c; c_html_url := c_html_url c; c_listing := c_listing c;
          c_login := c_login c; c_body := body |}
  else c.

(** PATCH of a comment: served, it replaces the body of the comment at
    that URL and answers 200, or 404 when there is none. *)
Definition api_patch (url body : string) (auth : string * string) : M ApiReply :=
  emit (PatchComment url body) ;;;
  fun w => match next_outcome w with
           | (Served, w') =>
               match List.find (fun c => String.eqb (c_url c) url) (comments w') with
               | Some c =>
                   ({| r_status := 200; r_json := []; r_html_url := c_html_url c |},
                    set_comments (map (patch_body url body) (comments w')) w')
               | None => ({| r_status := 404; r_json := []; r_html_url := "" |}, w')
               end
           | (Replied r, w') => (r, w')
           end.

(** ** Diff extraction ([check_diff]) *)

(** The loop over the lines: the lines that match add their group 1. *)
Fixpoint icons_of_lines (diff : list string) : list string :=
  match diff with
  | [] => []
  | line :: rest =>
      match search binary_regex line with
      | None => icons_of_lines rest
      | Some icon => icon :: icons_of_lines rest
      end
  end.

Definition check_diff (E : Env) (diff_url : string) : M (option (list string)) :=
  req <- requests_get E diff_url ;;
  if status_code req =? 404 then ret None
  else ret (Some (icons_of_lines (split_lines (text req)))).

(** ** Image publishing ([upload_image]) *)

Definition upload_image (E : Env) (file_to_upload : list byte) (img_hash : string)
    (upload : bool) : MR (option string) :=
  if negb upload then ret (Ok None)
  else
    has_link <- get_url img_hash ;;
    match has_link with
    | Some link => ret (Ok (Some link))
    | None =>
        url <~ requests_post_image E img_hash file_to_upload ;;
        set_url img_hash url ;;;
        ret (Ok (Some url))
    end.

(** ** The bot comment ([check_comments], [post_comment]) *)

Definition by_user (user : string) (c : Comment) : bool := String.eqb (c_login c) user.

Definition check_comments (E : Env) (api_url : string) : M (option string) :=
  req <- api_get api_url ;;
  if r_status req =? 200
  then ret (c_url <$> List.find (by_user (github_user (config E))) (r_json req))
  else ret None.

Definition post_comment (E : Env) (issue_url : string) (message_dict : list string)
    (base : json) : MR unit :=
  full_name <~ liftR (repo_full_name base) ;;
  let repo_name := json_format full_name in
  let github_api_url := issue_url +:+ "/comments" in
  comment_id <- check_comments E github_api_url ;;
  let body := String.concat (String newline "") message_dict in
  let auth := (github_user (config E), github_auth (config E)) in
  req <- match comment_id with
         | Some url =>
             log_message ("[" +:+ repo_name
                          +:+ "] Found a comment from us on the pull request; " +:+ url) ;;;
             api_patch url body auth
         | None => api_post github_api_url body auth
         end ;;
  (if (r_status req =? 201) || (r_status req =? 200)
   then log_message ("[" +:+ repo_name +:+ "] Sucessefully commented icon diff on: "
                     +:+ r_html_url req)
   else
     log_message ("[" +:+ repo_name +:+ "] Failed to comment on: " +:+ issue_url) ;;;
     log_message ("Error code: " +:+ pretty (r_status req))) ;;;
  ret (Ok tt).

(** ** The report ([check_icons]) *)

(** [str(None)] where a URL is formatted *)
Definition str_of_url (o : option string) : string := default "None" o.

(** One image cell of a row: the image is saved, published and its scratch
    file removed (kept under [DEBUG]); a missing image gives the empty
    placeholder.  When the save or the publishing raises, the scratch file is
    left as it is. *)
Definition image_cell (E : Env) (send_message : bool) (key path : string)
    (img : option (list byte)) (img_hash : string) : MR string :=
  match img with
  | Some png =>
      write_file E path png ;;~
      f <- read_file path ;;
      url <~ upload_image E f img_hash send_message ;;
      (if DEBUG E then ret false else os_remove path) ;;;
      ret (Ok ("![" +:+ key +:+ "](" +:+ str_of_url url +:+ ")"))
  | None => ret (Ok "![]()")
  end.

(** The loop over the keys of the dict: one row per entry that is not
    [Equal]. *)
Fixpoint rows_of (E : Env) (send_message : bool) (this_dict : list (string * Entry))
    : MR (list string) :=
  match this_dict with
  | [] => ret (Ok [])
  | (key, e) :: rest =>
      if String.eqb (status e) "Equal" then rows_of E send_message rest
      else
        url_a <~ image_cell E send_message key ("./icon_dump/old_" +:+ key +:+ ".png")
                            (img_a e) (img_a_hash e) ;;
        url_b <~ image_cell E send_message key ("./icon_dump/new_" +:+ key +:+ ".png")
                            (img_b e) (img_b_hash e) ;;
        rows <~ rows_of E send_message rest ;;
        ret (Ok ((key +:+ "|" +:+ url_a +:+ "|" +:+ url_b +:+ "|" +:+ status e) :: rows))
  end.

(** [icons.compare_two_icon_files(icon_path_a, icon_path_b)] *)
Definition compare_icons (E : Env) (icon_path_a icon_path_b : string)
    : M (list (string * Entry)) :=
  emit (Compare icon_path_a icon_path_b) ;;;
  fun w => (compare_two_icon_files E (files w) icon_path_a icon_path_b, w).

Definition remove_if_exists (path : string) : M unit :=
  there <- os_path_exists path ;;
  if there then os_remove path ;;; ret tt else ret tt.

(** The part of the loop body after the compare call: nothing for an empty
    dict, else the rows and the block of the icon, then the log file of the
    icon under [DEBUG], else the cleaning of the scratch files.  It returns
    the block appended to [msgs], if any. *)
Definition render_block (E : Env) (issue_url icon i_name icon_path_a icon_path_b : string)
    (send_message : bool) (this_dict : list (string * Entry)) : MR (option string) :=
  match this_dict with
  | [] => ret (Ok None)
  | _ =>
      rows <~ rows_of E send_message this_dict ;;
      let msg := (["<details><summary>" +:+ icon +:+ "</summary>" +:+ String newline "";
                   "Key | Old | New | Status"; "--- | --- | --- | ---"]
                  ++ rows ++ ["</details>"])%list in
      let joined := String.concat (String newline "") msg in
      (if DEBUG E
       then write_file E ("icon_dump/" +:+ i_name +:+ "_"
                          +:+ re_sub_group1 issue_regex issue_url +:+ ".log")
                       (bytes_of joined)
       else remove_if_exists icon_path_a ;;; remove_if_exists icon_path_b ;;; ret (Ok tt)) ;;~
      ret (Ok (if (4 <? length msg)%nat then Some joined else None))
  end.

(** The part of the loop body after the two fetches. *)
Definition compare_and_render (E : Env) (issue_url icon i_name icon_path_a icon_path_b : string)
    (send_message : bool) : MR (option string) :=
  this_dict <- compare_icons E icon_path_a icon_path_b ;;
  render_block E issue_url icon i_name icon_path_a icon_path_b send_message this_dict.

(** The body of the loop over the icons; [base_repo_url] and
    [head_repo_url] are what was read before the loop, [base['ref']] and
    [head['ref']] are read when the URL of each fetch is formatted.  The reply
    to a fetch is a function of its URL (the form data [raw=1] goes with both
    fetches). *)
Definition check_icon (E : Env) (base_repo_url head_repo_url base head : json)
    (issue_url : string) (send_message : bool) (icon : string) : MR (option string) :=
  let i_name := re_sub_group1 name_regex icon in
  let old_path := "./icon_dump/old_" +:+ i_name +:+ ".dmi" in
  let icon_path_b := "./icon_dump/new_" +:+ i_name +:+ ".dmi" in
  base_ref <~ liftR (getitem base "ref") ;;
  response_a <- requests_get E (blob_url base_repo_url base_ref icon) ;;
  head_ref <~ liftR (getitem head "ref") ;;
  response_b <- requests_get E (blob_url head_repo_url head_ref icon) ;;
  icon_path_a <~ (if status_code response_a =? 200
                  then write_file E old_path (content response_a) ;;~ ret (Ok old_path)
                  else if status_code response_a =? 404 then ret (Ok "")
                  else ret (Ok old_path)) ;;
  if status_code response_b =? 200
  then
    write_file E icon_path_b (content response_b) ;;~
    compare_and_render E issue_url icon i_name icon_path_a icon_path_b send_message
  else if status_code response_b =? 404
  then os_remove icon_path_a ;;; ret (Ok None)
  else compare_and_render E issue_url icon i_name icon_path_a icon_path_b send_message.

(** [check_icons]; the scratch directory exists once [os.makedirs] has
    run, and [writable] tells what can be created in it. *)
Definition check_icons (E : Env) (icons_with_diff : list string) (base head : json)
    (issue_url : string) (send_message : bool) : MR unit :=
  base_repo_url <~ liftR (repo_html_url base) ;;
  head_repo_url <~ liftR (repo_html_url head) ;;
  blocks <~ for_each (check_icon E base_repo_url head_repo_url base head issue_url send_message)
                     icons_with_diff ;;
  let msgs := "Icons with diff:" :: blocks in
  if send_message && (1 <? length msgs)%nat
  then post_comment E issue_url msgs base
  else ret (Ok tt).

(** ** The webhook receiver ([Handler.render_POST]) *)

Record Request := {
  request_content : list byte;
  getHeader : string -> option string
}.

Definition header_is (h : option string) (v : string) : bool :=
  match h with
  | Some s => String.eqb s v
  | None => false
  end.

(** The receiver answers a status code and a body, or raises.  The
    members [diff_url] and [issue_url] are URLs: they are read as strings.
    Nothing catches an exception of [check_icons]. *)
Definition render_POST (E : Env) (request : Request) : MR (Z * string) :=
  let payload := request_content request in
  verified <~ liftR (compare_secret (config E) (getHeader request "X-Hub-Signature") payload) ;;
  if negb verified
  then
    log_message "POST received with wrong secret." ;;;
    ret (Ok (401, "Secret does not match."))
  else
    let event := getHeader request "X-GitHub-Event" in
    if negb (header_is event "pull_request")
    then
      log_message ("POST received with event: " +:+ default "None" event) ;;;
      ret (Ok (404, "Event not supported"))
    else
      payload <~ liftR (match json_loads E (string_of_list_byte payload) with
                        | Some j => Ok j
                        | None => Raise JSONDecodeError
                        end) ;;
      pr_obj <~ liftR (getitem payload "pull_request") ;;
      action <~ liftR (getitem payload "action") ;;
      if negb (json_in action actions_to_check)
      then ret (Ok (200, "Not actionable"))
      else
        login <~ liftR (rbind (getitem pr_obj "user") (fun user =>
                        rbind (getitem user "login") json_lower)) ;;
        if existsb (String.eqb login) (ignore_list (config E))
        then ret (Ok (200, "Ok"))
        else
          issue_url <~ liftR (getitem pr_obj "issue_url") ;;
          pr_diff_url <~ liftR (getitem pr_obj "diff_url") ;;
          head <~ liftR (getitem pr_obj "head") ;;
          base <~ liftR (getitem pr_obj "base") ;;
          diff_url <~ liftR (json_str pr_diff_url) ;;
          icons_with_diff <- check_diff E diff_url ;;
          match icons_with_diff with
          | Some ((_ :: _) as icons) =>
              full_name <~ liftR (repo_full_name base) ;;
              number <~ liftR (getitem payload "number") ;;
              log_message (json_format full_name +:+ ": Icon diff detected on pull request: "
                           +:+ json_format number +:+ "!") ;;;
              issue <~ liftR (json_str issue_url) ;;
              check_icons E icons base head issue true ;;~
              ret (Ok (200, "Ok"))
          | _ => ret (Ok (200, "Ok"))
          end.

(** [Handler.render_GET] *)
Definition render_GET (request : Request) : Z * string :=
  (404, "GET requests are not supported.").

(** ** The configuration at start-up ([Config])

    [os.environ] is a map from names to strings.  What [json.load] answers
    on [config.json] is given: nothing when the file does not exist, else the
    value it decodes or the exception it raises.  The attributes of the
    configuration are whatever the environment or the file holds: a string of
    the environment, any JSON value of the file, [JNull] for [None]. *)

(** [Config.load_variable] *)
Definition load_variable (environ : gmap string string) (environ_name : string)
    (alt_environ_name : option string) (config_value : json) : json :=
  match alt_environ_name ≫= (fun alt => environ !! alt) with
  | Some v => JStr v
  | None =>
      match environ !! environ_name with
      | Some v => JStr v
      | None => config_value
      end
  end.

(** [j[k] = v]: the new member comes first, where [assoc] finds it. *)
Definition setitem (j : json) (k : string) (v : json) : result json :=
  match j with
  | JObj members => Ok (JObj ((k, v) :: members))
  | _ => Raise (TypeError "item assignment is not supported")
  end.

(** [s.split(sep)] for a separator of one character *)
Fixpoint split_on (sep : ascii) (s : string) : list string :=
  match s with
  | EmptyString => [EmptyString]
  | String c t =>
      if Ascii.eqb c sep then EmptyString :: split_on sep t
      else match split_on sep t with
           | l :: ls => String c l :: ls
           | [] => [String c EmptyString]
           end
  end.

(** UTF-8 of a code point below 256: one byte below 128, else two. *)
Definition utf8_of_char (c : ascii) : list byte :=
  let n := Z.of_nat (nat_of_ascii c) in
  if n <? 128 then [Sha1.Z_byte n]
  else [Sha1.Z_byte (192 + n / 64); Sha1.Z_byte (128 + n mod 64)].

Fixpoint encode_utf8 (s : string) : list byte :=
  match s with
  | EmptyString => []
  | String c t => utf8_of_char c ++ encode_utf8 t
  end.

(** [j.encode('utf-8')] *)
Definition json_encode (j : json) : result (list byte) :=
  match j with
  | JStr s => Ok (encode_utf8 s)
  | _ => Raise (AttributeError "encode")
  end.

(** The attributes that [Config.__init__] sets. *)
Record Settings := {
  s_webhook_port : json;
  s_github_secret : list byte;
  s_github_user : json;
  s_github_auth : json;
  s_upload_api_url : json;
  s_upload_api_key : json;
  s_ignore_list : json
}.

(** [config.get(section, {}).get(k)] *)
Definition section_get (config : json) (section k : string) : result json :=
  rbind (json_get config section (JObj [])) (fun s => json_get s k JNull).

(** [Config.__init__] *)
Definition Config_init (environ : gmap string string) (config_file : option (result json))
    : MR Settings :=
  config <~ match config_file with
            | Some loaded => liftR loaded
            | None => log_message "Make sure the config file exists." ;;; ret (Ok (JObj []))
            end ;;
  config <~ liftR (match environ !! "ICONBOT_IGNORELIST" with
                   | Some v => setitem config "ignore" (JArr (map JStr (split_on "," v)))
                   | None => Ok config
                   end) ;;
  port <~ liftR (json_get config "webhook_port" JNull) ;;
  secret <~ liftR (section_get config "github" "secret") ;;
  secret_bytes <~ liftR (json_encode (load_variable environ "GITHUB_SECRET"
                                        (Some "ICONBOT_GITHUB_SECRET") secret)) ;;
  user <~ liftR (section_get config "github" "user") ;;
  auth <~ liftR (section_get config "github" "auth") ;;
  url <~ liftR (section_get config "upload_api" "url") ;;
  key <~ liftR (section_get config "upload_api" "key") ;;
  ignore <~ liftR (getitem config "ignore") ;;
  ret (Ok {| s_webhook_port := load_variable environ "ICONBOT_WEBHOOK_PORT" None port;
             s_github_secret := secret_bytes;
             s_github_user := load_variable environ "GITHUB_USER" (Some "ICONBOT_GITHUB_USER")
                                user;
             s_github_auth := load_variable environ "GITHUB_AUTH" (Some "ICONBOT_GITHUB_AUTH")
                                auth;
             s_upload_api_url := load_variable environ "UPLOADAPI_URL" (Some "UPLOADAPI_URL")
                                   url;
             s_upload_api_key := load_variable environ "UPLOADAPI_KEY" (Some "UPLOADAPI_KEY")
                                   key;
             s_ignore_list := ignore |}).

(** ** The debug entry points ([test_pr], [get_debug_input]) *)

(** A [for] loop whose body returns nothing. *)
Fixpoint for_all {A} (body : A -> M unit) (l : list A) : M unit :=
  match l with
  | [] => ret tt
  | x :: rest => body x ;;; for_all body rest
  end.

(** [test_pr]; [number] is the number as [format] writes it.  The reply
    to the GET of the pull request is decoded with [json_loads]. *)
Definition test_pr (E : Env) (number owner repository : string) (send_message : bool)
    : MR unit :=
  req <- requests_get E ("https://api.github.com/repos/" +:+ owner +:+ "/" +:+ repository
                         +:+ "/pulls/" +:+ number) ;;
  log_message ("[" +:+ owner +:+ "/" +:+ repository +:+ "] Testing PR #" +:+ number) ;;;
  if status_code req =? 404
  then
    log_message ("PR #" +:+ number +:+ " on " +:+ owner +:+ "/" +:+ repository
                 +:+ " does not exist.") ;;;
    ret (Ok tt)
  else
    payload <~ liftR (match json_loads E (text req) with
                      | Some j => Ok j
                      | None => Raise JSONDecodeError
                      end) ;;
    pr_diff_url <~ liftR (getitem payload "diff_url") ;;
    diff_url <~ liftR (json_str pr_diff_url) ;;
    icons_diff <- check_diff E diff_url ;;
    match icons_diff with
    | Some ((_ :: _) as icons) =>
        log_message "Icons:" ;;;
        for_all log_message icons ;;;
        base <~ liftR (getitem payload "base") ;;
        head <~ liftR (getitem payload "head") ;;
        issue_url <~ liftR (getitem payload "issue_url") ;;
        issue <~ liftR (json_str issue_url) ;;
        check_icons E icons base head issue send_message
    | _ =>
        log_message ("No diff detected on [" +:+ owner +:+ "/" +:+ repository +:+ "] #"
                     +:+ number) ;;;
        ret (Ok tt)
    end.

(** [get_debug_input]; the four lines read from the standard input are
    given. *)
Definition get_debug_input (E : Env) (owner repo number answer : string) : MR unit :=
  let send_msg := String.eqb (lower (substring 0 1 answer)) "y" in
  test_pr E number owner repo send_msg.

(** ** A JSON decoder

    The properties below hold for any [json_loads]; the examples run with this
    decoder of objects, arrays, strings with the simple escapes, integers and
    the three constants. *)

Module Json.

Definition dquote : ascii := ascii_of_nat 34.
Definition backslash : ascii := ascii_of_nat 92.

Definition is_ws (c : ascii) : bool :=
  let n := nat_of_ascii c in
  ((n =? 32) || (n =? 9) || (n =? 10) || (n =? 13))%nat.

Fixpoint skip_ws (s : string) : string :=
  match s with
  | String c t => if is_ws c then skip_ws t else s
  | EmptyString => s
  end.

(** The characters of a string up to its closing quote, and what follows. *)
Fixpoint chars (s : string) : option (string * string) :=
  match s with
  | EmptyString => None
  | String c t =>
      if Ascii.eqb c dquote then Some (EmptyString, t)
      else if Ascii.eqb c backslash then
        match t with
        | String e t' =>
            let plain (x : ascii) :=
              match chars t' with
              | Some (body, rest) => Some (String x body, rest)
              | None => None
              end in
            if Ascii.eqb e dquote then plain dquote
            else if Ascii.eqb e backslash then plain backslash
            else if Ascii.eqb e "/" then plain "/"%char
            else if Ascii.eqb e "n" then plain (ascii_of_nat 10)
            else if Ascii.eqb e "t" then plain (ascii_of_nat 9)
            else if Ascii.eqb e "r" then plain (ascii_of_nat 13)
            else None
        | EmptyString => None
        end
      else match chars t with
           | Some (body, rest) => Some (String c body, rest)
           | None => None
           end
  end.

Fixpoint digits (acc : Z) (s : string) : Z * string :=
  match s with
  | String c t =>
      if is_digit c then digits (10 * acc + Z.of_nat (nat_of_ascii c) - 48) t
      else (acc, s)
  | EmptyString => (acc, s)
  end.

Definition number (s : string) : option (Z * string) :=
  match s with
  | String c t =>
      if Ascii.eqb c "-" then
        match t with
        | String d _ => if is_digit d then let (n, rest) := digits 0 t in Some (- n, rest) else None
        | EmptyString => None
        end
      else if is_digit c then Some (digits 0 s)
      else None
  | EmptyString => None
  end.

Fixpoint value (fuel : nat) (s : string) : option (json * string) :=
  match fuel with
  | O => None
  | S k =>
      match skip_ws s with
      | EmptyString => None
      | String c t as s' =>
          if Ascii.eqb c "{" then
            match skip_ws t with
            | String "}" rest => Some (JObj [], rest)
            | _ => members k [] t
            end
          else if Ascii.eqb c "[" then
            match skip_ws t with
            | String "]" rest => Some (JArr [], rest)
            | _ => elements k [] t
            end
          else if Ascii.eqb c dquote then
            match chars t with
            | Some (body, rest) => Some (JStr body, rest)
            | None => None
            end
          else match strip_prefix "true" s', strip_prefix "false" s', strip_prefix "null" s' with
               | Some rest, _, _ => Some (JBool true, rest)
               | _, Some rest, _ => Some (JBool false, rest)
               | _, _, Some rest => Some (JNull, rest)
               | _, _, _ =>
                   match number s' with
                   | Some (n, rest) => Some (JNum n, rest)
                   | None => None
                   end
               end
      end
  end
with members (fuel : nat) (acc : list (string * json)) (s : string) : option (json * string) :=
  match fuel with
  | O => None
  | S k =>
      match skip_ws s with
      | String c t =>
          if Ascii.eqb c dquote then
            match chars t with
            | Some (key, rest) =>
                match skip_ws rest with
                | String ":" rest' =>
                    match value k rest' with
                    | Some (v, rest'') =>
                        match skip_ws rest'' with
                        | String "," more => members k ((key, v) :: acc) more
                        | String "}" after => Some (JObj ((key, v) :: acc), after)
                        | _ => None
                        end
                    | None => None
                    end
                | _ => None
                end
            | None => None
            end
          else None
      | EmptyString => None
      end
  end
with elements (fuel : nat) (acc : list json) (s : string) : option (json * string) :=
  match fuel with
  | O => None
  | S k =>
      match value k s with
      | Some (v, rest) =>
          match skip_ws rest with
          | String "," more => elements k (acc ++ [v]) more
          | String "]" after => Some (JArr (acc ++ [v]), after)
          | _ => None
          end
      | None => None
      end
  end.

(** [json.loads]: one value and nothing but blanks after it.  The members of
    an object are kept last first, so that a repeated key reads as its last
    value. *)
Definition loads (s : string) : option json :=
  match value (S (String.length s)) s with
  | Some (v, rest) =>
      match skip_ws rest with
      | EmptyString => Some v
      | _ => None
      end
  | None => None
  end.

(** JSON text written with apostrophes in place of double quotes. *)
Fixpoint text (s : string) : string :=
  match s with
  | EmptyString => EmptyString
  | String c t => String (if Ascii.eqb c "'" then dquote else c) (text t)
  end.

End Json.

(** ** A sample deployment

    The data of the examples: a configuration, a pull request whose diff
    names one sprite sheet, the two sides of the sheet, a flat scratch
    directory, a compare capability that reports one unchanged and one changed
    state, and an image host. *)

Definition example_config : Config :=
  {| webhook_port := 8080; github_secret := bytes_of "a"; github_user := "icon-bot";
     github_auth := "token"; upload_api_url := "https://img.example/upload";
     upload_api_key := "key"; ignore_list := ["dependabot"] |}.

Definition example_diff_url : string := "https://github.com/o/r/pull/7.diff".

Definition example_remote (url : string) : Response :=
  if String.eqb url example_diff_url
  then {| status_code := 200; text := "diff --git a/icons/test.dmi b/icons/test.dmi";
          content := [] |}
  else if String.eqb url "https://github.com/o/r/blob/master/icons/test.dmi"
  then {| status_code := 200; text := ""; content := bytes_of "old sheet" |}
  else if String.eqb url "https://github.com/fork/r/blob/patch/icons/test.dmi"
  then {| status_code := 200; text := ""; content := bytes_of "new sheet" |}
  else {| status_code := 404; text := "Not Found"; content := [] |}.

Definition example_dict : list (string * Entry) :=
  [("idle", {| status := "Equal"; img_a := Some (bytes_of "png0"); img_a_hash := "h0";
               img_b := Some (bytes_of "png0"); img_b_hash := "h0" |});
   ("walk", {| status := "Changed"; img_a := Some (bytes_of "png1"); img_a_hash := "h1";
               img_b := Some (bytes_of "png2"); img_b_hash := "h2" |})].

Fixpoint no_slash (name : string) : bool :=
  match name with
  | EmptyString => true
  | String c t => negb (Ascii.eqb c "/") && no_slash t
  end.

(** The flat scratch directory: a file can be created at [./icon_dump/name]
    and at [icon_dump/name] for a name without a slash, and nowhere else. *)
Definition in_scratch (path : string) : bool :=
  match strip_prefix "./icon_dump/" path, strip_prefix "icon_dump/" path with
  | Some name, _ | None, Some name => negb (String.eqb name "") && no_slash name
  | None, None => false
  end.

(** An image host that answers the URL of the n-th image. *)
Definition example_host (url key : string) (n : nat) (file : list byte) : result string :=
  Ok ("https://img.example/" +:+ pretty n).

Definition example_env : Env :=
  {| config := example_config;
     DEBUG := false;
     remote := example_remote;
     writable := in_scratch;
     compare_two_icon_files := fun _ _ _ => example_dict;
     upload_reply := example_host;
     json_loads := Json.loads |}.

Definition example_base : json :=
  JObj [("ref", JStr "master");
        ("repo", JObj [("html_url", JStr "https://github.com/o/r");
                       ("full_name", JStr "o/r")])].

Definition example_head : json :=
  JObj [("ref", JStr "patch");
        ("repo", JObj [("html_url", JStr "https://github.com/fork/r");
                       ("full_name", JStr "fork/r")])].

Definition example_issue : string := "https://api.github.com/repos/o/r/issues/7".

Definition empty_world : World :=
  {| files := ∅; db := ∅; comments := []; net := []; events := [] |}.

(** A host that answers 500 to everything. *)
Definition failing_remote (url : string) : Response :=
  {| status_code := 500;
     text := "Internal error near diff --git a/icons/ghost.dmi b/icons/ghost.dmi";
     content := [] |}.

Definition failing_env : Env :=
  {| config := example_config; DEBUG := false; remote := failing_remote;
     writable := in_scratch;
     compare_two_icon_files := fun _ _ _ => example_dict;
     upload_reply := example_host;
     json_loads := Json.loads |}.

(** A host that answers 500 on the base side of the sample sheet. *)
Definition flaky_remote (url : string) : Response :=
  if String.eqb url "https://github.com/fork/r/blob/patch/icons/test.dmi"
  then {| status_code := 200; text := ""; content := bytes_of "new sheet" |}
  else {| status_code := 500; text := "Internal Server Error"; content := [] |}.

Definition flaky_env : Env :=
  {| config := example_config; DEBUG := false; remote := flaky_remote;
     writable := in_scratch;
     compare_two_icon_files := fun _ _ _ => example_dict;
     upload_reply := example_host;
     json_loads := Json.loads |}.

(** A compare capability that reads the two sheets: one state, [Equal]
    when both files are there with the same bytes. *)
Definition compare_bytes (fs : gmap string (list byte)) (a b : string)
    : list (string * Entry) :=
  match fs !! a, fs !! b with
  | Some x, Some y =>
      [("sheet", {| status := if String.eqb (string_of_list_byte x) (string_of_list_byte y)
                              then "Equal" else "Changed";
                    img_a := Some x; img_a_hash := "a"; img_b := Some y; img_b_hash := "b" |})]
  | _, _ =>
      [("sheet", {| status := "Changed"; img_a := None; img_a_hash := "";
                    img_b := None; img_b_hash := "" |})]
  end.

(** A pull request that touches the sample sheet without changing a
    byte. *)
Definition unchanged_remote (url : string) : Response :=
  if String.eqb url "https://github.com/o/r/blob/master/icons/test.dmi"
  then {| status_code := 200; text := ""; content := bytes_of "old sheet" |}
  else if String.eqb url "https://github.com/fork/r/blob/patch/icons/test.dmi"
  then {| status_code := 200; text := ""; content := bytes_of "old sheet" |}
  else {| status_code := 404; text := "Not Found"; content := [] |}.

Definition unchanged_env : Env :=
  {| config := example_config; DEBUG := false; remote := unchanged_remote;
     writable := in_scratch;
     compare_two_icon_files := compare_bytes;
     upload_reply := example_host;
     json_loads := Json.loads |}.

(** A head side on which the sample sheet does not exist. *)
Definition gone_head : json :=
  JObj [("ref", JStr "gone");
        ("repo", JObj [("html_url", JStr "https://github.com/fork/r");
                       ("full_name", JStr "fork/r")])].

(** The reply of the comment API during an outage. *)
Definition outage : ApiReply :=
  {| r_status := 500; r_json := []; r_html_url := "" |}.

(** A comment that the bot wrote on the sample issue. *)
Definition bot_comment : Comment :=
  {| c_url := "https://api.github.com/repos/o/r/issues/comments/1";
     c_html_url := "https://github.com/o/r/pull/7#issuecomment-1";
     c_listing := "https://api.github.com/repos/o/r/issues/7/comments";
     c_login := "icon-bot";
     c_body := "Icons with diff:" |}.

(** The body of a delivery of the sample pull request. *)
Definition sample_body : string :=
  Json.text ("{'action': 'opened', 'number': 7, 'pull_request': {"
             +:+ "'user': {'login': 'Alice'}, "
             +:+ "'issue_url': 'https://api.github.com/repos/o/r/issues/7', "
             +:+ "'diff_url': 'https://github.com/o/r/pull/7.diff', "
             +:+ "'head': {'ref': 'patch', 'repo': {'html_url': 'https://github.com/fork/r', "
             +:+ "'full_name': 'fork/r'}}, "
             +:+ "'base': {'ref': 'master', 'repo': {'html_url': 'https://github.com/o/r', "
             +:+ "'full_name': 'o/r'}}}}").

(** A delivery signed with [secret]. *)
Definition signed (secret : list byte) (event body : string) : Request :=
  {| request_content := bytes_of body;
     getHeader := fun name =>
       if String.eqb name "X-Hub-Signature"
       then Some ("sha1=" +:+ Hmac.hexdigest secret (bytes_of body))
       else if String.eqb name "X-GitHub-Event" then Some event
       else None |}.

Definition sample_request : Request :=
  signed (github_secret example_config) "pull_request" sample_body.

(** A host whose diff has two lines: a header quoted in an added line,
    and the header of a sheet whose name holds a space. *)
Definition two_part_remote (url : string) : Response :=
  {| status_code := 200;
     text := "+diff --git a/icons/a.dmi b/icons/a.dmi" +:+ String newline ""
             +:+ "diff --git a/x y.dmi b/x y.dmi b/z";
     content := [] |}.

Definition two_part_env : Env :=
  {| config := example_config; DEBUG := false; remote := two_part_remote;
     writable := in_scratch;
     compare_two_icon_files := fun _ _ _ => example_dict;
     upload_reply := example_host;
     json_loads := Json.loads |}.

(** A diff of four lines that names one sheet twice. *)
Definition repeated_lines : list string :=
  ["diff --git a/b.dmi b/b.dmi"; "index 1..2"; "diff --git a/a.dmi b/a.dmi";
   "diff --git a/b.dmi b/b.dmi"].

Definition repeated_remote (url : string) : Response :=
  {| status_code := 200; text := String.concat (String newline "") repeated_lines;
     content := [] |}.

Definition repeated_env : Env :=
  {| config := example_config; DEBUG := false; remote := repeated_remote;
     writable := in_scratch;
     compare_two_icon_files := fun _ _ _ => example_dict;
     upload_reply := example_host;
     json_loads := Json.loads |}.

(** A compare capability that finds nothing to compare. *)
Definition silent_env : Env :=
  {| config := example_config; DEBUG := false; remote := example_remote;
     writable := in_scratch;
     compare_two_icon_files := fun _ _ _ => [];
     upload_reply := example_host;
     json_loads := Json.loads |}.

(** An image host whose first reply carries no [url]. *)
Definition mute_host (url key : string) (n : nat) (file : list byte) : result string :=
  match n with
  | O => Raise (KeyError "url")
  | S _ => Ok ("https://img.example/" +:+ pretty n)
  end.

Definition mute_env : Env :=
  {| config := example_config; DEBUG := false; remote := example_remote;
     writable := in_scratch;
     compare_two_icon_files := fun _ _ _ => example_dict;
     upload_reply := mute_host;
     json_loads := Json.loads |}.

(** A sheet with a state whose name holds a slash. *)
Definition slash_dict : list (string * Entry) :=
  [("a/b", {| status := "Changed"; img_a := Some (bytes_of "png1"); img_a_hash := "h1";
              img_b := Some (bytes_of "png2"); img_b_hash := "h2" |})].

Definition slash_env : Env :=
  {| config := example_config; DEBUG := false; remote := example_remote;
     writable := in_scratch;
     compare_two_icon_files := fun _ _ _ => slash_dict;
     upload_reply := example_host;
     json_loads := Json.loads |}.

(** Two sheets, the second with the state whose name holds a slash; the
    host of the repository serves every path. *)
Definition late_slash_env : Env :=
  {| config := example_config; DEBUG := false;
     remote := fun _ => {| status_code := 200; text := ""; content := bytes_of "sheet" |};
     writable := in_scratch;
     compare_two_icon_files :=
       fun _ _ b => if String.eqb b "./icon_dump/new_a.dmi" then slash_dict else example_dict;
     upload_reply := example_host;
     json_loads := Json.loads |}.

(** A later comment of the bot on the sample issue. *)
Definition second_bot_comment : Comment :=
  {| c_url := "https://api.github.com/repos/o/r/issues/comments/2";
     c_html_url := "https://github.com/o/r/pull/7#issuecomment-2";
     c_listing := "https://api.github.com/repos/o/r/issues/7/comments";
     c_login := "icon-bot";
     c_body := "Icons with diff: (again)" |}.

(** An environment that overrides part of a configuration file. *)
Definition example_environ : gmap string string :=
  {["GITHUB_USER" := "plain-bot"; "ICONBOT_GITHUB_USER" := "icon-bot";
    "GITHUB_SECRET" := "a"; "ICONBOT_IGNORELIST" := "dependabot, Alice"]}.

Definition example_config_file : json :=
  JObj [("webhook_port", JNum 8080);
        ("github", JObj [("secret", JStr "from-file"); ("user", JStr "file-bot");
                         ("auth", JStr "token")]);
        ("upload_api", JObj [("url", JStr "https://img.example/upload");
                             ("key", JStr "key")]);
        ("ignore", JArr [JStr "somebody"])].

(** The GitHub API of the sample pull request, beside the sample host. *)
Definition example_pr_url : string := "https://api.github.com/repos/o/r/pulls/7".

Definition api_remote (url : string) : Response :=
  if String.eqb url example_pr_url
  then {| status_code := 200;
          text := Json.text ("{'number': 7, "
                             +:+ "'issue_url': 'https://api.github.com/repos/o/r/issues/7', "
                             +:+ "'diff_url': 'https://github.com/o/r/pull/7.diff', "
                             +:+ "'head': {'ref': 'patch', 'repo': "
                             +:+ "{'html_url': 'https://github.com/fork/r', "
                             +:+ "'full_name': 'fork/r'}}, "
                             +:+ "'base': {'ref': 'master', 'repo': "
                             +:+ "{'html_url': 'https://github.com/o/r', "
                             +:+ "'full_name': 'o/r'}}}");
          content := [] |}
  else example_remote url.

Definition api_env : Env :=
  {| config := example_config; DEBUG := false; remote := api_remote;
     writable := in_scratch;
     compare_two_icon_files := fun _ _ _ => example_dict;
     upload_reply := example_host;
     json_loads := Json.loads |}.

(** The pull request as the API gives it to [test_pr], without the
    [full_name] of the base repository. *)
Definition nameless_remote (url : string) : Response :=
  if String.eqb url example_pr_url
  then {| status_code := 200;
          text := Json.text ("{'number': 7, "
                             +:+ "'issue_url': 'https://api.github.com/repos/o/r/issues/7', "
                             +:+ "'diff_url': 'https://github.com/o/r/pull/7.diff', "
                             +:+ "'head': {'ref': 'patch', 'repo': "
                             +:+ "{'html_url': 'https://github.com/fork/r'}}, "
                             +:+ "'base': {'ref': 'master', 'repo': "
                             +:+ "{'html_url': 'https://github.com/o/r'}}}");
          content := [] |}
  else example_remote url.

Definition nameless_env : Env :=
  {| config := example_config; DEBUG := false; remote := nameless_remote;
     writable := in_scratch;
     compare_two_icon_files := fun _ _ _ => example_dict;
     upload_reply := example_host;
     json_loads := Json.loads |}.

(** The sample deployment under [DEBUG]. *)
Definition debug_env : Env :=
  {| config := example_config; DEBUG := true; remote := example_remote;
     writable := in_scratch;
     compare_two_icon_files := fun _ _ _ => example_dict;
     upload_reply := example_host;
     json_loads := Json.loads |}.

(** ** Vocabulary of the properties

    The notions the properties are stated with: classes of characters and
    of events, the comments of the bot on an issue, the invariant of the upload
    cache, the scratch paths of an icon and the rows of a block. *)

(** *** Characters and occurrences *)

(** Every character of [s] satisfies [P]. *)
Fixpoint all_chars (P : ascii -> bool) (s : string) : bool :=
  match s with
  | EmptyString => true
  | String c t => P c && all_chars P t
  end.

(** A lowercase hexadecimal digit. *)
Definition is_hex_char (c : ascii) : bool :=
  let n := nat_of_ascii c in
  (((48 <=? n) && (n <=? 57)) || ((97 <=? n) && (n <=? 102)))%nat.

(** The character [x] occurs in [s]. *)
Definition has_char (x : ascii) (s : string) : bool :=
  negb (all_chars (fun c => negb (Ascii.eqb c x)) s).

(** [occurs l s]: the literal [l] occurs somewhere in [s]. *)
Fixpoint occurs (l s : string) : bool :=
  match strip_prefix l s with
  | Some _ => true
  | None =>
      match s with
      | EmptyString => false
      | String _ t => occurs l t
      end
  end.

(** The part of [binary_regex] after the starred run. *)
Definition dmi_tail : list atom := [Lit ".dmi"; GroupClose; Lit " b/"; Opt Dot].

(** A line of a diff that is the header of a path, or has no match. *)
Definition marked (line : string) (mark : option string) : Prop :=
  match mark with
  | Some icon =>
      exists q rest : string,
        icon = q +:+ ".dmi" /\ has_char " " rest = false
        /\ line = "diff --git a/" +:+ icon +:+ " b/" +:+ rest
  | None => search binary_regex line = None
  end.

(** *** Invariants and classes of events *)

(** [preserves I m]: the computation [m] keeps the invariant [I]. *)
Definition preserves {A} (I : World -> Prop) (m : M A) : Prop :=
  forall w, I w -> I (snd (m w)).

(** The messages logged. *)
Definition is_log (e : Event) : bool :=
  match e with Log _ => true | _ => false end.

(** The calls of the comment API. *)
Definition is_api (e : Event) : bool :=
  match e with
  | ListComments _ | PostComment _ _ | PatchComment _ _ => true
  | _ => false
  end.

(** The calls that write a comment. *)
Definition is_write (e : Event) : bool :=
  match e with
  | PostComment _ _ | PatchComment _ _ => true
  | _ => false
  end.

(** An upload of the hash. *)
Definition is_upload_of (img_hash : string) (e : Event) : bool :=
  match e with
  | Upload h _ => String.eqb h img_hash
  | _ => false
  end.

(** How many times the upload capability was invoked for a hash. *)
Definition uploads_of (img_hash : string) (evs : list Event) : nat :=
  length (List.filter (is_upload_of img_hash) evs).

(** The invariant of the cache: no hash was uploaded twice, and a hash that
    was uploaded is in the cache. *)
Definition cache_inv (w : World) : Prop :=
  forall h : string,
    (uploads_of h (events w) <= 1)%nat
    /\ ((0 < uploads_of h (events w))%nat -> is_Some (db w !! h)).

(** *** The comments of the bot *)

(** A comment of the bot on the issue. *)
Definition is_bot (E : Env) (issue_url : string) (c : Comment) : bool :=
  on_listing (issue_url +:+ "/comments") c && by_user (github_user (config E)) c.

(** The comments of an issue that the bot wrote. *)
Definition bot_comments (E : Env) (issue_url : string) (w : World) : list Comment :=
  List.filter (is_bot E issue_url) (comments w).

(** The outcome of the n-th coming call of the comment API. *)
Definition outcome_at (n : nat) (w : World) : outcome := nth n (net w) Served.

(** What [check_comments] finds: the URL of the first comment of the bot in
    the reply to the listing, when the reply has status 200. *)
Definition listed (E : Env) (url : string) (w : World) : option string :=
  match outcome_at 0 w with
  | Served => c_url <$> List.find (by_user (github_user (config E)))
                                  (List.filter (on_listing url) (comments w))
  | Replied r =>
      if r_status r =? 200
      then c_url <$> List.find (by_user (github_user (config E))) (r_json r)
      else None
  end.

(** The comments after [post_comment]. *)
Definition written (E : Env) (issue_url : string) (message_dict : list string) (w : World)
    : list Comment :=
  let url := issue_url +:+ "/comments" in
  let body := String.concat (String newline "") message_dict in
  match outcome_at 1 w with
  | Replied _ => comments w
  | Served =>
      match listed E url w with
      | Some target => map (patch_body target body) (comments w)
      | None => (comments w ++ [new_comment url body (github_user (config E)) w])%list
      end
  end.

(** The one write that [post_comment] makes. *)
Definition write_event (E : Env) (issue_url : string) (message_dict : list string) (w : World)
    : Event :=
  let url := issue_url +:+ "/comments" in
  let body := String.concat (String newline "") message_dict in
  match listed E url w with
  | Some target => PatchComment target body
  | None => PostComment url body
  end.

(** *** The loop over the icons *)

(** The scratch files of the two sides of an icon. *)
Definition old_path (icon : string) : string :=
  "./icon_dump/old_" +:+ re_sub_group1 name_regex icon +:+ ".dmi".

Definition new_path (icon : string) : string :=
  "./icon_dump/new_" +:+ re_sub_group1 name_regex icon +:+ ".dmi".

(** The base-side path handed to the compare capability, [url_a] being the
    URL of the base side. *)
Definition path_a_of (E : Env) (url_a icon : string) : string :=
  if status_code (remote E url_a) =? 404 then "" else old_path icon.

(** Both sides can be staged: the scratch file of a side whose fetch
    answers 200 can be created. *)
Definition can_stage (E : Env) (url_a url_b icon : string) : Prop :=
  (status_code (remote E url_a) = 200 -> writable E (old_path icon) = true)
  /\ (status_code (remote E url_b) = 200 -> writable E (new_path icon) = true).

(** The scratch files once both sides are staged: a side is written when
    its status is 200 and only then. *)
Definition staged (E : Env) (url_a url_b icon : string) (fs : gmap string (list byte))
    : gmap string (list byte) :=
  let fs_a := if status_code (remote E url_a) =? 200
              then <[old_path icon := content (remote E url_a)]> fs else fs in
  if status_code (remote E url_b) =? 200
  then <[new_path icon := content (remote E url_b)]> fs_a else fs_a.

(** The world once both sides are fetched and staged. *)
Definition fetched (E : Env) (url_a url_b icon : string) (w : World) : World :=
  {| files := staged E url_a url_b icon (files w); db := db w; comments := comments w;
     net := net w; events := events w ++ [Get url_a; Get url_b] |}.

(** The image files of the rows of a block. *)
Definition is_png_path (p : string) : Prop :=
  exists key : string,
    p = "./icon_dump/old_" +:+ key +:+ ".png" \/ p = "./icon_dump/new_" +:+ key +:+ ".png".

(** *** The report and the answers *)

(** An entry that is reported: its status is not [Equal]. *)
Definition non_equal (kv : string * Entry) : bool :=
  negb (String.eqb (status (snd kv)) "Equal").

(** [row] is the row of the entry [kv]: its key, two image cells, its status. *)
Definition row_of (row : string) (kv : string * Entry) : Prop :=
  exists url_a url_b : string,
    row = fst kv +:+ "|" +:+ url_a +:+ "|" +:+ url_b +:+ "|" +:+ status (snd kv).

(** The block of an icon with the given rows. *)
Definition block_of (icon : string) (rows : list string) : string :=
  String.concat (String newline "")
    (["<details><summary>" +:+ icon +:+ "</summary>" +:+ String newline "";
      "Key | Old | New | Status"; "--- | --- | --- | ---"] ++ rows ++ ["</details>"])%list.

(** A run of the loop in which nothing changed: in the world in which the
    loop reaches a path, the compare capability finds no entry other than
    [Equal] on the staged sides of the path.  [body] is the loop body, [url_a]
    and [url_b] give the URLs of the two sides of a path. *)
Fixpoint only_equal (E : Env) (body : string -> MR (option string))
    (url_a url_b : string -> string) (icons : list string) (w : World) : Prop :=
  match icons with
  | [] => True
  | icon :: rest =>
      List.filter non_equal
        (compare_two_icon_files E (staged E (url_a icon) (url_b icon) icon (files w))
           (path_a_of E (url_a icon) icon) (new_path icon)) = []
      /\ only_equal E body url_a url_b rest (snd (body icon w))
  end.

(** The answers of the receiver. *)
Definition answers (r : result (Z * string)) : Prop :=
  r = Ok (401, "Secret does not match.")
  \/ r = Ok (404, "Event not supported")
  \/ r = Ok (200, "Not actionable")
  \/ r = Ok (200, "Ok").

(** *** The image host *)

(** What [req.json()['url']] gives on the reply of the image host to an
    upload of [file] made in the world [w]. *)
Definition host_reply (E : Env) (w : World) (file : list byte) : result string :=
  upload_reply E (upload_api_url (config E)) (upload_api_key (config E))
    (length (List.filter is_upload (events w))) file.

(** Every reply of the image host carries a URL. *)
Definition host_answers (E : Env) : Prop :=
  forall (url key : string) (n : nat) (file : list byte),
    exists link : string, upload_reply E url key n file = Ok link.

(** *** The cells of a row *)

(** The image cell of a key for an image and its hash, given the upload
    cache: the empty placeholder for a missing image, else a link to the URL
    that the cache holds for the hash ([None] when nothing is published). *)
Definition cell_of (d : gmap string string) (send_message : bool) (key : string)
    (img : option (list byte)) (img_hash : string) : string :=
  match img with
  | None => "![]()"
  | Some _ =>
      "![" +:+ key +:+ "]("
      +:+ (if send_message then default "None" (d !! img_hash) else "None") +:+ ")"
  end.

(** The row of an entry, given the upload cache. *)
Definition row_in (d : gmap string string) (send_message : bool) (kv : string * Entry)
    : string :=
  fst kv +:+ "|" +:+ cell_of d send_message (fst kv) (img_a (snd kv)) (img_a_hash (snd kv))
  +:+ "|" +:+ cell_of d send_message (fst kv) (img_b (snd kv)) (img_b_hash (snd kv))
  +:+ "|" +:+ status (snd kv).

(** What identifies a comment, apart from its body. *)
Definition identity (c : Comment) : string * string * string * string :=
  (c_url c, c_html_url c, c_listing c, c_login c).

(** An uppercase ASCII letter. *)
Definition is_upper (c : ascii) : bool :=
  let n := nat_of_ascii c in ((65 <=? n) && (n <=? 90))%nat.

(** *** The configuration *)

(** The secret that the environment gives, if any. *)
Definition environ_secret (environ : gmap string string) : option string :=
  match environ !! "ICONBOT_GITHUB_SECRET" with
  | Some v => Some v
  | None => environ !! "GITHUB_SECRET"
  end.

(** *** Runs that publish nothing *)

(** From [w] to [w'] nothing was published: the upload cache, the comments
    and the coming outcomes of the comment API are the same, and no upload and
    no call of the comment API was added to the trace. *)
Definition nothing_published (w w' : World) : Prop :=
  db w' = db w /\ comments w' = comments w /\ net w' = net w
  /\ List.filter is_upload (events w') = List.filter is_upload (events w)
  /\ List.filter is_api (events w') = List.filter is_api (events w).

(** The world [w] with the events [evs] added to its trace. *)
Definition logged (evs : list Event) (w : World) : World :=
  {| files := files w; db := db w; comments := comments w; net := net w;
     events := events w ++ evs |}.

(** The URL at which [test_pr] looks a pull request up. *)
Definition pull_url (owner repository number : string) : string :=
  "https://api.github.com/repos/" +:+ owner +:+ "/" +:+ repository +:+ "/pulls/" +:+ number.

(** *** The debug log *)

(** The file that holds the block of an icon under [DEBUG]. *)
Definition log_path (icon issue_url : string) : string :=
  "icon_dump/" +:+ re_sub_group1 name_regex icon +:+ "_"
  +:+ re_sub_group1 issue_regex issue_url +:+ ".log".

(** * Properties *)

(** ** Test vectors and sample runs of the model *)

Example sha1_abc :
  Hmac.hex (Sha1.digest (bytes_of "abc")) = "a9993e364706816aba3e25717850c26c9cd0d89d".
Proof. vm_compute. reflexivity. Qed.

Example sha1_empty :
  Hmac.hex (Sha1.digest []) = "da39a3ee5e6b4b0d3255bfef95601890afd80709".
Proof. vm_compute. reflexivity. Qed.

Example hmac_fox :
  Hmac.hexdigest (bytes_of "key") (bytes_of "The quick brown fox jumps over the lazy dog")
  = "de7c9b85b8b78aa6bc8a7a36f70a90701c9db4d9".
Proof. vm_compute. reflexivity. Qed.

Example hmac_empty :
  Hmac.hexdigest [] [] = "fbdb1d1b18aa6c08324b7d64b71fb76370690e1d".
Proof. vm_compute. reflexivity. Qed.

Example sha1_two_blocks :
  Hmac.hex (Sha1.digest (bytes_of "abcdbcdecdefdefgefghfghighijhijkijkljklmklmnlmnomnopnopq"))
  = "84983e441c3bd26ebaae4aa1f95129e5e54670f1".
Proof. vm_compute. reflexivity. Qed.

Example compare_secret_fox :
  compare_secret
    {| webhook_port := 8080; github_secret := bytes_of "key"; github_user := "bot";
       github_auth := "t"; upload_api_url := "u"; upload_api_key := "k"; ignore_list := [] |}
    (Some "sha1=de7c9b85b8b78aa6bc8a7a36f70a90701c9db4d9")
    (bytes_of "The quick brown fox jumps over the lazy dog") = Ok true.
Proof. vm_compute. reflexivity. Qed.

Example search_test_dmi :
  search binary_regex "diff --git a/icons/test.dmi b/icons/test.dmi" = Some "icons/test.dmi".
Proof. reflexivity. Qed.

Example search_unrelated :
  search binary_regex "index 0000000..1111111 100644" = None.
Proof. reflexivity. Qed.

Example name_of_icon :
  re_sub_group1 name_regex "icons/mob/test.dmi" = "test".
Proof. reflexivity. Qed.

Example name_without_directory :
  re_sub_group1 name_regex "test.dmi" = "test.dmi".
Proof. reflexivity. Qed.

Example number_of_issue :
  re_sub_group1 issue_regex "https://api.github.com/repos/o/r/issues/42" = "42".
Proof. reflexivity. Qed.

(** ** Strings *)

Lemma append_nil_l (s : string) : "" +:+ s = s.
Proof. reflexivity. Qed.

Lemma append_cons (c : ascii) (a b : string) : String c a +:+ b = String c (a +:+ b).
Proof. reflexivity. Qed.

Lemma append_nil_r (s : string) : s +:+ "" = s.
Proof. induction s as [|c s IH]; [reflexivity | now rewrite append_cons, IH]. Qed.

Lemma append_assoc (a b c : string) : (a +:+ b) +:+ c = a +:+ (b +:+ c).
Proof. induction a as [|x a IH]; [reflexivity | now rewrite !append_cons, IH]. Qed.

Lemma append_length (a b : string) :
  String.length (a +:+ b) = (String.length a + String.length b)%nat.
Proof. induction a as [|x a IH]; [reflexivity | rewrite append_cons; simpl; now rewrite IH]. Qed.

Lemma append_inv_nil (a b : string) : a +:+ b = a -> b = "".
Proof.
  intros H. apply (f_equal String.length) in H. rewrite append_length in H.
  destruct b; [reflexivity | simpl in H; lia].
Qed.

Lemma all_chars_app (P : ascii -> bool) (a b : string) :
  all_chars P (a +:+ b) = all_chars P a && all_chars P b.
Proof.
  induction a as [|c a IH]; [reflexivity |].
  rewrite append_cons. simpl. now rewrite IH, andb_assoc.
Qed.

Lemma all_chars_impl (P Q : ascii -> bool) (s : string) :
  (forall c, P c = true -> Q c = true) -> all_chars P s = true -> all_chars Q s = true.
Proof.
  intros HPQ. induction s as [|c s IH]; simpl; [reflexivity |].
  intros [Hc Hs]%andb_true_iff. now rewrite (HPQ c Hc), IH.
Qed.

Lemma is_ascii_str_all (s : string) : is_ascii_str s = all_chars is_ascii_char s.
Proof. induction s as [|c s IH]; simpl; [reflexivity | now rewrite IH]. Qed.

(** ** The hexadecimal digest *)

Lemma hex_high_digit (b : byte) : is_hex_char (Hmac.hex_digit (Sha1.byte_Z b / 16)) = true.
Proof. destruct b; reflexivity. Qed.

Lemma hex_low_digit (b : byte) : is_hex_char (Hmac.hex_digit (Sha1.byte_Z b mod 16)) = true.
Proof. destruct b; reflexivity. Qed.

Lemma hex_all_hex (bs : list byte) : all_chars is_hex_char (Hmac.hex bs) = true.
Proof.
  induction bs as [|b bs IH]; simpl; [reflexivity |].
  now rewrite hex_high_digit, hex_low_digit, IH.
Qed.

Lemma hex_char_ascii (c : ascii) : is_hex_char c = true -> is_ascii_char c = true.
Proof.
  unfold is_hex_char, is_ascii_char. intros H.
  apply Nat.ltb_lt. apply orb_true_iff in H as [H|H];
    apply andb_true_iff in H as [_ H]; apply Nat.leb_le in H; lia.
Qed.

Lemma hexdigest_ascii (key msg : list byte) : is_ascii_str (Hmac.hexdigest key msg) = true.
Proof.
  rewrite is_ascii_str_all. apply all_chars_impl with (P := is_hex_char).
  - exact hex_char_ascii.
  - apply hex_all_hex.
Qed.

(** ** [str.replace] of the algorithm prefix *)

Lemma prefix_cons (a b : ascii) (s t : string) :
  String.prefix (String a s) (String b t)
  = if ascii_dec a b then String.prefix s t else false.
Proof. reflexivity. Qed.

Lemma prefix_sha1_hex (c : ascii) (t : string) :
  is_hex_char c = true -> String.prefix "sha1=" (String c t) = false.
Proof.
  intros H. rewrite prefix_cons.
  destruct (ascii_dec "s" c) as [<-|]; [discriminate H | reflexivity].
Qed.

(** Hexadecimal text holds no occurrence of the prefix, and none starts in it. *)
Lemma replace_hex_app (h t : string) :
  all_chars is_hex_char h = true ->
  replace_from "sha1=" "" 0 (h +:+ t) = h +:+ replace_from "sha1=" "" 0 t.
Proof.
  induction h as [|c h IH]; intros Hh; [reflexivity |].
  simpl in Hh. apply andb_true_iff in Hh as [Hc Hh].
  rewrite !append_cons. cbn [replace_from]. rewrite (prefix_sha1_hex c (h +:+ t) Hc).
  now rewrite (IH Hh).
Qed.

Lemma prefix_nil (s : string) : String.prefix "" s = true.
Proof. destruct s; reflexivity. Qed.

Lemma prefix_app (l s : string) : String.prefix l (l +:+ s) = true.
Proof.
  induction l as [|c l IH]; [apply prefix_nil |].
  rewrite append_cons, prefix_cons. destruct (ascii_dec c c); [exact IH | congruence].
Qed.

Lemma replace_from_skip (old new u s : string) :
  replace_from old new (String.length u) (u +:+ s) = replace_from old new 0 s.
Proof. induction u as [|c u IH]; [reflexivity | rewrite append_cons; exact IH]. Qed.

Lemma replace_prefixed (s : string) :
  str_replace "sha1=" "" ("sha1=" +:+ s) = str_replace "sha1=" "" s.
Proof.
  unfold str_replace.
  change ("sha1=" +:+ s) with (String "s" ("ha1=" +:+ s)).
  cbn [replace_from]. change (String "s" ("ha1=" +:+ s)) with ("sha1=" +:+ s).
  rewrite prefix_app, append_nil_l.
  exact (replace_from_skip "sha1=" "" "ha1=" s).
Qed.

Lemma replace_from_all_chars (P : ascii -> bool) (old : string) (k : nat) (s : string) :
  all_chars P s = true -> all_chars P (replace_from old "" k s) = true.
Proof.
  revert k. induction s as [|c s IH]; intros k Hs; [reflexivity |].
  simpl in Hs. apply andb_true_iff in Hs as [Hc Hs].
  cbn [replace_from]. destruct k as [|k]; [| now apply IH].
  destruct (String.prefix old (String c s)).
  - rewrite append_nil_l. now apply IH.
  - simpl. now rewrite Hc, IH.
Qed.

Lemma str_replace_sha1_ascii (s : string) :
  is_ascii_str s = true -> is_ascii_str (str_replace "sha1=" "" s) = true.
Proof.
  rewrite !is_ascii_str_all. apply replace_from_all_chars.
Qed.

(** ** Signature verification *)

(** What [compare_secret] answers on a presented header: once the header is
    stripped of every [sha1=], whether it equals the digest. *)
Lemma compare_secret_some (config : Config) (header : string) (payload : list byte) :
  is_ascii_str (str_replace "sha1=" "" header) = true ->
  compare_secret config (Some header) payload
  = Ok (String.eqb (str_replace "sha1=" "" header)
                   (Hmac.hexdigest (github_secret config) payload)).
Proof.
  intros Hascii. unfold compare_secret, compare_digest.
  now rewrite Hascii, hexdigest_ascii.
Qed.

Lemma strip_signature (key payload : list byte) (junk : string) :
  str_replace "sha1=" "" ("sha1=" +:+ Hmac.hexdigest key payload +:+ junk)
  = Hmac.hexdigest key payload +:+ str_replace "sha1=" "" junk.
Proof.
  rewrite replace_prefixed. unfold str_replace at 1.
  rewrite replace_hex_app by apply hex_all_hex. reflexivity.
Qed.

(** C1 (as amended).  For every payload and secret, [compare_secret] answers
    true on the header made of the prefix [sha1=] and the hexadecimal
    HMAC-SHA1 of the payload under the configured secret; on an ASCII header
    it answers true exactly when the header without its [sha1=] occurrences is
    that digest, so it answers false when ASCII text that does not vanish with
    its [sha1=] occurrences (such as [corrupted]) is appended to the digest; it
    answers false on the signature made with another secret whenever that
    secret gives another digest; and it answers false when the header is
    absent. *)
Theorem compare_secret_verifies (config : Config) (payload : list byte) :
  compare_secret config
    (Some ("sha1=" +:+ Hmac.hexdigest (github_secret config) payload)) payload = Ok true
  /\ (forall header : string,
        is_ascii_str header = true ->
        (compare_secret config (Some header) payload = Ok true
         <-> str_replace "sha1=" "" header = Hmac.hexdigest (github_secret config) payload)
        /\ (compare_secret config (Some header) payload = Ok false
            <-> str_replace "sha1=" "" header <> Hmac.hexdigest (github_secret config) payload))
  /\ (forall junk : string,
        is_ascii_str junk = true -> str_replace "sha1=" "" junk <> "" ->
        compare_secret config
          (Some ("sha1=" +:+ Hmac.hexdigest (github_secret config) payload +:+ junk)) payload
        = Ok false)
  /\ compare_secret config
       (Some ("sha1=" +:+ Hmac.hexdigest (github_secret config) payload +:+ "corrupted")) payload
     = Ok false
  /\ (forall wrong : list byte,
        Hmac.hexdigest wrong payload <> Hmac.hexdigest (github_secret config) payload ->
        compare_secret config (Some ("sha1=" +:+ Hmac.hexdigest wrong payload)) payload
        = Ok false)
  /\ compare_secret config None payload = Ok false.
Proof.
  assert (Hjunk : forall junk : string,
    is_ascii_str junk = true -> str_replace "sha1=" "" junk <> "" ->
    compare_secret config
      (Some ("sha1=" +:+ Hmac.hexdigest (github_secret config) payload +:+ junk)) payload
    = Ok false).
  { intros junk Hascii Hleft.
    rewrite compare_secret_some; rewrite strip_signature.
    - f_equal. apply String.eqb_neq. intros Heq. apply Hleft.
      now apply append_inv_nil in Heq.
    - rewrite is_ascii_str_all, all_chars_app, <- !is_ascii_str_all.
      now rewrite hexdigest_ascii, str_replace_sha1_ascii. }
  split; [| split; [| split; [| split; [| split]]]].
  - rewrite <- (append_nil_r (Hmac.hexdigest _ _)) at 1.
    rewrite compare_secret_some; rewrite strip_signature.
    + change (str_replace "sha1=" "" "") with "". rewrite append_nil_r.
      now rewrite String.eqb_refl.
    + change (str_replace "sha1=" "" "") with "". rewrite append_nil_r.
      apply hexdigest_ascii.
  - intros header Hascii.
    rewrite compare_secret_some by now apply str_replace_sha1_ascii.
    destruct (String.eqb_spec (str_replace "sha1=" "" header)
                (Hmac.hexdigest (github_secret config) payload)) as [Heq | Hne].
    + split; split; intros H; try reflexivity; try exact Heq; [discriminate H | now destruct H].
    + split; split; intros H; try reflexivity; try exact Hne; [discriminate H | now destruct Hne].
  - exact Hjunk.
  - apply Hjunk; [reflexivity | discriminate].
  - intros wrong Hdiff.
    rewrite <- (append_nil_r (Hmac.hexdigest wrong _)).
    rewrite compare_secret_some; rewrite strip_signature;
      change (str_replace "sha1=" "" "") with ""; rewrite append_nil_r.
    + f_equal. now apply String.eqb_neq.
    + apply hexdigest_ascii.
  - reflexivity.
Qed.

Lemma compare_secret_verifies_witness :
  compare_secret example_config
    (Some ("sha1=" +:+ Hmac.hexdigest (bytes_of "b") (bytes_of "{}"))) (bytes_of "{}")
  = Ok false.
Proof.
  apply (proj1 (proj2 (proj2 (proj2 (proj2
           (compare_secret_verifies example_config (bytes_of "{}"))))))).
  vm_compute. discriminate.
Defined.

(** C1 as stated fails: HMAC pads a short key with zero bytes, so the secret
    [a] followed by a zero byte is another secret that signs like [a]. *)
Lemma compare_secret_accepts_padded_secret :
  (bytes_of "a" ++ [x00])%list <> github_secret example_config
  /\ compare_secret example_config
       (Some ("sha1=" +:+ Hmac.hexdigest (bytes_of "a" ++ [x00]) (bytes_of "{}")))
       (bytes_of "{}")
     = Ok true.
Proof. split; [discriminate | vm_compute; reflexivity]. Qed.

Example hmac_long_key :
  Hmac.hexdigest (repeat xaa 80)
    (bytes_of "Test Using Larger Than Block-Size Key - Hash Key First")
  = "aa4ae5e15272d00e95705637ce8a3b55ed402112".
Proof. vm_compute. reflexivity. Qed.

(** ** The matcher *)

Lemma strip_prefix_app (l s : string) : strip_prefix l (l +:+ s) = Some s.
Proof.
  induction l as [|c l IH]; [reflexivity |].
  rewrite append_cons. simpl. now rewrite Ascii.eqb_refl.
Qed.

Lemma strip_prefix_Some (l s s' : string) : strip_prefix l s = Some s' -> s = l +:+ s'.
Proof.
  revert s. induction l as [|c l IH]; intros s H.
  - simpl in H. now inversion H.
  - destruct s as [|d s]; [discriminate H |]. simpl in H.
    destruct (Ascii.eqb c d) eqn:Hcd; [| discriminate H].
    apply Ascii.eqb_eq in Hcd as ->. rewrite append_cons. f_equal. now apply IH.
Qed.

Lemma strip_prefix_missing_char (x : ascii) (l s : string) :
  has_char x l = true -> has_char x s = false -> strip_prefix l s = None.
Proof.
  unfold has_char. revert s. induction l as [|c l IH]; intros s Hl Hs; [discriminate Hl |].
  destruct s as [|d s]; [reflexivity |]. simpl.
  destruct (Ascii.eqb c d) eqn:Hcd; [| reflexivity].
  apply Ascii.eqb_eq in Hcd as ->.
  simpl in Hl, Hs. destruct (Ascii.eqb d x); simpl in *; [discriminate Hs |].
  now apply IH.
Qed.

Lemma occurs_missing_char (x : ascii) (l s : string) :
  has_char x l = true -> has_char x s = false -> occurs l s = false.
Proof.
  intros Hl. induction s as [|d s IH]; intros Hs.
  - simpl. now rewrite (strip_prefix_missing_char x l "" Hl Hs).
  - cbn [occurs]. rewrite (strip_prefix_missing_char x l _ Hl Hs).
    apply IH. unfold has_char in *. simpl in Hs.
    destruct (Ascii.eqb d x); simpl in *; [discriminate Hs | exact Hs].
Qed.

Section Star.
Variable cls : charclass.
Variable k : bool -> string -> string -> option (string * string).

Lemma capture_app (open : bool) (g a b : string) :
  capture open (capture open g a) b = capture open g (a +:+ b).
Proof. destruct open; simpl; [apply append_assoc | reflexivity]. Qed.

(** When the run can go on after [q], it does: the starred class is greedy. *)
Lemma star_extend (q s : string) (open : bool) (g : string) (r : string * string) :
  all_chars (in_class cls) q = true ->
  star cls k open (capture open g q) s = Some r ->
  star cls k open g (q +:+ s) = Some r.
Proof.
  revert g. induction q as [|c q IH]; intros g Hq Hs.
  - destruct open; simpl in Hs; [rewrite append_nil_r in Hs |]; exact Hs.
  - simpl in Hq. apply andb_true_iff in Hq as [Hc Hq].
    rewrite append_cons. cbn [star]. rewrite Hc.
    rewrite (IH (capture open g (String c "")) Hq); [reflexivity |].
    now rewrite capture_app.
Qed.

(** A match of the starred class splits the input at the end of the run. *)
Lemma star_Some (s : string) (open : bool) (g : string) (r : string * string) :
  star cls k open g s = Some r ->
  exists u v, s = u +:+ v /\ k open (capture open g u) v = Some r.
Proof.
  revert g. induction s as [|c s IH]; intros g H.
  - exists "", "". split; [reflexivity |]. simpl in H.
    destruct open; simpl; [now rewrite append_nil_r | exact H].
  - assert (Hstop : k open g (String c s) = Some r ->
                    exists u v, String c s = u +:+ v /\ k open (capture open g u) v = Some r).
    { intros Hk. exists "", (String c s). split; [reflexivity |].
      destruct open; simpl; [now rewrite append_nil_r | exact Hk]. }
    cbn [star] in H. destruct (in_class cls c); [| now apply Hstop].
    destruct (star cls k open (capture open g (String c "")) s) as [r'|] eqn:Hrun;
      [| now apply Hstop].
    inversion H; subst r'. apply IH in Hrun as (u & v & -> & Hk).
    exists (String c u), v. split; [reflexivity |]. now rewrite capture_app in Hk.
Qed.

(** No match where the literal that must follow the run does not occur. *)
Lemma star_no_occurrence (l s : string) (open : bool) (g : string) :
  (forall o g' v, strip_prefix l v = None -> k o g' v = None) ->
  occurs l s = false ->
  star cls k open g s = None.
Proof.
  intros Hk. revert g. induction s as [|c s IH]; intros g Hocc.
  - simpl in *. apply Hk. now destruct (strip_prefix l "").
  - cbn [occurs] in Hocc. destruct (strip_prefix l (String c s)) eqn:Hhere; [discriminate |].
    cbn [star]. rewrite (IH _ Hocc). rewrite (Hk _ _ _ Hhere). now destruct (in_class cls c).
Qed.
End Star.

Lemma search_Some (p : list atom) (line g : string) :
  search p line = Some g ->
  exists pre s rest, line = pre +:+ s /\ match_at p false "" s = Some (g, rest).
Proof.
  induction line as [|c line IH]; cbn [search];
    destruct (match_at p false "" _) as [[g' rest]|] eqn:Hm; intros H; try discriminate H.
  - inversion H; subst g'. now exists "", "", rest.
  - inversion H; subst g'. now exists "", (String c line), rest.
  - apply IH in H as (pre & s & rest & -> & H). now exists (String c pre), s, rest.
Qed.

Lemma dmi_tail_Some (open : bool) (g v : string) (r : string * string) :
  match_at dmi_tail open g v = Some r ->
  exists rest, v = ".dmi b/" +:+ rest /\ fst r = capture open g ".dmi".
Proof.
  unfold dmi_tail. cbn [match_at].
  destruct (strip_prefix ".dmi" v) as [v1|] eqn:H1; [| discriminate].
  destruct (strip_prefix " b/" v1) as [v2|] eqn:H2; [| discriminate].
  apply strip_prefix_Some in H1 as ->. apply strip_prefix_Some in H2 as ->.
  intros H. exists v2. split; [reflexivity |].
  destruct v2 as [|c v2]; [now inversion H |].
  destruct (in_class Dot c); now inversion H.
Qed.

Lemma dmi_tail_here (open : bool) (g rest : string) :
  exists left, match_at dmi_tail open g (".dmi b/" +:+ rest) = Some (capture open g ".dmi", left).
Proof.
  unfold dmi_tail. cbn [match_at].
  change (".dmi b/" +:+ rest) with (".dmi" +:+ " b/" +:+ rest).
  rewrite !strip_prefix_app.
  destruct rest as [|c rest]; [now exists "" |].
  destruct (in_class Dot c); [now exists rest | now exists (String c rest)].
Qed.

Lemma dmi_tail_None (open : bool) (g v : string) :
  strip_prefix ".dmi b/" v = None -> match_at dmi_tail open g v = None.
Proof.
  intros H. destruct (match_at dmi_tail open g v) as [r|] eqn:Hm; [| reflexivity].
  apply dmi_tail_Some in Hm as (rest & -> & _). now rewrite strip_prefix_app in H.
Qed.

Lemma occurs_after_dot (rest : string) :
  has_char " " rest = false -> occurs ".dmi b/" ("dmi b/" +:+ rest) = false.
Proof.
  intros H.
  change ("dmi b/" +:+ rest)
    with (String "d" (String "m" (String "i" (String " " (String "b" (String "/" rest)))))).
  cbn. now apply (occurs_missing_char " ").
Qed.

(** What [binary_regex] captures is a path that ends in [.dmi] and stands in
    the line between [diff --git a/] and [ b/]. *)
Lemma search_binary_Some (line icon : string) :
  search binary_regex line = Some icon ->
  exists pre q post,
    icon = q +:+ ".dmi" /\ line = pre +:+ "diff --git a/" +:+ icon +:+ " b/" +:+ post.
Proof.
  intros H. apply search_Some in H as (pre & s & left & -> & H).
  unfold binary_regex in H. cbn [match_at] in H.
  destruct (strip_prefix "diff --git a/" s) as [s1|] eqn:Hs; [| discriminate H].
  apply strip_prefix_Some in Hs as ->.
  apply star_Some in H as (u & v & -> & H).
  apply dmi_tail_Some in H as (post & -> & Hg). simpl in Hg. subst icon.
  exists pre, u, post. split; [reflexivity |].
  change (".dmi b/" +:+ post) with (".dmi" +:+ " b/" +:+ post).
  now rewrite (append_assoc u ".dmi").
Qed.

(** On the header line that git writes for a path ending in [.dmi], the
    capture is the path of the [a/] side. *)
Lemma search_binary_header (q rest : string) :
  all_chars (in_class Dot) q = true -> has_char " " rest = false ->
  search binary_regex ("diff --git a/" +:+ q +:+ ".dmi b/" +:+ rest) = Some (q +:+ ".dmi").
Proof.
  intros Hq Hrest.
  destruct (dmi_tail_here true (capture true "" q) rest) as [left Hhere].
  assert (Hm : match_at binary_regex false "" ("diff --git a/" +:+ q +:+ ".dmi b/" +:+ rest)
               = Some (q +:+ ".dmi", left)).
  { unfold binary_regex. cbn [match_at]. rewrite strip_prefix_app.
    apply star_extend; [exact Hq |].
    change (".dmi b/" +:+ rest) with (String "." ("dmi b/" +:+ rest)).
    cbn [star]. change (in_class Dot ".") with true. cbn iota.
    rewrite (star_no_occurrence Dot (match_at dmi_tail) ".dmi b/");
      [| intros; now apply dmi_tail_None | now apply occurs_after_dot].
    exact Hhere. }
  destruct ("diff --git a/" +:+ q +:+ ".dmi b/" +:+ rest); cbn [search]; now rewrite Hm.
Qed.

Lemma icons_of_lines_omap (diff : list string) :
  icons_of_lines diff = omap (search binary_regex) diff.
Proof.
  induction diff as [|line diff IH]; [reflexivity |].
  cbn [icons_of_lines omap list_omap]. rewrite IH.
  now destruct (search binary_regex line).
Qed.

Lemma icons_of_lines_none (diff : list string) :
  Forall (fun line => search binary_regex line = None) diff -> icons_of_lines diff = [].
Proof.
  induction 1 as [|line diff Hline _ IH]; [reflexivity |].
  cbn [icons_of_lines]. now rewrite Hline.
Qed.

Lemma split_lines_single (s : string) :
  all_chars (in_class Dot) s = true -> split_lines s = [s].
Proof.
  induction s as [|c s IH]; [reflexivity |]. simpl.
  intros [Hc Hs]%andb_true_iff. rewrite (IH Hs).
  unfold in_class in Hc. now destruct (is_newline c).
Qed.

Lemma check_diff_fst (E : Env) (diff_url : string) (w : World) :
  fst (check_diff E diff_url w)
  = if status_code (remote E diff_url) =? 404 then None
    else Some (icons_of_lines (split_lines (text (remote E diff_url)))).
Proof.
  unfold check_diff, requests_get, bind, emit, ret. cbn.
  now destruct (status_code (remote E diff_url) =? 404).
Qed.

(** ** Diff extraction *)

Lemma split_lines_not_nil (s : string) : split_lines s <> [].
Proof.
  induction s as [|c s IH]; [discriminate |]. cbn [split_lines].
  destruct (is_newline c); [discriminate |]. now destruct (split_lines s).
Qed.

Lemma split_lines_app (a b : string) :
  split_lines (a +:+ String newline b) = (split_lines a ++ split_lines b)%list.
Proof.
  induction a as [|c a IH]; [reflexivity |].
  rewrite append_cons. cbn [split_lines]. rewrite IH.
  destruct (is_newline c); [reflexivity |].
  pose proof (split_lines_not_nil a) as Ha.
  now destruct (split_lines a).
Qed.

Lemma icons_of_lines_app (l1 l2 : list string) :
  icons_of_lines (l1 ++ l2) = (icons_of_lines l1 ++ icons_of_lines l2)%list.
Proof.
  induction l1 as [|line l1 IH]; [reflexivity |].
  cbn [app icons_of_lines]. rewrite IH. now destruct (search binary_regex line).
Qed.

Lemma concat_cons (sep x y : string) (l : list string) :
  String.concat sep (x :: y :: l) = x +:+ sep +:+ String.concat sep (y :: l).
Proof. reflexivity. Qed.

(** The lines of a text are the strings that its newlines separate:
    splitting what was joined gives the lines back. *)
Lemma split_lines_join (lines : list string) :
  lines <> [] ->
  Forall (fun line => all_chars (in_class Dot) line = true) lines ->
  split_lines (String.concat (String newline "") lines) = lines.
Proof.
  intros Hne Hlines. induction Hlines as [|line rest Hline Hrest IH]; [now destruct Hne |].
  destruct rest as [|next rest]; [now apply split_lines_single |].
  rewrite concat_cons.
  change (line +:+ String newline "" +:+ String.concat (String newline "") (next :: rest))
    with (line +:+ String newline (String.concat (String newline "") (next :: rest))).
  rewrite split_lines_app, (split_lines_single line Hline), IH by discriminate. reflexivity.
Qed.

Lemma omap_marked (lines : list string) (marks : list (option string)) :
  Forall (fun line => all_chars (in_class Dot) line = true) lines ->
  Forall2 marked lines marks ->
  omap (search binary_regex) lines = omap id marks.
Proof.
  intros Hlines Hmarks. induction Hmarks as [|line mark lines marks Hmark _ IH];
    [reflexivity |].
  inversion Hlines as [|? ? Hline Hrest]; subst.
  cbn [omap list_omap]. rewrite (IH Hrest).
  destruct mark as [icon|]; cbn [marked id] in *; [| now rewrite Hmark].
  destruct Hmark as (q & rest & -> & Hrest' & ->).
  assert (Hq : all_chars (in_class Dot) q = true).
  { change ("diff --git a/" +:+ (q +:+ ".dmi") +:+ " b/" +:+ rest)
      with ("diff --git a/" +:+ ((q +:+ ".dmi") +:+ " b/" +:+ rest)) in Hline.
    rewrite !all_chars_app in Hline.
    now apply andb_true_iff in Hline as [_ [[Hq _]%andb_true_iff _]%andb_true_iff]. }
  rewrite (append_assoc q ".dmi").
  change (".dmi" +:+ " b/" +:+ rest) with (".dmi b/" +:+ rest).
  now rewrite (search_binary_header q rest Hq Hrest').
Qed.

(** C4.  On diff text that was retrieved, [check_diff] returns a list
    whatever the lines are.  The list holds the captures of [binary_regex] on
    the lines of the text that match, in the order of the lines and with
    repeats kept, the lines being the strings that the newlines of the text
    separate; each capture is a path ending in [.dmi] that stands in its line
    between [diff --git a/] and [ b/]; when every line is the header that git
    writes for a path or has no match, the list is made of the paths of the
    headers, one per header; the line
    [diff --git a/icons/test.dmi b/icons/test.dmi] alone gives
    [icons/test.dmi] alone; and text without a matching line gives the empty
    list. *)
Theorem check_diff_extracts (E : Env) (diff_url : string) (w : World) :
  status_code (remote E diff_url) <> 404 ->
  exists icons : list string,
    fst (check_diff E diff_url w) = Some icons
    /\ forall lines : list string,
         lines <> [] ->
         Forall (fun line => all_chars (in_class Dot) line = true) lines ->
         text (remote E diff_url) = String.concat (String newline "") lines ->
         icons = omap (search binary_regex) lines
         /\ (forall icon : string, icon ∈ icons ->
               exists line pre q post,
                 line ∈ lines
                 /\ icon = q +:+ ".dmi"
                 /\ line = pre +:+ "diff --git a/" +:+ icon +:+ " b/" +:+ post)
         /\ (forall marks : list (option string),
               Forall2 marked lines marks -> icons = omap id marks)
         /\ (lines = ["diff --git a/icons/test.dmi b/icons/test.dmi"] ->
             icons = ["icons/test.dmi"])
         /\ (Forall (fun line => search binary_regex line = None) lines -> icons = []).
Proof.
  intros Hstatus. eexists. split.
  { rewrite check_diff_fst. apply Z.eqb_neq in Hstatus. now rewrite Hstatus. }
  intros lines Hne Hlines Htext.
  rewrite Htext, (split_lines_join lines Hne Hlines), icons_of_lines_omap.
  split; [reflexivity |]. split; [| split; [| split]].
  - intros icon Hin.
    apply list_elem_of_omap in Hin as (line & Hline & Hsearch).
    apply search_binary_Some in Hsearch as (pre & q & post & Hq & Heq).
    now exists line, pre, q, post.
  - intros marks Hmarks. now apply omap_marked.
  - now intros ->.
  - intros Hnone. rewrite <- icons_of_lines_omap. now apply icons_of_lines_none.
Qed.

Lemma check_diff_extracts_witness :
  fst (check_diff repeated_env example_diff_url empty_world) = Some ["b.dmi"; "a.dmi"; "b.dmi"].
Proof.
  destruct (check_diff_extracts repeated_env example_diff_url empty_world)
    as (icons & Hfst & Hlines); [vm_compute; discriminate |].
  destruct (Hlines repeated_lines) as (_ & _ & Hmarks & _);
    [discriminate | repeat constructor | reflexivity |].
  rewrite Hfst, (Hmarks [Some "b.dmi"; None; Some "a.dmi"; Some "b.dmi"]); [reflexivity |].
  repeat constructor; try (now exists "b", "b.dmi"); now exists "a", "a.dmi".
Defined.

Example two_headers_in_order :
  icons_of_lines (split_lines ("diff --git a/b.dmi b/b.dmi" +:+ String newline ""
                               +:+ "index 1..2" +:+ String newline ""
                               +:+ "diff --git a/a.dmi b/a.dmi" +:+ String newline ""
                               +:+ "diff --git a/b.dmi b/b.dmi"))
  = ["b.dmi"; "a.dmi"; "b.dmi"].
Proof. reflexivity. Qed.

(** C9.  [check_diff] answers the unavailable sentinel exactly when the GET
    of the diff answers 404; under any other status, server errors included,
    the text of the reply is scanned like a diff. *)
Theorem check_diff_none_iff_404 (E : Env) (diff_url : string) (w : World) :
  (fst (check_diff E diff_url w) = None <-> status_code (remote E diff_url) = 404)
  /\ (status_code (remote E diff_url) <> 404 ->
      fst (check_diff E diff_url w)
      = Some (icons_of_lines (split_lines (text (remote E diff_url)))))
  /\ (status_code (remote E diff_url) = 500 ->
      fst (check_diff E diff_url w)
      = Some (icons_of_lines (split_lines (text (remote E diff_url))))).
Proof.
  rewrite check_diff_fst.
  destruct (status_code (remote E diff_url) =? 404) eqn:H404.
  - apply Z.eqb_eq in H404. rewrite H404.
    split; [tauto | split; [congruence | discriminate]].
  - apply Z.eqb_neq in H404. split; [| tauto]. split; [discriminate | tauto].
Qed.

Lemma check_diff_none_iff_404_witness :
  fst (check_diff failing_env example_diff_url empty_world) = Some ["icons/ghost.dmi"].
Proof.
  rewrite (proj2 (proj2 (check_diff_none_iff_404 failing_env example_diff_url empty_world)));
    reflexivity.
Defined.

(** ** Running the pipeline *)

Lemma bind_run {A B} (m : M A) (k : A -> M B) (w : World) :
  bind m k w = k (fst (m w)) (snd (m w)).
Proof. unfold bind. now destruct (m w). Qed.

Lemma bindR_run {A B} (m : MR A) (k : A -> MR B) (w : World) :
  bindR m k w = match fst (m w) with
                | Ok a => k a (snd (m w))
                | Raise e => (Raise e, snd (m w))
                end.
Proof. unfold bindR. rewrite bind_run. now destruct (fst (m w)). Qed.

Lemma bindR_ok {A B} (a : A) (k : A -> MR B) (w : World) :
  bindR (liftR (Ok a)) k w = k a w.
Proof. reflexivity. Qed.

Lemma bindR_raise {A B} (e : exn) (k : A -> MR B) (w : World) :
  bindR (liftR (Raise e)) k w = (Raise e, w).
Proof. reflexivity. Qed.

Lemma emit_run (e : Event) (w : World) :
  emit e w = (tt, {| files := files w; db := db w; comments := comments w; net := net w;
                     events := events w ++ [e] |}).
Proof. reflexivity. Qed.

Lemma write_file_run (E : Env) (path : string) (data : list byte) (w : World) :
  write_file E path data w
  = if writable E path then (Ok tt, set_files (<[path := data]> (files w)) w)
    else (Raise (OSError path), w).
Proof. reflexivity. Qed.

(** ** Invariants of the world

    The section derives [preserves I] for the pipeline from what the
    invariant allows: any change of the scratch files, the events in
    [allowed], and the publishing of an image.  An invariant that is kept is
    kept whether the pipeline returns or raises. *)
Section Frame.
Variable I : World -> Prop.
Variable allowed : Event -> Prop.
Hypothesis I_files : forall w f, I w -> I (set_files f w).
Hypothesis I_emit : forall w e, allowed e -> I w -> I (snd (emit e w)).

Lemma preserves_ret {A} (a : A) : preserves I (ret a).
Proof. intros w H. exact H. Qed.

Lemma preserves_bind {A B} (m : M A) (k : A -> M B) :
  preserves I m -> (forall a, preserves I (k a)) -> preserves I (bind m k).
Proof. intros Hm Hk w H. rewrite bind_run. now apply Hk, Hm. Qed.

Lemma preserves_bindR {A B} (m : MR A) (k : A -> MR B) :
  preserves I m -> (forall a, preserves I (k a)) -> preserves I (bindR m k).
Proof.
  intros Hm Hk. apply preserves_bind; [exact Hm |].
  intros [a|e]; [apply Hk | apply preserves_ret].
Qed.

Lemma preserves_liftR {A} (r : result A) : preserves I (liftR r).
Proof. apply preserves_ret. Qed.

Lemma preserves_emit (e : Event) : allowed e -> preserves I (emit e).
Proof. intros He w H. now apply I_emit. Qed.

Lemma preserves_write_file (E : Env) (path : string) (data : list byte) :
  preserves I (write_file E path data).
Proof.
  intros w H. rewrite write_file_run. destruct (writable E path); [now apply I_files | exact H].
Qed.

Lemma preserves_read_file (path : string) : preserves I (read_file path).
Proof. intros w H. exact H. Qed.

Lemma preserves_os_path_exists (path : string) : preserves I (os_path_exists path).
Proof. intros w H. exact H. Qed.

Lemma preserves_os_remove (path : string) : preserves I (os_remove path).
Proof.
  intros w H. unfold os_remove. destruct (lookup_file w path); [now apply I_files | exact H].
Qed.

Lemma preserves_remove_if_exists (path : string) : preserves I (remove_if_exists path).
Proof.
  apply preserves_bind; [apply preserves_os_path_exists |].
  intros [|]; [| apply preserves_ret].
  apply preserves_bind; [apply preserves_os_remove | intros; apply preserves_ret].
Qed.

Lemma preserves_requests_get (E : Env) (url : string) :
  allowed (Get url) -> preserves I (requests_get E url).
Proof.
  intros Hget. apply preserves_bind; [now apply preserves_emit | intros; apply preserves_ret].
Qed.

Lemma preserves_compare_icons (E : Env) (a b : string) :
  allowed (Compare a b) -> preserves I (compare_icons E a b).
Proof.
  intros Hcmp. apply preserves_bind; [now apply preserves_emit |].
  intros _ w H. exact H.
Qed.

Lemma preserves_for_each {A B} (body : A -> MR (option B)) (l : list A) :
  (forall x, x ∈ l -> preserves I (body x)) -> preserves I (for_each body l).
Proof.
  induction l as [|x l IH]; intros Hbody; [apply preserves_ret |].
  cbn [for_each]. apply preserves_bindR; [apply Hbody; left |].
  intros o. apply preserves_bindR; [apply IH; intros y Hy; apply Hbody; now right |].
  intros; apply preserves_ret.
Qed.

(** The comment API: the invariant allows any change of the comments
    and of the coming outcomes, and the events of the API. *)
Section Api.
Hypothesis I_comments : forall w c, I w -> I (set_comments c w).
Hypothesis I_net : forall w n, I w -> I (set_net n w).
Hypothesis allowed_log : forall msg, allowed (Log msg).
Hypothesis allowed_list : forall url, allowed (ListComments url).
Hypothesis allowed_post : forall url body, allowed (PostComment url body).
Hypothesis allowed_patch : forall url body, allowed (PatchComment url body).

Lemma I_next_outcome (w : World) : I w -> I (snd (next_outcome w)).
Proof.
  intros H. unfold next_outcome. destruct (net w); [exact H | now apply I_net].
Qed.

Lemma preserves_api_get (url : string) : preserves I (api_get url).
Proof.
  apply preserves_bind; [apply preserves_emit, allowed_list | intros _ w H].
  pose proof (I_next_outcome w H) as H'.
  destruct (next_outcome w) as [[|r] w']; exact H'.
Qed.

Lemma preserves_api_post (url body : string) (auth : string * string) :
  preserves I (api_post url body auth).
Proof.
  apply preserves_bind; [apply preserves_emit, allowed_post | intros _ w H].
  pose proof (I_next_outcome w H) as H'.
  destruct (next_outcome w) as [[|r] w']; [now apply I_comments | exact H'].
Qed.

Lemma preserves_api_patch (url body : string) (auth : string * string) :
  preserves I (api_patch url body auth).
Proof.
  apply preserves_bind; [apply preserves_emit, allowed_patch | intros _ w H].
  pose proof (I_next_outcome w H) as H'.
  destruct (next_outcome w) as [[|r] w']; [| exact H'].
  destruct (List.find _ _); [now apply I_comments | exact H'].
Qed.

Lemma preserves_check_comments (E : Env) (api_url : string) :
  preserves I (check_comments E api_url).
Proof.
  apply preserves_bind; [apply preserves_api_get | intros req].
  destruct (r_status req =? 200); apply preserves_ret.
Qed.

Lemma preserves_post_comment (E : Env) (issue_url : string) (message_dict : list string)
    (base : json) :
  preserves I (post_comment E issue_url message_dict base).
Proof.
  unfold post_comment.
  apply preserves_bindR; [apply preserves_liftR | intros full_name].
  apply preserves_bind; [apply preserves_check_comments | intros comment_id].
  apply preserves_bind.
  { destruct comment_id as [url|]; [| apply preserves_api_post].
    apply preserves_bind; [apply preserves_emit, allowed_log | intros _].
    apply preserves_api_patch. }
  intros req. apply preserves_bind; [| intros; apply preserves_ret].
  destruct ((r_status req =? 201) || (r_status req =? 200)).
  - apply preserves_emit, allowed_log.
  - apply preserves_bind; [apply preserves_emit, allowed_log | intros _].
    apply preserves_emit, allowed_log.
Qed.
End Api.

(** The loop over the icons, for one value of [send_message]: the
    invariant is kept by the publishing of an image under this value, and by
    [post_comment] when the value is true. *)
Section Icons.
Variable E : Env.
Variable send : bool.
Hypothesis I_upload : forall file img_hash, preserves I (upload_image E file img_hash send).
Hypothesis allowed_get : forall url, allowed (Get url).
Hypothesis allowed_compare : forall a b, allowed (Compare a b).
Hypothesis I_post : send = true ->
  forall issue_url message_dict base, preserves I (post_comment E issue_url message_dict base).

Lemma preserves_image_cell (key path : string) (img : option (list byte))
    (img_hash : string) :
  preserves I (image_cell E send key path img img_hash).
Proof.
  destruct img as [png|]; [| apply preserves_ret]. cbn [image_cell].
  apply preserves_bindR; [apply preserves_write_file | intros _].
  apply preserves_bind; [apply preserves_read_file | intros f].
  apply preserves_bindR; [apply I_upload | intros url].
  apply preserves_bind; [| intros; apply preserves_ret].
  destruct (DEBUG E); [apply preserves_ret | apply preserves_os_remove].
Qed.

Lemma preserves_rows_of (this_dict : list (string * Entry)) :
  preserves I (rows_of E send this_dict).
Proof.
  induction this_dict as [|[key e] rest IH]; [apply preserves_ret |].
  cbn [rows_of]. destruct (String.eqb (status e) "Equal"); [exact IH |].
  apply preserves_bindR; [apply preserves_image_cell | intros url_a].
  apply preserves_bindR; [apply preserves_image_cell | intros url_b].
  apply preserves_bindR; [exact IH | intros; apply preserves_ret].
Qed.

Lemma preserves_render_block (issue_url icon i_name a b : string)
    (this_dict : list (string * Entry)) :
  preserves I (render_block E issue_url icon i_name a b send this_dict).
Proof.
  destruct this_dict as [|entry this_dict]; [apply preserves_ret |].
  apply preserves_bindR; [apply preserves_rows_of | intros rows].
  apply preserves_bindR; [| intros; apply preserves_ret].
  destruct (DEBUG E); [apply preserves_write_file |].
  apply preserves_bind; [apply preserves_remove_if_exists | intros _].
  apply preserves_bind; [apply preserves_remove_if_exists | intros; apply preserves_ret].
Qed.

Lemma preserves_compare_and_render (issue_url icon i_name a b : string) :
  preserves I (compare_and_render E issue_url icon i_name a b send).
Proof.
  apply preserves_bind; [apply preserves_compare_icons, allowed_compare |].
  intros this_dict. apply preserves_render_block.
Qed.

Lemma preserves_check_icon (base_repo_url head_repo_url base head : json)
    (issue_url icon : string) :
  preserves I (check_icon E base_repo_url head_repo_url base head issue_url send icon).
Proof.
  unfold check_icon.
  apply preserves_bindR; [apply preserves_liftR | intros base_ref].
  apply preserves_bind; [apply preserves_requests_get, allowed_get | intros response_a].
  apply preserves_bindR; [apply preserves_liftR | intros head_ref].
  apply preserves_bind; [apply preserves_requests_get, allowed_get | intros response_b].
  apply preserves_bindR.
  { destruct (status_code response_a =? 200).
    - apply preserves_bindR; [apply preserves_write_file | intros; apply preserves_ret].
    - destruct (status_code response_a =? 404); apply preserves_ret. }
  intros icon_path_a.
  destruct (status_code response_b =? 200).
  - apply preserves_bindR; [apply preserves_write_file | intros _].
    apply preserves_compare_and_render.
  - destruct (status_code response_b =? 404).
    + apply preserves_bind; [apply preserves_os_remove | intros; apply preserves_ret].
    + apply preserves_compare_and_render.
Qed.

Lemma preserves_icons_loop (base_repo_url head_repo_url base head : json)
    (issue_url : string) (icons_with_diff : list string) :
  preserves I (for_each (check_icon E base_repo_url head_repo_url base head issue_url send)
                 icons_with_diff).
Proof. apply preserves_for_each. intros; apply preserves_check_icon. Qed.

Lemma preserves_check_icons (icons_with_diff : list string) (base head : json)
    (issue_url : string) :
  preserves I (check_icons E icons_with_diff base head issue_url send).
Proof.
  unfold check_icons.
  apply preserves_bindR; [apply preserves_liftR | intros base_repo_url].
  apply preserves_bindR; [apply preserves_liftR | intros head_repo_url].
  apply preserves_bindR; [apply preserves_icons_loop | intros blocks].
  cbv beta zeta. destruct send; cbn [andb]; [| apply preserves_ret].
  destruct (1 <? length ("Icons with diff:" :: blocks))%nat;
    [now apply I_post | apply preserves_ret].
Qed.
End Icons.
End Frame.

(** ** Image publishing *)

Lemma upload_image_off (E : Env) (file : list byte) (img_hash : string) (w : World) :
  upload_image E file img_hash false w = (Ok None, w).
Proof. reflexivity. Qed.

Lemma upload_image_hit (E : Env) (file : list byte) (img_hash url : string) (w : World) :
  db w !! img_hash = Some url -> upload_image E file img_hash true w = (Ok (Some url), w).
Proof.
  intros Hdb. unfold upload_image. cbn [negb]. rewrite bind_run.
  unfold get_url. cbn [fst snd]. now rewrite Hdb.
Qed.

(** On a hash that is not in the cache, the upload is made, and the reply
    of the host decides: its URL is stored and returned, or the exception of a
    reply without URL is raised and nothing is stored. *)
Lemma upload_image_miss (E : Env) (file : list byte) (img_hash : string) (w : World) :
  db w !! img_hash = None ->
  upload_image E file img_hash true w
  = match host_reply E w file with
    | Ok url =>
        (Ok (Some url),
         {| files := files w; db := <[img_hash := url]> (db w); comments := comments w;
            net := net w; events := events w ++ [Upload img_hash file] |})
    | Raise e => (Raise e, snd (emit (Upload img_hash file) w))
    end.
Proof.
  intros Hdb. unfold upload_image. cbn [negb]. rewrite bind_run.
  unfold get_url. cbn [fst snd]. rewrite Hdb, bindR_run.
  unfold requests_post_image, host_reply. cbn [fst snd].
  now destruct (upload_reply E _ _ _ file).
Qed.

Lemma uploads_of_app (h : string) (a b : list Event) :
  uploads_of h (a ++ b) = (uploads_of h a + uploads_of h b)%nat.
Proof. unfold uploads_of. now rewrite List.filter_app, length_app. Qed.

Lemma uploads_of_other (h : string) (evs : list Event) (e : Event) :
  is_upload_of h e = false -> uploads_of h (evs ++ [e]) = uploads_of h evs.
Proof.
  intros He. rewrite uploads_of_app. unfold uploads_of at 2. cbn [List.filter].
  rewrite He. cbn [length]. apply Nat.add_0_r.
Qed.

Lemma upload_image_db_stable (E : Env) (file : list byte) (img_hash : string) (upload : bool)
    (h url : string) (w : World) :
  db w !! h = Some url -> db (snd (upload_image E file img_hash upload w)) !! h = Some url.
Proof.
  intros Hh. destruct upload; [| exact Hh].
  destruct (db w !! img_hash) as [u|] eqn:Hdb.
  - now rewrite (upload_image_hit E file img_hash u w Hdb).
  - rewrite (upload_image_miss E file img_hash w Hdb).
    destruct (host_reply E w file); cbn [snd db]; [| exact Hh].
    rewrite lookup_insert_ne; [exact Hh | congruence].
Qed.

(** A hash that is in the cache is not uploaded again. *)
Lemma upload_image_keeps_cached (E : Env) (file : list byte) (img_hash : string)
    (upload : bool) (h url : string) (n : nat) (w : World) :
  db w !! h = Some url /\ uploads_of h (events w) = n ->
  db (snd (upload_image E file img_hash upload w)) !! h = Some url
  /\ uploads_of h (events (snd (upload_image E file img_hash upload w))) = n.
Proof.
  intros [Hh Hn]. split; [now apply upload_image_db_stable |].
  destruct upload; [| exact Hn].
  destruct (db w !! img_hash) as [u|] eqn:Hdb.
  - now rewrite (upload_image_hit E file img_hash u w Hdb).
  - assert (Hother : is_upload_of h (Upload img_hash file) = false).
    { apply String.eqb_neq. congruence. }
    rewrite (upload_image_miss E file img_hash w Hdb).
    destruct (host_reply E w file); cbn [snd events emit]; now rewrite uploads_of_other.
Qed.

Lemma keeps_cached_emit (h url : string) (n : nat) (w : World) (e : Event) :
  is_upload e = false ->
  db w !! h = Some url /\ uploads_of h (events w) = n ->
  db (snd (emit e w)) !! h = Some url /\ uploads_of h (events (snd (emit e w))) = n.
Proof.
  intros He [Hh Hn]. rewrite emit_run. cbn [snd db events]. split; [exact Hh |].
  rewrite uploads_of_other; [exact Hn | now destruct e].
Qed.

(** Whatever the host replies, a run of the pipeline keeps the entries of
    the cache and uploads none of their hashes. *)
Lemma check_icons_keeps_cached (E : Env) (icons_with_diff : list string) (base head : json)
    (issue_url : string) (send : bool) (h url : string) (w : World) :
  db w !! h = Some url ->
  db (snd (check_icons E icons_with_diff base head issue_url send w)) !! h = Some url
  /\ uploads_of h (events (snd (check_icons E icons_with_diff base head issue_url send w)))
     = uploads_of h (events w).
Proof.
  intros Hh.
  apply (preserves_check_icons
           (fun w' => db w' !! h = Some url /\ uploads_of h (events w') = uploads_of h (events w))
           (fun e => is_upload e = false)); try reflexivity; try (intros; assumption).
  - intros w' e. apply keeps_cached_emit.
  - intros file img_hash w'. apply upload_image_keeps_cached.
  - intros _ issue message_dict base'.
    apply (preserves_post_comment _ (fun e => is_upload e = false)); try reflexivity;
      try (intros; assumption).
    intros w' e. apply keeps_cached_emit.
  - now split.
Qed.

Lemma upload_image_cache_inv (E : Env) (file : list byte) (img_hash : string) (upload : bool)
    (w : World) :
  host_answers E ->
  cache_inv w -> cache_inv (snd (upload_image E file img_hash upload w)).
Proof.
  intros Hhost Hinv. destruct upload; [| exact Hinv].
  destruct (db w !! img_hash) as [url|] eqn:Hdb.
  - now rewrite (upload_image_hit E file img_hash url w Hdb).
  - rewrite (upload_image_miss E file img_hash w Hdb).
    destruct (Hhost (upload_api_url (config E)) (upload_api_key (config E))
                (length (List.filter is_upload (events w))) file) as [link Hlink].
    unfold host_reply. rewrite Hlink. cbn [snd].
    intros h. unfold cache_inv in Hinv. cbn [events db]. rewrite uploads_of_app.
    destruct (Hinv h) as [Hle Hsome].
    destruct (String.eqb img_hash h) eqn:Heq.
    + apply String.eqb_eq in Heq as <-.
      assert (uploads_of img_hash (events w) = 0%nat) as ->.
      { destruct (uploads_of img_hash (events w)) eqn:Hn; [reflexivity |].
        destruct Hsome as [u Hu]; [lia | congruence]. }
      unfold uploads_of at 1 2. cbn [List.filter is_upload_of]. rewrite String.eqb_refl.
      split; [simpl; lia |]. intros _. rewrite lookup_insert_eq. eauto.
    + unfold uploads_of at 2 4. cbn [List.filter is_upload_of]. rewrite Heq.
      cbn [length]. rewrite Nat.add_0_r. split; [exact Hle |].
      intros Hpos. rewrite lookup_insert_ne; [now apply Hsome |].
      intros ->. now rewrite String.eqb_refl in Heq.
Qed.

Lemma cache_inv_emit (w : World) (e : Event) :
  is_upload e = false -> cache_inv w -> cache_inv (snd (emit e w)).
Proof.
  intros He Hinv h. rewrite emit_run. cbn [snd events db]. rewrite uploads_of_app.
  assert (uploads_of h [e] = 0%nat) as ->; [now destruct e | rewrite Nat.add_0_r; apply Hinv].
Qed.

(** With a host whose replies carry a URL, a run of the whole pipeline
    keeps the invariant of the cache. *)
Lemma check_icons_cache_inv (E : Env) (icons_with_diff : list string) (base head : json)
    (issue_url : string) (send : bool) (w : World) :
  host_answers E ->
  cache_inv w -> cache_inv (snd (check_icons E icons_with_diff base head issue_url send w)).
Proof.
  intros Hhost.
  apply (preserves_check_icons cache_inv (fun e => is_upload e = false));
    try reflexivity; try (intros; assumption).
  - exact cache_inv_emit.
  - intros file img_hash w'. now apply upload_image_cache_inv.
  - intros _ issue message_dict base'.
    apply (preserves_post_comment _ (fun e => is_upload e = false)); try reflexivity;
      try (intros; assumption).
    exact cache_inv_emit.
Qed.

Lemma cache_inv_fresh (w : World) :
  List.filter is_upload (events w) = [] -> cache_inv w.
Proof.
  intros Hnone h.
  assert (uploads_of h (events w) = 0%nat) as ->; [| split; lia].
  unfold uploads_of. induction (events w) as [|e evs IH]; [reflexivity |].
  cbn [List.filter] in *. destruct e; cbn [is_upload is_upload_of] in *;
    try (now apply IH). discriminate Hnone.
Qed.

(** C3 (as amended).  [upload_image] (with [upload] at its default, true) on
    a hash of the cache returns the cached URL and leaves the world as it is
    (no upload call); with [upload] false it returns [None] and calls nothing;
    on a hash that is not in the cache it makes exactly one upload call, and
    when the reply of the host carries a URL it stores this URL under the hash
    and returns it, while a reply without URL raises and stores nothing; once
    an image got its URL, another image of the same hash gets the same URL
    without any upload call; a hash that is in the cache is not uploaded
    again, by a later call or by a run of [check_icons], whatever the host
    replies; and with a host whose every reply carries a URL no hash is
    uploaded twice in the life of the cache: the invariant [cache_inv] holds of
    a fresh trace and is kept by every call and by every run of
    [check_icons]. *)
Theorem upload_image_once (E : Env) (file : list byte) (img_hash : string) (w : World) :
  (forall url : string,
     db w !! img_hash = Some url -> upload_image E file img_hash true w = (Ok (Some url), w))
  /\ upload_image E file img_hash false w = (Ok None, w)
  /\ (db w !! img_hash = None ->
      events (snd (upload_image E file img_hash true w))
      = (events w ++ [Upload img_hash file])%list
      /\ (forall url : string,
            host_reply E w file = Ok url ->
            fst (upload_image E file img_hash true w) = Ok (Some url)
            /\ db (snd (upload_image E file img_hash true w)) = <[img_hash := url]> (db w))
      /\ (forall e : exn,
            host_reply E w file = Raise e ->
            fst (upload_image E file img_hash true w) = Raise e
            /\ db (snd (upload_image E file img_hash true w)) = db w))
  /\ (forall (file' : list byte) (url : string),
        fst (upload_image E file img_hash true w) = Ok (Some url) ->
        upload_image E file' img_hash true (snd (upload_image E file img_hash true w))
        = (Ok (Some url), snd (upload_image E file img_hash true w))
        /\ (length (List.filter is_upload (events (snd (upload_image E file img_hash true w))))
            <= 1 + length (List.filter is_upload (events w)))%nat)
  /\ (forall h url : string,
        db w !! h = Some url ->
        (forall (upload : bool),
           db (snd (upload_image E file img_hash upload w)) !! h = Some url
           /\ uploads_of h (events (snd (upload_image E file img_hash upload w)))
              = uploads_of h (events w))
        /\ (forall icons_with_diff base head issue_url send,
              db (snd (check_icons E icons_with_diff base head issue_url send w)) !! h
              = Some url
              /\ uploads_of h
                   (events (snd (check_icons E icons_with_diff base head issue_url send w)))
                 = uploads_of h (events w)))
  /\ (List.filter is_upload (events w) = [] -> cache_inv w)
  /\ (host_answers E ->
      cache_inv w ->
      (forall upload : bool, cache_inv (snd (upload_image E file img_hash upload w)))
      /\ (forall icons_with_diff base head issue_url send,
            cache_inv (snd (check_icons E icons_with_diff base head issue_url send w)))
      /\ (forall h : string, (uploads_of h (events w) <= 1)%nat)).
Proof.
  split; [intros url; apply upload_image_hit |].
  split; [apply upload_image_off |].
  split.
  { intros Hdb. rewrite (upload_image_miss E file img_hash w Hdb).
    split; [now destruct (host_reply E w file) |].
    split; [intros url -> | intros e ->]; now split. }
  split.
  { intros file' url Hfirst. destruct (db w !! img_hash) as [u|] eqn:Hdb.
    - rewrite (upload_image_hit E file img_hash u w Hdb) in *. cbn [fst snd] in *.
      inversion Hfirst; subst u. split; [now apply upload_image_hit | lia].
    - rewrite (upload_image_miss E file img_hash w Hdb) in *.
      destruct (host_reply E w file) as [link|e]; [| discriminate Hfirst].
      cbn [fst snd] in *. inversion Hfirst; subst link. split.
      + apply upload_image_hit. cbn [db]. apply lookup_insert_eq.
      + cbn [events]. rewrite List.filter_app, length_app. simpl. lia. }
  split.
  { intros h url Hh. split.
    - intros upload. now apply upload_image_keeps_cached.
    - intros. now apply check_icons_keeps_cached. }
  split; [apply cache_inv_fresh |].
  intros Hhost Hinv.
  split; [intros upload; now apply upload_image_cache_inv |].
  split; [intros; now apply check_icons_cache_inv |].
  intros h. apply Hinv.
Qed.

Lemma upload_image_once_witness :
  cache_inv (snd (check_icons example_env ["icons/test.dmi"; "icons/test.dmi"]
                              example_base example_head example_issue true empty_world)).
Proof.
  destruct (upload_image_once example_env [] "h1" empty_world)
    as (_ & _ & _ & _ & _ & Hfresh & Hlife).
  destruct Hlife as (_ & Hrun & _).
  - intros url key n file. now eexists.
  - apply Hfresh. reflexivity.
  - apply Hrun.
Defined.

(** C3 as stated fails: the first reply of the host carries no URL, the
    call raises after the upload and stores nothing, and the next call uploads
    the same hash again. *)
Lemma upload_repeated_after_mute_reply :
  fst (upload_image mute_env (bytes_of "png1") "h1" true empty_world) = Raise (KeyError "url")
  /\ db (snd (upload_image mute_env (bytes_of "png1") "h1" true empty_world)) !! "h1" = None
  /\ uploads_of "h1"
       (events (snd (upload_image mute_env (bytes_of "png1") "h1" true
                       (snd (upload_image mute_env (bytes_of "png1") "h1" true empty_world)))))
     = 2%nat.
Proof. split; [| split]; vm_compute; reflexivity. Qed.

Example sample_run_uploads :
  List.filter is_upload
    (events (snd (check_icons example_env ["icons/test.dmi"; "icons/test.dmi"]
                              example_base example_head example_issue true empty_world)))
  = [Upload "h1" (bytes_of "png1"); Upload "h2" (bytes_of "png2")].
Proof. vm_compute. reflexivity. Qed.

(** ** The bot comment *)

Lemma check_comments_fst (E : Env) (url : string) (w : World) :
  fst (check_comments E url w) = listed E url w.
Proof.
  unfold check_comments, api_get, listed, outcome_at. rewrite !bind_run.
  cbn [emit fst snd]. unfold next_outcome. cbn [net].
  destruct (net w) as [|[|r] rest]; cbn; try reflexivity.
  destruct (r_status r =? 200); reflexivity.
Qed.

Lemma map_patch_missing (url body : string) (cs : list Comment) :
  List.find (fun c => String.eqb (c_url c) url) cs = None ->
  map (patch_body url body) cs = cs.
Proof.
  induction cs as [|c cs IH]; [reflexivity |]. cbn [List.find map]. unfold patch_body at 1.
  destruct (String.eqb (c_url c) url); [discriminate |]. intros H. now rewrite IH.
Qed.

Lemma api_get_snd (url : string) (w : World) :
  snd (api_get url w)
  = {| files := files w; db := db w; comments := comments w; net := tl (net w);
       events := events w ++ [ListComments url] |}.
Proof.
  unfold api_get. rewrite bind_run. cbn [emit fst snd]. unfold next_outcome. cbn [net].
  destruct (net w) as [|[|r] rest]; reflexivity.
Qed.

Lemma api_post_snd (url body : string) (auth : string * string) (w : World) :
  snd (api_post url body auth w)
  = {| files := files w; db := db w;
       comments := match outcome_at 0 w with
                   | Served => comments w ++ [new_comment url body (fst auth) w]
                   | Replied _ => comments w
                   end;
       net := tl (net w);
       events := events w ++ [PostComment url body] |}.
Proof.
  unfold api_post, outcome_at. rewrite bind_run. cbn [emit fst snd]. unfold next_outcome.
  cbn [net]. destruct (net w) as [|[|r] rest]; reflexivity.
Qed.

Lemma api_patch_snd (url body : string) (auth : string * string) (w : World) :
  snd (api_patch url body auth w)
  = {| files := files w; db := db w;
       comments := match outcome_at 0 w with
                   | Served => map (patch_body url body) (comments w)
                   | Replied _ => comments w
                   end;
       net := tl (net w);
       events := events w ++ [PatchComment url body] |}.
Proof.
  unfold api_patch, outcome_at. rewrite bind_run. cbn [emit fst snd]. unfold next_outcome.
  cbn [net comments].
  destruct (net w) as [|[|r] rest]; cbn [nth set_net comments]; try reflexivity;
    (destruct (List.find (fun c => String.eqb (c_url c) url) (comments w)) eqn:Hfind;
     cbn [snd set_comments set_net];
     [reflexivity | now rewrite (map_patch_missing _ _ _ Hfind)]).
Qed.

Lemma check_comments_snd (E : Env) (url : string) (w : World) :
  snd (check_comments E url w)
  = {| files := files w; db := db w; comments := comments w; net := tl (net w);
       events := events w ++ [ListComments url] |}.
Proof.
  unfold check_comments. rewrite bind_run, api_get_snd.
  now destruct (r_status _ =? 200).
Qed.

Lemma filter_write_log (evs : list Event) (msg : string) :
  List.filter is_write (evs ++ [Log msg]) = List.filter is_write evs.
Proof. rewrite List.filter_app. apply app_nil_r. Qed.

Lemma log_message_snd (msg : string) (w : World) :
  snd (log_message msg w)
  = {| files := files w; db := db w; comments := comments w; net := net w;
       events := events w ++ [Log msg] |}.
Proof. reflexivity. Qed.

(** The messages logged after the write change neither the comments nor
    the coming outcomes, and write nothing. *)
Lemma log_tail (b : bool) (m1 m2 m3 : string) (w : World) :
  comments (snd ((if b then log_message m1 else (log_message m2 ;;; log_message m3)) w))
  = comments w
  /\ net (snd ((if b then log_message m1 else (log_message m2 ;;; log_message m3)) w)) = net w
  /\ List.filter is_write
       (events (snd ((if b then log_message m1 else (log_message m2 ;;; log_message m3)) w)))
     = List.filter is_write (events w).
Proof.
  destruct b; [| rewrite bind_run]; rewrite ?log_message_snd; cbn [comments net events];
    now rewrite ?filter_write_log.
Qed.

Lemma nth_tail (l : list outcome) : nth 0 (tl l) Served = nth 1 l Served.
Proof. now destruct l as [|o [|o' l]]. Qed.

(** Without [repo.full_name] in [base], [post_comment] raises before any
    call. *)
Lemma post_comment_raises (E : Env) (issue_url : string) (message_dict : list string)
    (base : json) (e : exn) (w : World) :
  repo_full_name base = Raise e ->
  post_comment E issue_url message_dict base w = (Raise e, w).
Proof. intros H. unfold post_comment. now rewrite H, bindR_raise. Qed.

Lemma post_comment_fst (E : Env) (issue_url : string) (message_dict : list string)
    (base name : json) (w : World) :
  repo_full_name base = Ok name ->
  fst (post_comment E issue_url message_dict base w) = Ok tt.
Proof. intros H. unfold post_comment. rewrite H, bindR_ok, !bind_run. reflexivity. Qed.

Lemma post_comment_run (E : Env) (issue_url : string) (message_dict : list string)
    (base name : json) (w : World) :
  repo_full_name base = Ok name ->
  comments (snd (post_comment E issue_url message_dict base w))
  = written E issue_url message_dict w
  /\ net (snd (post_comment E issue_url message_dict base w)) = tl (tl (net w))
  /\ List.filter is_write (events (snd (post_comment E issue_url message_dict base w)))
     = (List.filter is_write (events w) ++ [write_event E issue_url message_dict w])%list.
Proof.
  intros Hname. unfold post_comment, written, write_event. rewrite Hname, bindR_ok, bind_run.
  rewrite check_comments_fst.
  destruct (listed E (issue_url +:+ "/comments") w) as [target|]; rewrite !bind_run;
    cbn [ret snd];
    match goal with
    | |- context [snd ((if ?b then log_message ?m1
                        else bind (log_message ?m2) (fun _ => log_message ?m3)) ?W)] =>
        destruct (log_tail b m1 m2 m3 W) as (-> & -> & ->)
    end;
    rewrite ?api_patch_snd, ?api_post_snd, ?log_message_snd, ?check_comments_snd;
    unfold outcome_at; cbn [comments net events fst]; rewrite nth_tail;
    rewrite !List.filter_app; cbn [List.filter is_write]; rewrite ?app_nil_r;
    (split; [| split]); reflexivity.
Qed.

Lemma bot_comments_filter (E : Env) (issue_url : string) (w : World) :
  bot_comments E issue_url w = List.filter (is_bot E issue_url) (comments w).
Proof. reflexivity. Qed.

Lemma find_filter_head {A} (P Q : A -> bool) (l : list A) :
  List.find P (List.filter Q l) = head (List.filter (fun x => Q x && P x) l).
Proof.
  induction l as [|x l IH]; [reflexivity |]. cbn [List.filter].
  destruct (Q x); cbn [andb List.find]; [| exact IH].
  destruct (P x); [reflexivity | exact IH].
Qed.

(** A served listing finds the first comment of the bot on the issue. *)
Lemma listed_served (E : Env) (issue_url : string) (w : World) :
  outcome_at 0 w = Served ->
  listed E (issue_url +:+ "/comments") w = c_url <$> head (bot_comments E issue_url w).
Proof. intros Hs. unfold listed. rewrite Hs. now rewrite find_filter_head. Qed.

Lemma listed_failed (E : Env) (url : string) (w : World) (r : ApiReply) :
  outcome_at 0 w = Replied r -> r_status r <> 200 -> listed E url w = None.
Proof.
  intros Hr Hs. unfold listed. rewrite Hr. apply Z.eqb_neq in Hs. now rewrite Hs.
Qed.

Lemma is_bot_patch (E : Env) (issue_url url body : string) (c : Comment) :
  is_bot E issue_url (patch_body url body c) = is_bot E issue_url c.
Proof. unfold patch_body. now destruct (String.eqb (c_url c) url). Qed.

Lemma bot_filter_patch (E : Env) (issue_url url body : string) (cs : list Comment) :
  List.filter (is_bot E issue_url) (map (patch_body url body) cs)
  = map (patch_body url body) (List.filter (is_bot E issue_url) cs).
Proof.
  induction cs as [|c cs IH]; [reflexivity |]. cbn [map List.filter].
  rewrite is_bot_patch. destruct (is_bot E issue_url c); cbn [map]; now rewrite IH.
Qed.

Lemma is_bot_new (E : Env) (issue_url body : string) (w : World) :
  is_bot E issue_url
    (new_comment (issue_url +:+ "/comments") body (github_user (config E)) w) = true.
Proof. unfold is_bot, on_listing, by_user. cbn. now rewrite !String.eqb_refl. Qed.

(** The comments of the bot after [post_comment]: patched in place, or one
    more, or as before when the write is not served. *)
Lemma bot_comments_written (E : Env) (issue_url : string) (message_dict : list string)
    (base name : json) (w : World) :
  repo_full_name base = Ok name ->
  bot_comments E issue_url (snd (post_comment E issue_url message_dict base w))
  = match outcome_at 1 w with
    | Replied _ => bot_comments E issue_url w
    | Served =>
        match listed E (issue_url +:+ "/comments") w with
        | Some target =>
            map (patch_body target (String.concat (String newline "") message_dict))
                (bot_comments E issue_url w)
        | None =>
            (bot_comments E issue_url w
             ++ [new_comment (issue_url +:+ "/comments")
                             (String.concat (String newline "") message_dict)
                             (github_user (config E)) w])%list
        end
    end.
Proof.
  intros Hname. rewrite !bot_comments_filter.
  destruct (post_comment_run E issue_url message_dict base name w Hname) as (-> & _ & _).
  unfold written. destruct (outcome_at 1 w); [| reflexivity].
  destruct (listed E (issue_url +:+ "/comments") w) as [target|].
  - apply bot_filter_patch.
  - rewrite List.filter_app. cbn [List.filter]. now rewrite is_bot_new.
Qed.

Lemma outcome_at_after (E : Env) (issue_url : string) (message_dict : list string)
    (base name : json) (w : World) (n : nat) :
  repo_full_name base = Ok name ->
  outcome_at n (snd (post_comment E issue_url message_dict base w)) = outcome_at (2 + n) w.
Proof.
  intros Hname. unfold outcome_at.
  destruct (post_comment_run E issue_url message_dict base name w Hname) as (_ & -> & _).
  destruct (net w) as [|o [|o' l]]; cbn [tl nth Nat.add]; try reflexivity; now destruct n.
Qed.

(** After a call whose listing is served, at most one comment of the bot
    stays at most one. *)
Lemma post_comment_keeps_one (E : Env) (issue_url : string) (message_dict : list string)
    (base name : json) (w : World) :
  repo_full_name base = Ok name ->
  outcome_at 0 w = Served ->
  (length (bot_comments E issue_url w) <= 1)%nat ->
  (length (bot_comments E issue_url (snd (post_comment E issue_url message_dict base w))) <= 1)%nat.
Proof.
  intros Hname Hs Hle.
  rewrite (bot_comments_written _ _ _ _ name) by exact Hname.
  rewrite (listed_served E issue_url w Hs).
  destruct (outcome_at 1 w); [| exact Hle].
  destruct (bot_comments E issue_url w) as [|c cs]; cbn [head fmap option_fmap option_map].
  - simpl. lia.
  - now rewrite length_map.
Qed.

Lemma post_comment_writes (E : Env) (issue_url : string) (message_dict : list string)
    (base name : json) (w : World) :
  repo_full_name base = Ok name ->
  List.filter is_write (events (snd (post_comment E issue_url message_dict base w)))
  = (List.filter is_write (events w) ++ [write_event E issue_url message_dict w])%list.
Proof.
  intros Hname.
  now destruct (post_comment_run E issue_url message_dict base name w Hname) as (_ & _ & ->).
Qed.

(** C2 (as amended).  On an issue with at most one comment of the bot, two
    calls of [post_comment] whose listings are served leave at most one comment
    of the bot.  When there is one, both calls PATCH it and none POSTs; when
    there is none, the first call POSTs and, once that comment is created, the
    second call PATCHes it.  ([base] is the base side of a pull request: it
    holds the name of its repository, which the call reads first.) *)
Theorem post_comment_twice (E : Env) (issue_url : string) (first second : list string)
    (base name : json) (w : World) :
  repo_full_name base = Ok name ->
  (length (bot_comments E issue_url w) <= 1)%nat ->
  outcome_at 0 w = Served ->
  outcome_at 2 w = Served ->
  let w1 := snd (post_comment E issue_url first base w) in
  let w2 := snd (post_comment E issue_url second base w1) in
  (length (bot_comments E issue_url w1) <= 1)%nat
  /\ (length (bot_comments E issue_url w2) <= 1)%nat
  /\ (forall c : Comment,
        bot_comments E issue_url w = [c] ->
        List.filter is_write (events w2)
        = (List.filter is_write (events w)
           ++ [PatchComment (c_url c) (String.concat (String newline "") first);
               PatchComment (c_url c) (String.concat (String newline "") second)])%list)
  /\ (bot_comments E issue_url w = [] ->
      List.filter is_write (events w1)
      = (List.filter is_write (events w)
         ++ [PostComment (issue_url +:+ "/comments") (String.concat (String newline "") first)])%list
      /\ (outcome_at 1 w = Served ->
          exists c : Comment,
            bot_comments E issue_url w1 = [c]
            /\ List.filter is_write (events w2)
               = (List.filter is_write (events w1)
                  ++ [PatchComment (c_url c) (String.concat (String newline "") second)])%list)).
Proof.
  intros Hname Hle H0 H2 w1 w2.
  assert (H0' : outcome_at 0 w1 = Served)
    by (unfold w1; now rewrite (outcome_at_after _ _ _ _ name)).
  assert (Hle1 : (length (bot_comments E issue_url w1) <= 1)%nat)
    by now apply (post_comment_keeps_one _ _ _ _ name).
  assert (Hwrites : forall message w0,
    List.filter is_write (events (snd (post_comment E issue_url message base w0)))
    = (List.filter is_write (events w0) ++ [write_event E issue_url message w0])%list)
    by (intros; now apply (post_comment_writes _ _ _ _ name)).
  assert (Hbot : bot_comments E issue_url w1
                 = match outcome_at 1 w with
                   | Replied _ => bot_comments E issue_url w
                   | Served =>
                       match listed E (issue_url +:+ "/comments") w with
                       | Some target =>
                           map (patch_body target (String.concat (String newline "") first))
                               (bot_comments E issue_url w)
                       | None =>
                           (bot_comments E issue_url w
                            ++ [new_comment (issue_url +:+ "/comments")
                                            (String.concat (String newline "") first)
                                            (github_user (config E)) w])%list
                       end
                   end)
    by (unfold w1; now apply (bot_comments_written _ _ _ _ name)).
  split; [exact Hle1 |]. split; [now apply (post_comment_keeps_one _ _ _ _ name) |].
  split.
  - intros c Hc. unfold w2. rewrite Hwrites. unfold w1 at 1.
    rewrite Hwrites. unfold write_event.
    rewrite (listed_served E issue_url w H0), (listed_served E issue_url w1 H0').
    rewrite Hbot, (listed_served E issue_url w H0), Hc.
    cbn [head fmap option_fmap option_map].
    rewrite <- app_assoc. cbn [app]. do 3 f_equal.
    destruct (outcome_at 1 w); cbn [map head fmap option_fmap option_map]; [| reflexivity].
    unfold patch_body. now destruct (String.eqb (c_url c) (c_url c)).
  - intros Hnone. split.
    + unfold w1. rewrite Hwrites. unfold write_event.
      now rewrite (listed_served E issue_url w H0), Hnone.
    + intros H1. eexists. split.
      * rewrite Hbot, H1, (listed_served E issue_url w H0), Hnone. reflexivity.
      * unfold w2. rewrite Hwrites. unfold write_event.
        rewrite (listed_served E issue_url w1 H0').
        rewrite Hbot, H1, (listed_served E issue_url w H0), Hnone.
        reflexivity.
Qed.

Lemma post_comment_twice_witness :
  (length (bot_comments example_env example_issue
             (snd (post_comment example_env example_issue ["again"] example_base
                     (snd (post_comment example_env example_issue ["once"] example_base
                             empty_world))))) <= 1)%nat.
Proof.
  apply (post_comment_twice example_env example_issue ["once"] ["again"] example_base
           (JStr "o/r") empty_world); [reflexivity | simpl; lia | reflexivity | reflexivity].
Defined.

(** C2 as stated fails: when the listing of the second call is not served,
    the second call posts a second comment of the bot. *)
Lemma post_comment_twice_two_comments :
  bot_comments example_env example_issue
    (set_net [Served; Served; Replied outage] empty_world) = []
  /\ length (bot_comments example_env example_issue
               (snd (post_comment example_env example_issue ["again"] example_base
                       (snd (post_comment example_env example_issue ["once"] example_base
                               (set_net [Served; Served; Replied outage] empty_world))))))
     = 2%nat.
Proof. split; vm_compute; reflexivity. Qed.

(** C10.  When the listing GET answers any status other than 200,
    [check_comments] answers [None] whatever comments exist, [post_comment]
    takes the insert path (its one write is a POST on the listing), and when
    that POST is served the issue has one more comment of the bot: a second
    one when there was one.  ([base] is the base side of a pull request: it
    holds the name of its repository, which [post_comment] reads first.) *)
Theorem failed_listing_inserts (E : Env) (issue_url : string) (message_dict : list string)
    (base name : json) (w : World) (r : ApiReply) :
  repo_full_name base = Ok name ->
  outcome_at 0 w = Replied r ->
  r_status r <> 200 ->
  fst (check_comments E (issue_url +:+ "/comments") w) = None
  /\ List.filter is_write (events (snd (post_comment E issue_url message_dict base w)))
     = (List.filter is_write (events w)
        ++ [PostComment (issue_url +:+ "/comments")
                        (String.concat (String newline "") message_dict)])%list
  /\ (outcome_at 1 w = Served ->
      length (bot_comments E issue_url (snd (post_comment E issue_url message_dict base w)))
      = S (length (bot_comments E issue_url w))).
Proof.
  intros Hname Hr Hs.
  pose proof (listed_failed E (issue_url +:+ "/comments") w r Hr Hs) as Hl.
  split; [now rewrite check_comments_fst |]. split.
  - rewrite (post_comment_writes _ _ _ _ name) by exact Hname.
    unfold write_event. now rewrite Hl.
  - intros H1. rewrite (bot_comments_written _ _ _ _ name) by exact Hname.
    rewrite H1, Hl, length_app. simpl. lia.
Qed.

Lemma failed_listing_inserts_witness :
  length (bot_comments example_env example_issue
            (snd (post_comment example_env example_issue ["Icons with diff:"] example_base
                    (set_net [Replied outage] (set_comments [bot_comment] empty_world)))))
  = 2%nat.
Proof.
  apply (failed_listing_inserts example_env example_issue ["Icons with diff:"] example_base
           (JStr "o/r") (set_net [Replied outage] (set_comments [bot_comment] empty_world))
           outage);
    [reflexivity | reflexivity | discriminate | reflexivity].
Defined.
(** ** The loop over the icons *)

Lemma requests_get_run (E : Env) (url : string) (w : World) :
  requests_get E url w = (remote E url, logged [Get url] w).
Proof. reflexivity. Qed.

Lemma logged_logged (a b : list Event) (w : World) :
  logged b (logged a w) = logged (a ++ b) w.
Proof. unfold logged. cbn [files db comments net events]. now rewrite app_assoc. Qed.

(** Without [ref] in [base], the loop body raises before any fetch;
    without [ref] in [head], after the fetch of the base side. *)
Lemma check_icon_no_ref (E : Env) (base_repo_url head_repo_url base head : json)
    (issue_url : string) (send : bool) (icon : string) (w : World) :
  (forall e : exn,
     getitem base "ref" = Raise e ->
     check_icon E base_repo_url head_repo_url base head issue_url send icon w = (Raise e, w))
  /\ (forall (base_ref : json) (e : exn),
        getitem base "ref" = Ok base_ref -> getitem head "ref" = Raise e ->
        check_icon E base_repo_url head_repo_url base head issue_url send icon w
        = (Raise e, logged [Get (blob_url base_repo_url base_ref icon)] w)).
Proof.
  split.
  - intros e H. unfold check_icon. now rewrite H, bindR_raise.
  - intros base_ref e Ha Hb. unfold check_icon.
    now rewrite Ha, bindR_ok, bind_run, requests_get_run, Hb, bindR_raise.
Qed.

Section Body.
Variable E : Env.
Variables base_repo_url head_repo_url base head base_ref head_ref : json.
Variable issue_url : string.
Variable send : bool.
Variable icon : string.
Variable w : World.
Hypothesis has_base_ref : getitem base "ref" = Ok base_ref.
Hypothesis has_head_ref : getitem head "ref" = Ok head_ref.

Let url_a := blob_url base_repo_url base_ref icon.
Let url_b := blob_url head_repo_url head_ref icon.

(** The scratch copy of the base side cannot be created: the loop body
    raises after the two fetches. *)
Lemma check_icon_base_refused :
  status_code (remote E url_a) = 200 -> writable E (old_path icon) = false ->
  check_icon E base_repo_url head_repo_url base head issue_url send icon w
  = (Raise (OSError (old_path icon)), logged [Get url_a; Get url_b] w).
Proof.
  intros Ha Hw. unfold check_icon.
  rewrite has_base_ref, bindR_ok, bind_run, requests_get_run.
  rewrite has_head_ref, bindR_ok, bind_run, requests_get_run. cbn [fst snd].
  fold url_a url_b (old_path icon) (new_path icon). rewrite Ha. cbn [Z.eqb Pos.eqb].
  rewrite !bindR_run, write_file_run, Hw. cbn [fst snd]. now rewrite logged_logged.
Qed.

(** The scratch copy of the head side cannot be created: the loop body
    raises once the base side is staged. *)
Lemma check_icon_head_refused :
  (status_code (remote E url_a) = 200 -> writable E (old_path icon) = true) ->
  status_code (remote E url_b) = 200 -> writable E (new_path icon) = false ->
  check_icon E base_repo_url head_repo_url base head issue_url send icon w
  = (Raise (OSError (new_path icon)),
     set_files (if status_code (remote E url_a) =? 200
                then <[old_path icon := content (remote E url_a)]> (files w) else files w)
       (logged [Get url_a; Get url_b] w)).
Proof.
  intros Hwa Hb Hw. unfold check_icon.
  rewrite has_base_ref, bindR_ok, bind_run, requests_get_run.
  rewrite has_head_ref, bindR_ok, bind_run, requests_get_run. cbn [fst snd].
  fold url_a url_b (old_path icon) (new_path icon). rewrite Hb. cbn [Z.eqb Pos.eqb].
  rewrite logged_logged. cbn [app].
  destruct (status_code (remote E url_a) =? 200) eqn:Ha.
  - apply Z.eqb_eq in Ha. rewrite !bindR_run, write_file_run, (Hwa Ha). cbn [fst snd ret].
    rewrite bindR_run, write_file_run, Hw. reflexivity.
  - destruct (status_code (remote E url_a) =? 404); rewrite !bindR_run; cbn [fst snd ret];
      rewrite bindR_run, write_file_run, Hw; unfold set_files, logged;
      cbn [files db comments net events]; reflexivity.
Qed.

Hypothesis stages : can_stage E url_a url_b icon.

(** Both sides being staged, the loop body is the compare call and the
    rendering of its result, unless the head side answers 404. *)
Lemma check_icon_run :
  check_icon E base_repo_url head_repo_url base head issue_url send icon w
  = if status_code (remote E url_b) =? 200
    then compare_and_render E issue_url icon (re_sub_group1 name_regex icon)
           (path_a_of E url_a icon) (new_path icon) send (fetched E url_a url_b icon w)
    else if status_code (remote E url_b) =? 404
    then (Ok None, snd (os_remove (path_a_of E url_a icon) (fetched E url_a url_b icon w)))
    else compare_and_render E issue_url icon (re_sub_group1 name_regex icon)
           (path_a_of E url_a icon) (new_path icon) send (fetched E url_a url_b icon w).
Proof.
  destruct stages as [Hwa Hwb]. unfold check_icon.
  rewrite has_base_ref, bindR_ok, bind_run, requests_get_run.
  rewrite has_head_ref, bindR_ok, bind_run, requests_get_run. cbn [fst snd].
  fold url_a url_b (old_path icon) (new_path icon). rewrite logged_logged. cbn [app].
  unfold fetched, staged, path_a_of.
  destruct (status_code (remote E url_a) =? 200) eqn:Ha200;
    destruct (status_code (remote E url_a) =? 404) eqn:Ha404;
    try (apply Z.eqb_eq in Ha200, Ha404; congruence);
    destruct (status_code (remote E url_b) =? 200) eqn:Hb200;
    destruct (status_code (remote E url_b) =? 404) eqn:Hb404;
    try (apply Z.eqb_eq in Hb200, Hb404; congruence);
    rewrite ?Z.eqb_eq in *;
    rewrite !bindR_run, ?write_file_run, ?(Hwa Ha200); cbn [fst snd ret];
    rewrite ?bindR_run, ?write_file_run, ?(Hwb Hb200), ?bind_run; cbn [fst snd ret];
    unfold set_files, logged; cbn [files db comments net events]; reflexivity.
Qed.
End Body.

Lemma old_path_not_empty (icon : string) : String.eqb (old_path icon) "" = false.
Proof. reflexivity. Qed.

Lemma os_remove_files (path : string) (w : World) :
  String.eqb path "" = false ->
  files (snd (os_remove path w)) = delete path (files w).
Proof.
  intros Hpath. unfold os_remove, lookup_file. rewrite Hpath.
  destruct (files w !! path) eqn:Hfile; [reflexivity |].
  cbn [snd]. now rewrite delete_id.
Qed.

Lemma os_remove_rest (path : string) (w : World) :
  db (snd (os_remove path w)) = db w
  /\ comments (snd (os_remove path w)) = comments w
  /\ net (snd (os_remove path w)) = net w
  /\ events (snd (os_remove path w)) = events w.
Proof. unfold os_remove. now destruct (lookup_file w path). Qed.

(** ** A deleted file *)

(** C6.  When the fetch of the head side answers 404, the loop body makes
    no compare call (the two fetches are its only events) and appends no
    block, and it leaves no scratch copy of the base side: a copy staged for
    the path (base status 200) is removed before the next path, and no other
    file changes.  When the copy of the base side cannot be created, nothing is
    staged and the loop body raises, with the same events.  (The two sides are
    the sides of a pull request: each holds its [ref].) *)
Theorem deleted_head_is_skipped (E : Env)
    (base_repo_url head_repo_url base head base_ref head_ref : json) (issue_url : string)
    (send : bool) (icon : string) (w : World) :
  getitem base "ref" = Ok base_ref ->
  getitem head "ref" = Ok head_ref ->
  let url_a := blob_url base_repo_url base_ref icon in
  let url_b := blob_url head_repo_url head_ref icon in
  let run := check_icon E base_repo_url head_repo_url base head issue_url send icon w in
  status_code (remote E url_b) = 404 ->
  events (snd run) = (events w ++ [Get url_a; Get url_b])%list
  /\ db (snd run) = db w
  /\ comments (snd run) = comments w
  /\ (forall block : string, fst run <> Ok (Some block))
  /\ ((status_code (remote E url_a) = 200 -> writable E (old_path icon) = true) ->
      fst run = Ok None
      /\ files (snd run)
         = (if status_code (remote E url_a) =? 404 then files w
            else delete (old_path icon) (files w))
      /\ (status_code (remote E url_a) = 200 -> files (snd run) !! old_path icon = None))
  /\ (status_code (remote E url_a) = 200 -> writable E (old_path icon) = false ->
      fst run = Raise (OSError (old_path icon)) /\ files (snd run) = files w).
Proof.
  intros Hra Hrb url_a url_b run Hb.
  assert (Hrefused : status_code (remote E url_a) = 200 -> writable E (old_path icon) = false ->
                     run = (Raise (OSError (old_path icon)), logged [Get url_a; Get url_b] w)).
  { intros Ha Hw. now apply check_icon_base_refused. }
  assert (Hstaged : (status_code (remote E url_a) = 200 -> writable E (old_path icon) = true) ->
                    run = (Ok None,
                           snd (os_remove (path_a_of E url_a icon) (fetched E url_a url_b icon w)))).
  { intros Hwa. unfold run.
    rewrite (check_icon_run E base_repo_url head_repo_url base head base_ref head_ref)
      by first [assumption | split; [exact Hwa | fold url_b; rewrite Hb; discriminate]].
    fold url_a url_b. now rewrite Hb. }
  destruct (os_remove_rest (path_a_of E url_a icon) (fetched E url_a url_b icon w))
    as (Hdb & Hcomments & _ & Hevents).
  assert (Hfiles : files (snd (os_remove (path_a_of E url_a icon) (fetched E url_a url_b icon w)))
                   = if status_code (remote E url_a) =? 404 then files w
                     else delete (old_path icon) (files w)).
  { unfold path_a_of, fetched, staged. rewrite Hb. cbn [Z.eqb Pos.eqb].
    destruct (status_code (remote E url_a) =? 404) eqn:Ha404.
    - apply Z.eqb_eq in Ha404. rewrite Ha404. reflexivity.
    - rewrite os_remove_files by apply old_path_not_empty. cbn [files].
      destruct (status_code (remote E url_a) =? 200);
        [apply delete_insert_eq | reflexivity]. }
  assert (Hcases : (status_code (remote E url_a) = 200 /\ writable E (old_path icon) = false)
                   \/ (status_code (remote E url_a) = 200 -> writable E (old_path icon) = true)).
  { destruct (writable E (old_path icon)); [now right |].
    destruct (Z.eq_dec (status_code (remote E url_a)) 200); [now left | right; tauto]. }
  split; [| split; [| split; [| split; [| split]]]].
  - destruct Hcases as [[Ha Hw] | Hwa];
      [now rewrite (Hrefused Ha Hw) | now rewrite (Hstaged Hwa)].
  - destruct Hcases as [[Ha Hw] | Hwa];
      [now rewrite (Hrefused Ha Hw) | now rewrite (Hstaged Hwa)].
  - destruct Hcases as [[Ha Hw] | Hwa];
      [now rewrite (Hrefused Ha Hw) | now rewrite (Hstaged Hwa)].
  - intros block. destruct Hcases as [[Ha Hw] | Hwa];
      [now rewrite (Hrefused Ha Hw) | now rewrite (Hstaged Hwa)].
  - intros Hwa. rewrite (Hstaged Hwa). cbn [fst snd].
    split; [reflexivity |]. split; [exact Hfiles |].
    intros Ha. rewrite Hfiles, Ha. cbn [Z.eqb Pos.eqb]. apply lookup_delete_eq.
  - intros Ha Hw. now rewrite (Hrefused Ha Hw).
Qed.

Lemma deleted_head_is_skipped_witness :
  fst (check_icon example_env (JStr "https://github.com/o/r") (JStr "https://github.com/fork/r")
         example_base gone_head example_issue true "icons/test.dmi" empty_world) = Ok None
  /\ files (snd (check_icon example_env (JStr "https://github.com/o/r")
                   (JStr "https://github.com/fork/r") example_base gone_head example_issue
                   true "icons/test.dmi" empty_world)) !! old_path "icons/test.dmi" = None.
Proof.
  destruct (deleted_head_is_skipped example_env (JStr "https://github.com/o/r")
              (JStr "https://github.com/fork/r") example_base gone_head (JStr "master")
              (JStr "gone") example_issue true "icons/test.dmi" empty_world)
    as (_ & _ & _ & _ & Hstaged & _); [reflexivity | reflexivity | reflexivity |].
  destruct Hstaged as (Hnone & _ & Hgone); [reflexivity |].
  split; [exact Hnone | apply Hgone; reflexivity].
Defined.

Example deleted_head_sample :
  check_icons example_env ["icons/test.dmi"] example_base gone_head example_issue true
    empty_world
  = (Ok tt, logged [Get "https://github.com/o/r/blob/master/icons/test.dmi";
                    Get "https://github.com/fork/r/blob/gone/icons/test.dmi"] empty_world).
Proof. vm_compute. reflexivity. Qed.

(** ** Properties of the trace

    [J] is a property of traces that survives the events in [ok]; uploads,
    fetches and compare calls being among them, the loop over the icons keeps
    it, whether it returns or raises. *)
Section Trace.
Variable J : list Event -> Prop.
Variable ok : Event -> Prop.
Hypothesis J_snoc : forall evs e, ok e -> J evs -> J (evs ++ [e]).
Hypothesis ok_upload : forall h f, ok (Upload h f).
Hypothesis ok_get : forall url, ok (Get url).
Hypothesis ok_compare : forall a b, ok (Compare a b).

Lemma trace_emit (w : World) (e : Event) :
  ok e -> J (events w) -> J (events (snd (emit e w))).
Proof. intros He H. rewrite emit_run. now apply J_snoc. Qed.

Lemma trace_upload_image (E : Env) (file : list byte) (img_hash : string) (upload : bool)
    (w : World) :
  J (events w) -> J (events (snd (upload_image E file img_hash upload w))).
Proof.
  intros H. destruct upload; [| exact H].
  destruct (db w !! img_hash) as [url|] eqn:Hdb.
  - now rewrite (upload_image_hit E file img_hash url w Hdb).
  - rewrite (upload_image_miss E file img_hash w Hdb).
    destruct (host_reply E w file); cbn [snd emit events]; now apply J_snoc.
Qed.

Lemma trace_render_block (E : Env) (issue_url icon i_name a b : string) (send : bool)
    (this_dict : list (string * Entry)) (w : World) :
  J (events w) -> J (events (snd (render_block E issue_url icon i_name a b send this_dict w))).
Proof.
  apply (preserves_render_block (fun w => J (events w)));
    [intros; assumption | intros f h w'; apply trace_upload_image].
Qed.

Lemma trace_compare_and_render (E : Env) (issue_url icon i_name a b : string) (send : bool)
    (w : World) :
  J (events w) -> J (events (snd (compare_and_render E issue_url icon i_name a b send w))).
Proof.
  apply (preserves_compare_and_render (fun w => J (events w)) ok);
    [intros; assumption | exact trace_emit | intros f h w'; apply trace_upload_image
    | exact ok_compare].
Qed.

Lemma trace_check_icon (E : Env) (base_repo_url head_repo_url base head : json)
    (issue_url : string) (send : bool) (icon : string) (w : World) :
  J (events w) ->
  J (events (snd (check_icon E base_repo_url head_repo_url base head issue_url send icon w))).
Proof.
  apply (preserves_check_icon (fun w => J (events w)) ok);
    [intros; assumption | exact trace_emit | intros f h w'; apply trace_upload_image
    | exact ok_get | exact ok_compare].
Qed.

Lemma trace_icons_loop (E : Env) (base_repo_url head_repo_url base head : json)
    (issue_url : string) (send : bool) (icons_with_diff : list string) (w : World) :
  J (events w) ->
  J (events (snd (for_each (check_icon E base_repo_url head_repo_url base head issue_url send)
                    icons_with_diff w))).
Proof.
  apply (preserves_icons_loop (fun w => J (events w)) ok);
    [intros; assumption | exact trace_emit | intros f h w'; apply trace_upload_image
    | exact ok_get | exact ok_compare].
Qed.
End Trace.

(** Events outside a class leave the events of the class as they are. *)
Lemma filter_snoc_other (p : Event -> bool) (evs0 evs : list Event) (e : Event) :
  p e = false -> List.filter p evs = List.filter p evs0 ->
  List.filter p (evs ++ [e]) = List.filter p evs0.
Proof.
  intros He H. rewrite List.filter_app. cbn [List.filter]. rewrite He. now rewrite app_nil_r.
Qed.

Lemma In_snoc (e0 : Event) (evs : list Event) (e : Event) :
  True -> In e0 evs -> In e0 (evs ++ [e]).
Proof. intros _ H. apply in_or_app. now left. Qed.

(** The loop body logs nothing and calls no comment API, whatever the
    statuses of the fetches and whether it returns or raises. *)
Lemma check_icon_quiet (E : Env) (base_repo_url head_repo_url base head : json)
    (issue_url : string) (send : bool) (icon : string) (w : World) :
  List.filter is_log
    (events (snd (check_icon E base_repo_url head_repo_url base head issue_url send icon w)))
  = List.filter is_log (events w)
  /\ List.filter is_api
       (events (snd (check_icon E base_repo_url head_repo_url base head issue_url send icon w)))
     = List.filter is_api (events w).
Proof.
  split.
  - apply (trace_check_icon (fun evs => List.filter is_log evs = List.filter is_log (events w))
             (fun e => is_log e = false)); try reflexivity.
    intros evs e. apply filter_snoc_other.
  - apply (trace_check_icon (fun evs => List.filter is_api evs = List.filter is_api (events w))
             (fun e => is_api e = false)); try reflexivity.
    intros evs e. apply filter_snoc_other.
Qed.

Lemma compare_and_render_calls (E : Env) (issue_url icon i_name a b : string) (send : bool)
    (w : World) :
  In (Compare a b) (events (snd (compare_and_render E issue_url icon i_name a b send w))).
Proof.
  unfold compare_and_render. rewrite bind_run.
  apply (trace_render_block (fun evs => In (Compare a b) evs) (fun _ => True));
    try (intros; exact I); [exact (In_snoc (Compare a b)) |].
  unfold compare_icons. rewrite bind_run, emit_run. cbn [snd fst events].
  apply in_or_app. right. now left.
Qed.

(** ** The rows of a block *)

Lemma rows_of_Ok (E : Env) (send : bool) (this_dict : list (string * Entry)) (w : World)
    (rows : list string) :
  fst (rows_of E send this_dict w) = Ok rows ->
  Forall2 row_of rows (List.filter non_equal this_dict).
Proof.
  revert w rows. induction this_dict as [|[key e] rest IH]; intros w rows.
  - cbn. intros H. inversion H. constructor.
  - cbn [rows_of List.filter]. unfold non_equal at 1. cbn [snd].
    destruct (String.eqb (status e) "Equal"); cbn [negb]; [apply IH |].
    rewrite bindR_run. destruct (fst (image_cell _ _ _ _ _ _ w)) as [url_a|]; [| discriminate].
    rewrite bindR_run. destruct (fst (image_cell _ _ _ _ _ _ _)) as [url_b|]; [| discriminate].
    rewrite bindR_run.
    destruct (fst (rows_of E send rest _)) as [more|] eqn:Hmore; [| discriminate].
    cbn [ret fst]. intros H. inversion H; subst rows.
    constructor; [| now apply (IH _ _ Hmore)].
    eexists _, _. reflexivity.
Qed.

(** Entries that are [Equal] are passed over: nothing is saved, nothing
    is published. *)
Lemma rows_of_all_equal (E : Env) (send : bool) (this_dict : list (string * Entry))
    (w : World) :
  List.filter non_equal this_dict = [] -> rows_of E send this_dict w = (Ok [], w).
Proof.
  induction this_dict as [|[key e] rest IH]; [reflexivity |].
  cbn [rows_of List.filter]. unfold non_equal at 1. cbn [snd].
  destruct (String.eqb (status e) "Equal"); cbn [negb]; [exact IH | discriminate].
Qed.

Lemma block_has_rows (icon : string) (rows : list string) :
  (4 <? length (["<details><summary>" +:+ icon +:+ "</summary>" +:+ String newline "";
                 "Key | Old | New | Status"; "--- | --- | --- | ---"]
                ++ rows ++ ["</details>"]))%nat
  = match rows with [] => false | _ => true end.
Proof.
  destruct rows as [|row rows]; [reflexivity |].
  apply Nat.ltb_lt. rewrite !length_app. simpl. lia.
Qed.

(** What the rendering returns: a block exactly when the result has an
    entry that is not [Equal], with the rows of these entries. *)
Lemma render_block_Ok (E : Env) (issue_url icon i_name a b : string) (send : bool)
    (this_dict : list (string * Entry)) (w : World) (o : option string) :
  fst (render_block E issue_url icon i_name a b send this_dict w) = Ok o ->
  match o with
  | None => List.filter non_equal this_dict = []
  | Some block =>
      exists rows : list string,
        rows <> []
        /\ Forall2 row_of rows (List.filter non_equal this_dict)
        /\ block = block_of icon rows
  end.
Proof.
  destruct this_dict as [|entry rest]; [intros H; inversion H; reflexivity |].
  unfold render_block. rewrite bindR_run.
  destruct (fst (rows_of E send (entry :: rest) w)) as [rows|] eqn:Hrows; [| discriminate].
  apply rows_of_Ok in Hrows. rewrite bindR_run.
  match goal with |- context [fst (?m ?W)] => destruct (fst (m W)); [| discriminate] end.
  cbn [ret fst]. rewrite block_has_rows. intros H. inversion H; subst o.
  destruct rows as [|row rows]; [now inversion Hrows |].
  exists (row :: rows). split; [discriminate | split; [exact Hrows | reflexivity]].
Qed.

Lemma compare_and_render_run (E : Env) (issue_url icon i_name a b : string) (send : bool)
    (w : World) :
  compare_and_render E issue_url icon i_name a b send w
  = render_block E issue_url icon i_name a b send
      (compare_two_icon_files E (files w) a b) (snd (emit (Compare a b) w)).
Proof. unfold compare_and_render, compare_icons. now rewrite !bind_run. Qed.

Lemma compare_and_render_Ok (E : Env) (issue_url icon i_name a b : string) (send : bool)
    (w : World) (o : option string) :
  fst (compare_and_render E issue_url icon i_name a b send w) = Ok o ->
  match o with
  | None => List.filter non_equal (compare_two_icon_files E (files w) a b) = []
  | Some block =>
      exists rows : list string,
        rows <> []
        /\ Forall2 row_of rows (List.filter non_equal (compare_two_icon_files E (files w) a b))
        /\ block = block_of icon rows
  end.
Proof. rewrite compare_and_render_run. apply render_block_Ok. Qed.

(** Outside [DEBUG], a result without an entry other than [Equal] gives
    no block and no exception. *)
Lemma compare_and_render_all_equal (E : Env) (issue_url icon i_name a b : string)
    (send : bool) (w : World) :
  DEBUG E = false ->
  List.filter non_equal (compare_two_icon_files E (files w) a b) = [] ->
  fst (compare_and_render E issue_url icon i_name a b send w) = Ok None.
Proof.
  intros Hdebug Hall. rewrite compare_and_render_run.
  destruct (compare_two_icon_files E (files w) a b) as [|entry rest]; [reflexivity |].
  unfold render_block. rewrite bindR_run, (rows_of_all_equal _ _ _ _ Hall), Hdebug.
  cbn [fst snd]. rewrite bindR_run, !bind_run. reflexivity.
Qed.

(** A block that the loop body returns comes from a compare call. *)
Lemma check_icon_block (E : Env) (base_repo_url head_repo_url base head : json)
    (issue_url : string) (send : bool) (icon : string) (w : World) (block : string) :
  fst (check_icon E base_repo_url head_repo_url base head issue_url send icon w)
  = Ok (Some block) ->
  exists (a : string) (w' : World),
    fst (compare_and_render E issue_url icon (re_sub_group1 name_regex icon) a (new_path icon)
           send w') = Ok (Some block).
Proof.
  unfold check_icon. fold (old_path icon) (new_path icon).
  destruct (getitem base "ref") as [base_ref|]; rewrite ?bindR_ok, ?bindR_raise;
    [| discriminate].
  rewrite bind_run, requests_get_run. cbn [fst snd].
  destruct (getitem head "ref") as [head_ref|]; rewrite ?bindR_ok, ?bindR_raise;
    [| discriminate].
  rewrite bind_run, requests_get_run. cbn [fst snd]. rewrite bindR_run.
  match goal with |- context [fst (?m ?W)] => destruct (fst (m W)) as [path_a|]; [| discriminate] end.
  destruct (status_code (remote E (blob_url head_repo_url head_ref icon)) =? 200).
  - rewrite bindR_run.
    match goal with |- context [fst (?m ?W)] => destruct (fst (m W)); [| discriminate] end.
    eauto.
  - destruct (status_code (remote E (blob_url head_repo_url head_ref icon)) =? 404);
      [rewrite bind_run; discriminate | eauto].
Qed.

Lemma upload_image_comments (E : Env) (file : list byte) (img_hash : string) (upload : bool)
    (w : World) :
  comments (snd (upload_image E file img_hash upload w)) = comments w.
Proof.
  destruct upload; [| reflexivity].
  destruct (db w !! img_hash) as [url|] eqn:Hdb.
  - now rewrite (upload_image_hit E file img_hash url w Hdb).
  - rewrite (upload_image_miss E file img_hash w Hdb). now destruct (host_reply E w file).
Qed.

Lemma icons_loop_comments (E : Env) (base_repo_url head_repo_url base head : json)
    (issue_url : string) (send : bool) (icons_with_diff : list string) (w : World) :
  comments (snd (for_each (check_icon E base_repo_url head_repo_url base head issue_url send)
                   icons_with_diff w))
  = comments w.
Proof.
  apply (preserves_icons_loop (fun w' => comments w' = comments w) (fun _ => True));
    try (intros; exact I); try reflexivity; try (intros; assumption).
  intros f h w' Hw'. now rewrite upload_image_comments.
Qed.

(** The loop, path by path: the body on the first path, then the loop on
    the others in the world that the body left; an exception ends it. *)
Lemma for_each_cons {A B} (body : A -> MR (option B)) (x : A) (rest : list A) (w : World) :
  for_each body (x :: rest) w
  = match fst (body x w) with
    | Ok o =>
        match fst (for_each body rest (snd (body x w))) with
        | Ok more => (Ok (match o with Some b => b :: more | None => more end),
                      snd (for_each body rest (snd (body x w))))
        | Raise e => (Raise e, snd (for_each body rest (snd (body x w))))
        end
    | Raise e => (Raise e, snd (body x w))
    end.
Proof.
  cbn [for_each]. rewrite bindR_run. destruct (fst (body x w)); [| reflexivity].
  rewrite bindR_run. now destruct (fst (for_each body rest _)).
Qed.

(** [check_icons] once the URLs of the two repositories are read: the
    loop, then the comment when there is a block to report. *)
Lemma check_icons_run (E : Env) (icons_with_diff : list string)
    (base head base_repo_url head_repo_url : json) (issue_url : string) (send : bool)
    (w : World) :
  repo_html_url base = Ok base_repo_url ->
  repo_html_url head = Ok head_repo_url ->
  check_icons E icons_with_diff base head issue_url send w
  = match for_each (check_icon E base_repo_url head_repo_url base head issue_url send)
            icons_with_diff w with
    | (Ok blocks, w') =>
        if send && (1 <? length ("Icons with diff:" :: blocks))%nat
        then post_comment E issue_url ("Icons with diff:" :: blocks) base w'
        else (Ok tt, w')
    | (Raise e, w') => (Raise e, w')
    end.
Proof.
  intros Ha Hb. unfold check_icons. rewrite Ha, bindR_ok, Hb, bindR_ok, bindR_run.
  destruct (for_each _ icons_with_diff w) as [[blocks|e] w']; cbn [fst snd]; [| reflexivity].
  now destruct (send && (1 <? length ("Icons with diff:" :: blocks))%nat).
Qed.

(** Without [repo] in a side, [check_icons] raises before it does
    anything. *)
Lemma check_icons_no_repo (E : Env) (icons_with_diff : list string) (base head : json)
    (issue_url : string) (send : bool) (w : World) :
  (forall e : exn,
     repo_html_url base = Raise e ->
     check_icons E icons_with_diff base head issue_url send w = (Raise e, w))
  /\ (forall (base_repo_url : json) (e : exn),
        repo_html_url base = Ok base_repo_url -> repo_html_url head = Raise e ->
        check_icons E icons_with_diff base head issue_url send w = (Raise e, w)).
Proof.
  split.
  - intros e H. unfold check_icons. now rewrite H, bindR_raise.
  - intros base_repo_url e Ha Hb. unfold check_icons. now rewrite Ha, bindR_ok, Hb, bindR_raise.
Qed.

(** The sides are staged, or the loop body raises on a scratch copy that
    cannot be created. *)
Lemma check_icon_staging (E : Env) (base_repo_url head_repo_url base head base_ref head_ref : json)
    (issue_url : string) (send : bool) (icon : string) (w : World) :
  getitem base "ref" = Ok base_ref ->
  getitem head "ref" = Ok head_ref ->
  can_stage E (blob_url base_repo_url base_ref icon) (blob_url head_repo_url head_ref icon) icon
  \/ exists (path : string) (w' : World),
       check_icon E base_repo_url head_repo_url base head issue_url send icon w
       = (Raise (OSError path), w').
Proof.
  intros Hra Hrb.
  set (url_a := blob_url base_repo_url base_ref icon).
  set (url_b := blob_url head_repo_url head_ref icon).
  pose proof (check_icon_base_refused E base_repo_url head_repo_url base head base_ref head_ref
                issue_url send icon w Hra Hrb) as Hbase.
  pose proof (check_icon_head_refused E base_repo_url head_repo_url base head base_ref head_ref
                issue_url send icon w Hra Hrb) as Hhead.
  cbv zeta in Hbase, Hhead. fold url_a url_b in Hbase, Hhead.
  destruct (Z.eq_dec (status_code (remote E url_a)) 200) as [Ha | Ha];
    [destruct (writable E (old_path icon)) eqn:Hwa |].
  - destruct (Z.eq_dec (status_code (remote E url_b)) 200) as [Hb | Hb];
      [destruct (writable E (new_path icon)) eqn:Hwb |].
    + left. now split.
    + right. eexists _, _. now apply Hhead.
    + left. split; [easy | intros H; now destruct Hb].
  - right. eexists _, _. now apply Hbase.
  - destruct (Z.eq_dec (status_code (remote E url_b)) 200) as [Hb | Hb];
      [destruct (writable E (new_path icon)) eqn:Hwb |].
    + left. split; [intros H; now destruct Ha | easy].
    + right. eexists _, _.
      apply Hhead; first [assumption | reflexivity | intros H; now destruct Ha].
    + left. split; intros H; [now destruct Ha | now destruct Hb].
Qed.

(** A path whose compare result has no entry other than [Equal]
    contributes no block. *)
Lemma check_icon_no_rows (E : Env) (base_repo_url head_repo_url base head base_ref head_ref : json)
    (issue_url : string) (send : bool) (icon : string) (w : World) :
  getitem base "ref" = Ok base_ref ->
  getitem head "ref" = Ok head_ref ->
  let url_a := blob_url base_repo_url base_ref icon in
  let url_b := blob_url head_repo_url head_ref icon in
  List.filter non_equal
    (compare_two_icon_files E (staged E url_a url_b icon (files w))
       (path_a_of E url_a icon) (new_path icon)) = [] ->
  (forall block : string,
     fst (check_icon E base_repo_url head_repo_url base head issue_url send icon w)
     <> Ok (Some block))
  /\ (DEBUG E = false -> can_stage E url_a url_b icon ->
      fst (check_icon E base_repo_url head_repo_url base head issue_url send icon w) = Ok None).
Proof.
  intros Hra Hrb url_a url_b Hall.
  assert (Hrun : can_stage E url_a url_b icon ->
    check_icon E base_repo_url head_repo_url base head issue_url send icon w
    = if status_code (remote E url_b) =? 200
      then compare_and_render E issue_url icon (re_sub_group1 name_regex icon)
             (path_a_of E url_a icon) (new_path icon) send (fetched E url_a url_b icon w)
      else if status_code (remote E url_b) =? 404
      then (Ok None, snd (os_remove (path_a_of E url_a icon) (fetched E url_a url_b icon w)))
      else compare_and_render E issue_url icon (re_sub_group1 name_regex icon)
             (path_a_of E url_a icon) (new_path icon) send (fetched E url_a url_b icon w))
    by (intros Hst; now apply check_icon_run).
  assert (Hnone : forall block,
    fst (compare_and_render E issue_url icon (re_sub_group1 name_regex icon)
           (path_a_of E url_a icon) (new_path icon) send (fetched E url_a url_b icon w))
    <> Ok (Some block)).
  { intros block Hblock. apply compare_and_render_Ok in Hblock as (rows & Hne & Hrows & _).
    cbn [fetched files] in Hrows. rewrite Hall in Hrows. inversion Hrows. now subst. }
  split.
  - intros block Hblock.
    destruct (check_icon_staging E base_repo_url head_repo_url base head base_ref head_ref
                issue_url send icon w Hra Hrb) as [Hst | (path & w' & Hraise)];
      [| now rewrite Hraise in Hblock].
    rewrite (Hrun Hst) in Hblock.
    destruct (status_code (remote E url_b) =? 200); [now apply (Hnone block) |].
    destruct (status_code (remote E url_b) =? 404); [discriminate | now apply (Hnone block)].
  - intros Hdebug Hst. rewrite (Hrun Hst).
    assert (Hequal : fst (compare_and_render E issue_url icon (re_sub_group1 name_regex icon)
                            (path_a_of E url_a icon) (new_path icon) send
                            (fetched E url_a url_b icon w)) = Ok None)
      by now apply compare_and_render_all_equal.
    destruct (status_code (remote E url_b) =? 200); [exact Hequal |].
    now destruct (status_code (remote E url_b) =? 404).
Qed.

(** ** Unchanged sprites *)

(** C7.  The rows of a block are the rows of the entries that are not
    [Equal], one each and in order, so no [Equal] entry is rendered; a path
    whose compare result has no other entry contributes no block (outside
    [DEBUG], where the log of the path is written, the loop body returns
    without one once both sides are staged), and a block that is contributed
    has a row; and in a run in which every compare result has only [Equal]
    entries, the loop appends no block and [check_icons] calls no comment API
    and leaves the comments as they are.  (The two sides are the sides of a
    pull request: each holds its [ref] and its repository.) *)
Theorem equal_entries_not_reported (E : Env)
    (base head base_repo_url head_repo_url base_ref head_ref : json) (issue_url : string)
    (send : bool) :
  repo_html_url base = Ok base_repo_url ->
  repo_html_url head = Ok head_repo_url ->
  getitem base "ref" = Ok base_ref ->
  getitem head "ref" = Ok head_ref ->
  let url_a := blob_url base_repo_url base_ref in
  let url_b := blob_url head_repo_url head_ref in
  let body := check_icon E base_repo_url head_repo_url base head issue_url send in
  (forall (this_dict : list (string * Entry)) (w : World) (rows : list string),
     fst (rows_of E send this_dict w) = Ok rows ->
     Forall2 row_of rows (List.filter non_equal this_dict)
     /\ Forall (fun kv => status (snd kv) <> "Equal") (List.filter non_equal this_dict))
  /\ (forall (icon : string) (w : World),
        List.filter non_equal
          (compare_two_icon_files E (staged E (url_a icon) (url_b icon) icon (files w))
             (path_a_of E (url_a icon) icon) (new_path icon)) = [] ->
        (forall block : string, fst (body icon w) <> Ok (Some block))
        /\ (DEBUG E = false -> can_stage E (url_a icon) (url_b icon) icon ->
            fst (body icon w) = Ok None))
  /\ (forall (icon block : string) (w : World),
        fst (body icon w) = Ok (Some block) ->
        exists (rows : list string) (fs : gmap string (list byte)) (a b : string),
          rows <> []
          /\ Forall2 row_of rows (List.filter non_equal (compare_two_icon_files E fs a b))
          /\ block = block_of icon rows)
  /\ (forall (icons_with_diff : list string) (w : World),
        only_equal E body url_a url_b icons_with_diff w ->
        (forall blocks : list string,
           fst (for_each body icons_with_diff w) = Ok blocks -> blocks = [])
        /\ List.filter is_api
             (events (snd (check_icons E icons_with_diff base head issue_url send w)))
           = List.filter is_api (events w)
        /\ comments (snd (check_icons E icons_with_diff base head issue_url send w))
           = comments w).
Proof.
  intros Hurl_a Hurl_b Hra Hrb url_a url_b body.
  split; [| split; [| split]].
  - intros this_dict w rows Hrows. split; [now apply (rows_of_Ok E send this_dict w) |].
    apply List.Forall_forall. intros kv [_ Hkv]%List.filter_In Heq.
    unfold non_equal in Hkv. now rewrite Heq in Hkv.
  - intros icon w. now apply check_icon_no_rows.
  - intros icon block w Hblock.
    apply check_icon_block in Hblock as (a & w' & Hblock).
    apply compare_and_render_Ok in Hblock as (rows & Hne & Hrows & Hblock).
    now exists rows, (files w'), a, (new_path icon).
  - intros icons_with_diff w Honly.
    assert (Hnone : forall blocks, fst (for_each body icons_with_diff w) = Ok blocks ->
                                   blocks = []).
    { revert w Honly. induction icons_with_diff as [|icon rest IH]; intros w Honly blocks.
      - cbn. intros H. now inversion H.
      - destruct Honly as [Hicon Hrest]. rewrite for_each_cons.
        destruct (fst (body icon w)) as [o|] eqn:Ho; [| discriminate].
        destruct (fst (for_each body rest (snd (body icon w)))) as [more|] eqn:Hmore;
          [| discriminate].
        cbn [fst]. intros H. inversion H; subst blocks.
        rewrite (IH _ Hrest more Hmore).
        destruct o as [block|]; [| reflexivity].
        now destruct (proj1 (check_icon_no_rows E base_repo_url head_repo_url base head
                               base_ref head_ref issue_url send icon w Hra Hrb Hicon) block). }
    split; [exact Hnone |].
    rewrite (check_icons_run E icons_with_diff base head base_repo_url head_repo_url issue_url
               send w Hurl_a Hurl_b).
    fold body.
    assert (Hloop : List.filter is_api (events (snd (for_each body icons_with_diff w)))
                    = List.filter is_api (events w)
                    /\ comments (snd (for_each body icons_with_diff w)) = comments w).
    { split; [| apply icons_loop_comments].
      apply (trace_icons_loop
               (fun evs => List.filter is_api evs = List.filter is_api (events w))
               (fun e => is_api e = false)); try reflexivity.
      intros evs e. apply filter_snoc_other. }
    destruct (for_each body icons_with_diff w) as [[blocks|e] w'] eqn:Hrun;
      cbn [fst snd] in *; [| exact Hloop].
    rewrite (Hnone blocks eq_refl).
    replace (send && (1 <? length ["Icons with diff:"])%nat) with false
      by now destruct send.
    exact Hloop.
Qed.

Lemma equal_entries_not_reported_witness :
  List.filter is_api
    (events (snd (check_icons unchanged_env ["icons/test.dmi"] example_base example_head
                              example_issue true empty_world)))
  = List.filter is_api (events empty_world).
Proof.
  destruct (equal_entries_not_reported unchanged_env example_base example_head
              (JStr "https://github.com/o/r") (JStr "https://github.com/fork/r")
              (JStr "master") (JStr "patch") example_issue true)
    as (_ & _ & _ & Hrun); [reflexivity | reflexivity | reflexivity | reflexivity |].
  destruct (Hrun ["icons/test.dmi"] empty_world) as (_ & Hapi & _); [| exact Hapi].
  split; [vm_compute; reflexivity | exact I].
Defined.

Example unchanged_sample :
  check_icons unchanged_env ["icons/test.dmi"] example_base example_head example_issue true
    empty_world
  = (Ok tt,
     logged [Get "https://github.com/o/r/blob/master/icons/test.dmi";
             Get "https://github.com/fork/r/blob/patch/icons/test.dmi";
             Compare "./icon_dump/old_test.dmi" "./icon_dump/new_test.dmi"] empty_world).
Proof. vm_compute. reflexivity. Qed.

(** ** A fetch that fails *)

Lemma old_new_differ (icon : string) : old_path icon <> new_path icon.
Proof. unfold old_path, new_path. intros H. rewrite !append_cons in H. discriminate H. Qed.

(** Nothing is staged for a side whose status is not 200. *)
Lemma staged_untouched (E : Env) (url_a url_b icon : string) (fs : gmap string (list byte)) :
  (status_code (remote E url_a) <> 200 ->
   staged E url_a url_b icon fs !! old_path icon = fs !! old_path icon)
  /\ (status_code (remote E url_b) <> 200 ->
      staged E url_a url_b icon fs !! new_path icon = fs !! new_path icon).
Proof.
  unfold staged. split; intros Hs; apply Z.eqb_neq in Hs; rewrite Hs.
  - destruct (status_code (remote E url_b) =? 200); [| reflexivity].
    apply lookup_insert_ne. intros H. now apply (old_new_differ icon).
  - destruct (status_code (remote E url_a) =? 200); [| reflexivity].
    apply lookup_insert_ne, old_new_differ.
Qed.

(** The loop body fetches the base side of its path. *)
Lemma check_icon_fetches (E : Env) (base_repo_url head_repo_url base head base_ref : json)
    (issue_url : string) (send : bool) (icon : string) (w : World) :
  getitem base "ref" = Ok base_ref ->
  In (Get (blob_url base_repo_url base_ref icon))
     (events (snd (check_icon E base_repo_url head_repo_url base head issue_url send icon w))).
Proof.
  intros Hra. set (url_a := blob_url base_repo_url base_ref icon).
  assert (Hlogged : forall evs, In (Get url_a) (events (logged (Get url_a :: evs) w))).
  { intros evs. cbn [logged events]. apply in_or_app. right. now left. }
  destruct (getitem head "ref") as [head_ref|e] eqn:Hrb;
    [| rewrite (proj2 (check_icon_no_ref E base_repo_url head_repo_url base head issue_url
                         send icon w) base_ref e Hra Hrb); apply Hlogged].
  set (url_b := blob_url head_repo_url head_ref icon).
  pose proof (check_icon_base_refused E base_repo_url head_repo_url base head base_ref head_ref
                issue_url send icon w Hra Hrb) as Hbase.
  pose proof (check_icon_head_refused E base_repo_url head_repo_url base head base_ref head_ref
                issue_url send icon w Hra Hrb) as Hhead.
  pose proof (check_icon_run E base_repo_url head_repo_url base head base_ref head_ref
                issue_url send icon w Hra Hrb) as Hrun.
  cbv zeta in Hbase, Hhead, Hrun. fold url_a url_b in Hbase, Hhead, Hrun.
  assert (Hin : In (Get url_a) (events (fetched E url_a url_b icon w))).
  { cbn [fetched events]. apply in_or_app. right. now left. }
  assert (Hrender : forall a b,
    In (Get url_a)
       (events (snd (compare_and_render E issue_url icon (re_sub_group1 name_regex icon) a b
                       send (fetched E url_a url_b icon w))))).
  { intros a b.
    apply (trace_compare_and_render (fun evs => In (Get url_a) evs) (fun _ => True));
      try (intros; exact I); [| exact Hin].
    exact (In_snoc (Get url_a)). }
  destruct (Z.eq_dec (status_code (remote E url_a)) 200) as [Ha | Ha];
    [destruct (writable E (old_path icon)) eqn:Hwa;
       [| rewrite Hbase by easy; apply Hlogged] |];
    (destruct (Z.eq_dec (status_code (remote E url_b)) 200) as [Hb | Hb];
       [destruct (writable E (new_path icon)) eqn:Hwb;
          [| rewrite Hhead by easy; apply Hlogged] |]);
    (rewrite Hrun by (split; easy);
     destruct (status_code (remote E url_b) =? 200); [apply Hrender |];
     destruct (status_code (remote E url_b) =? 404); [| apply Hrender];
     cbn [snd];
     now destruct (os_remove_rest (path_a_of E url_a icon) (fetched E url_a url_b icon w))
       as (_ & _ & _ & ->)).
Qed.

(** C5 (as amended).  For a path one of whose fetches answers a status other
    than 200 or 404, nothing is staged for that side and nothing is logged, and
    the path is not skipped: unless the head side answers 404, the loop body is
    the compare call on the scratch paths followed by the rendering of its
    result, as for any path.  When the loop body returns, the loop goes on with
    the path that follows, in the world that the body left; when it raises (a
    save or an upload that fails), the loop ends there with the exception.
    (The two sides are the sides of a pull request: each holds its [ref].) *)
Theorem failed_fetch_is_not_skipped (E : Env)
    (base_repo_url head_repo_url base head base_ref head_ref : json) (issue_url : string)
    (send : bool) (icon : string) (w : World) :
  getitem base "ref" = Ok base_ref ->
  getitem head "ref" = Ok head_ref ->
  let url_a := blob_url base_repo_url base_ref in
  let url_b := blob_url head_repo_url head_ref in
  let body := check_icon E base_repo_url head_repo_url base head issue_url send in
  (status_code (remote E (url_a icon)) <> 200 /\ status_code (remote E (url_a icon)) <> 404)
  \/ (status_code (remote E (url_b icon)) <> 200
      /\ status_code (remote E (url_b icon)) <> 404) ->
  List.filter is_log (events (snd (body icon w))) = List.filter is_log (events w)
  /\ (status_code (remote E (url_a icon)) <> 200 ->
      files (fetched E (url_a icon) (url_b icon) icon w) !! old_path icon
      = files w !! old_path icon)
  /\ (status_code (remote E (url_b icon)) <> 200 ->
      files (fetched E (url_a icon) (url_b icon) icon w) !! new_path icon
      = files w !! new_path icon)
  /\ ((status_code (remote E (url_a icon)) <> 200
       /\ status_code (remote E (url_a icon)) <> 404
       /\ files (fetched E (url_a icon) (url_b icon) icon w) !! old_path icon
          = files w !! old_path icon)
      \/ (status_code (remote E (url_b icon)) <> 200
          /\ status_code (remote E (url_b icon)) <> 404
          /\ files (fetched E (url_a icon) (url_b icon) icon w) !! new_path icon
             = files w !! new_path icon))
  /\ (status_code (remote E (url_b icon)) <> 404 ->
      can_stage E (url_a icon) (url_b icon) icon ->
      body icon w
      = compare_and_render E issue_url icon (re_sub_group1 name_regex icon)
          (path_a_of E (url_a icon) icon) (new_path icon) send
          (fetched E (url_a icon) (url_b icon) icon w)
      /\ In (Compare (path_a_of E (url_a icon) icon) (new_path icon))
            (events (snd (body icon w))))
  /\ (forall (o : option string) (next : string) (rest : list string),
        fst (body icon w) = Ok o ->
        for_each body (icon :: next :: rest) w
        = match for_each body (next :: rest) (snd (body icon w)) with
          | (Ok more, w') => (Ok (match o with Some b => b :: more | None => more end), w')
          | (Raise e, w') => (Raise e, w')
          end
        /\ In (Get (url_a next)) (events (snd (for_each body (icon :: next :: rest) w))))
  /\ (forall (e : exn) (rest : list string),
        fst (body icon w) = Raise e ->
        for_each body (icon :: rest) w = (Raise e, snd (body icon w))).
Proof.
  intros Hra Hrb url_a url_b body Hfailed.
  split; [apply check_icon_quiet |].
  split; [apply staged_untouched |]. split; [apply staged_untouched |].
  split.
  { destruct Hfailed as [[Ha Ha'] | [Hb Hb']]; [left | right];
      (split; [assumption | split; [assumption | now apply staged_untouched]]). }
  split; [| split].
  - intros Hb Hstages. apply Z.eqb_neq in Hb.
    assert (Hrun : body icon w
                   = compare_and_render E issue_url icon (re_sub_group1 name_regex icon)
                       (path_a_of E (url_a icon) icon) (new_path icon) send
                       (fetched E (url_a icon) (url_b icon) icon w)).
    { unfold body.
      rewrite (check_icon_run E base_repo_url head_repo_url base head base_ref head_ref)
        by assumption.
      fold (url_a icon) (url_b icon). rewrite Hb.
      now destruct (status_code (remote E (url_b icon)) =? 200). }
    split; [exact Hrun |]. rewrite Hrun. apply compare_and_render_calls.
  - intros o next rest Ho.
    assert (Hcons : for_each body (icon :: next :: rest) w
                    = match for_each body (next :: rest) (snd (body icon w)) with
                      | (Ok more, w') =>
                          (Ok (match o with Some b => b :: more | None => more end), w')
                      | (Raise e, w') => (Raise e, w')
                      end).
    { rewrite for_each_cons, Ho.
      now destruct (for_each body (next :: rest) (snd (body icon w))) as [[more|e] w']. }
    split; [exact Hcons |]. rewrite Hcons.
    assert (Hnext : In (Get (url_a next))
                       (events (snd (for_each body (next :: rest) (snd (body icon w)))))).
    { rewrite for_each_cons.
      assert (Hfetch : In (Get (url_a next)) (events (snd (body next (snd (body icon w))))))
        by now apply check_icon_fetches.
      assert (Hloop : In (Get (url_a next))
                         (events (snd (for_each body rest (snd (body next (snd (body icon w)))))))).
      { apply (trace_icons_loop (fun evs => In (Get (url_a next)) evs) (fun _ => True));
          try (intros; exact I); [exact (In_snoc (Get (url_a next))) | exact Hfetch]. }
      destruct (fst (body next (snd (body icon w)))); [| exact Hfetch].
      now destruct (fst (for_each body rest _)). }
    now destruct (for_each body (next :: rest) (snd (body icon w))) as [[more|e] w'].
  - intros e rest He. now rewrite for_each_cons, He.
Qed.

Lemma failed_fetch_is_not_skipped_witness :
  In (Compare (path_a_of flaky_env (blob_url (JStr "https://github.com/o/r") (JStr "master")
                                      "icons/test.dmi") "icons/test.dmi")
        (new_path "icons/test.dmi"))
     (events (snd (check_icon flaky_env (JStr "https://github.com/o/r")
                     (JStr "https://github.com/fork/r") example_base example_head
                     example_issue true "icons/test.dmi" empty_world))).
Proof.
  destruct (failed_fetch_is_not_skipped flaky_env (JStr "https://github.com/o/r")
              (JStr "https://github.com/fork/r") example_base example_head (JStr "master")
              (JStr "patch") example_issue true "icons/test.dmi" empty_world)
    as (_ & _ & _ & _ & Hcompared & _); [reflexivity | reflexivity | |].
  - left. split; vm_compute; discriminate.
  - apply Hcompared; [vm_compute; discriminate |].
    split; intros _; vm_compute; reflexivity.
Defined.

(** C5 as stated fails: the base side answers 500, and the path is compared
    and reported all the same, with nothing logged. *)
Lemma failed_fetch_is_compared :
  status_code (remote flaky_env "https://github.com/o/r/blob/master/icons/test.dmi") = 500
  /\ events (snd (check_icon flaky_env (JStr "https://github.com/o/r")
                    (JStr "https://github.com/fork/r") example_base example_head
                    example_issue true "icons/test.dmi" empty_world))
     = [Get "https://github.com/o/r/blob/master/icons/test.dmi";
        Get "https://github.com/fork/r/blob/patch/icons/test.dmi";
        Compare "./icon_dump/old_test.dmi" "./icon_dump/new_test.dmi";
        Upload "h1" (bytes_of "png1");
        Upload "h2" (bytes_of "png2")]
  /\ fst (check_icon flaky_env (JStr "https://github.com/o/r")
            (JStr "https://github.com/fork/r") example_base example_head example_issue true
            "icons/test.dmi" empty_world)
     = Ok (Some (block_of "icons/test.dmi"
                   ["walk|![walk](https://img.example/0)|![walk](https://img.example/1)|Changed"])).
Proof. split; [| split]; vm_compute; reflexivity. Qed.

(** ** The receiver *)

Ltac step_result :=
  match goal with
  | |- context [bindR (liftR ?r) _ _] =>
      let H := fresh "Hstep" in
      destruct r eqn:H; rewrite ?bindR_ok, ?bindR_raise
  end.

(** The receiver answers one of its four responses, or raises. *)
Lemma render_POST_total (E : Env) (request : Request) (w : World) :
  answers (fst (render_POST E request w))
  \/ exists e, fst (render_POST E request w) = Raise e.
Proof.
  unfold render_POST, answers.
  step_result; [| right; eauto]. destruct a; cbn [negb]; [| left; cbn; tauto].
  destruct (header_is (getHeader request "X-GitHub-Event") "pull_request");
    cbn [negb]; [| left; cbn; tauto].
  step_result; [| right; eauto]. step_result; [| right; eauto].
  step_result; [| right; eauto].
  destruct (json_in a1 actions_to_check); cbn [negb]; [| left; cbn; tauto].
  step_result; [| right; eauto].
  destruct (existsb (String.eqb a2) (ignore_list (config E))); [left; cbn; tauto |].
  do 5 (step_result; [| right; eauto]).
  rewrite bind_run.
  destruct (fst (check_diff E a7 w)) as [[|icon icons]|]; try (left; cbn; tauto).
  do 2 (step_result; [| right; eauto]).
  rewrite bind_run.
  step_result; [| right; eauto].
  rewrite bindR_run.
  match goal with |- context [fst (?m ?W)] => destruct (fst (m W)) end;
    [left; cbn; tauto | right; eauto].
Qed.

Section Receiver.
Variable E : Env.
Variable request : Request.
Variable w : World.

Lemma render_POST_rejected :
  compare_secret (config E) (getHeader request "X-Hub-Signature") (request_content request)
  = Ok false ->
  render_POST E request w
  = (Ok (401, "Secret does not match."),
     snd (log_message "POST received with wrong secret." w)).
Proof. intros H. unfold render_POST. rewrite H, bindR_ok. reflexivity. Qed.

Hypothesis verified :
  compare_secret (config E) (getHeader request "X-Hub-Signature") (request_content request)
  = Ok true.

Lemma render_POST_unsupported :
  header_is (getHeader request "X-GitHub-Event") "pull_request" = false ->
  render_POST E request w
  = (Ok (404, "Event not supported"),
     snd (log_message ("POST received with event: "
                       +:+ default "None" (getHeader request "X-GitHub-Event")) w)).
Proof.
  intros H. unfold render_POST. rewrite verified, bindR_ok. cbn [negb]. rewrite H.
  reflexivity.
Qed.

Variables payload pr_obj action : json.
Hypothesis supported : header_is (getHeader request "X-GitHub-Event") "pull_request" = true.
Hypothesis parsed : json_loads E (string_of_list_byte (request_content request)) = Some payload.
Hypothesis has_pr : getitem payload "pull_request" = Ok pr_obj.
Hypothesis has_action : getitem payload "action" = Ok action.

Lemma render_POST_not_actionable :
  json_in action actions_to_check = false ->
  render_POST E request w = (Ok (200, "Not actionable"), w).
Proof.
  intros H. unfold render_POST. rewrite verified, bindR_ok. cbn [negb]. rewrite supported.
  cbn [negb]. rewrite parsed, bindR_ok, has_pr, bindR_ok, has_action, bindR_ok, H.
  reflexivity.
Qed.

Variables user : json.
Variable login : string.
Hypothesis actionable : json_in action actions_to_check = true.
Hypothesis has_user : getitem pr_obj "user" = Ok user.
Hypothesis has_login : getitem user "login" = Ok (JStr login).

Lemma render_POST_ignored :
  existsb (String.eqb (lower login)) (ignore_list (config E)) = true ->
  render_POST E request w = (Ok (200, "Ok"), w).
Proof.
  intros H. unfold render_POST. rewrite verified, bindR_ok. cbn [negb]. rewrite supported.
  cbn [negb]. rewrite parsed, bindR_ok, has_pr, bindR_ok, has_action, bindR_ok, actionable.
  cbn [negb]. rewrite has_user. cbn [rbind]. rewrite has_login. cbn [rbind json_lower].
  rewrite bindR_ok, H. reflexivity.
Qed.

Variables head base : json.
Variables issue_url diff_url : string.
Hypothesis not_ignored : existsb (String.eqb (lower login)) (ignore_list (config E)) = false.
Hypothesis has_issue_url : getitem pr_obj "issue_url" = Ok (JStr issue_url).
Hypothesis has_diff_url : getitem pr_obj "diff_url" = Ok (JStr diff_url).
Hypothesis has_head : getitem pr_obj "head" = Ok head.
Hypothesis has_base : getitem pr_obj "base" = Ok base.

(** Once the delivery is accepted, the diff is fetched; when it names no
    icon, the answer is 200. *)
Lemma render_POST_fetches :
  render_POST E request w
  = match check_diff E diff_url w with
    | (Some (icon :: icons), w') =>
        (full_name <~ liftR (repo_full_name base) ;;
         number <~ liftR (getitem payload "number") ;;
         log_message (json_format full_name +:+ ": Icon diff detected on pull request: "
                      +:+ json_format number +:+ "!") ;;;
         check_icons E (icon :: icons) base head issue_url true ;;~
         ret (Ok (200, "Ok"))) w'
    | (_, w') => (Ok (200, "Ok"), w')
    end.
Proof.
  unfold render_POST. rewrite verified, bindR_ok. cbn [negb]. rewrite supported.
  cbn [negb]. rewrite parsed, bindR_ok, has_pr, bindR_ok, has_action, bindR_ok, actionable.
  cbn [negb]. rewrite has_user. cbn [rbind]. rewrite has_login. cbn [rbind json_lower].
  rewrite bindR_ok, not_ignored.
  rewrite has_issue_url, bindR_ok, has_diff_url, bindR_ok, has_head, bindR_ok,
    has_base, bindR_ok. cbn [json_str]. rewrite bindR_ok, bind_run.
  destruct (check_diff E diff_url w) as [[[|icon icons]|] w']; cbn [fst snd]; reflexivity.
Qed.

Variables full_name number : json.
Hypothesis has_full_name : repo_full_name base = Ok full_name.
Hypothesis has_number : getitem payload "number" = Ok number.

(** When the diff names icons, the pipeline runs, and the answer is 200
    when it returns; an exception of the pipeline leaves the receiver. *)
Lemma render_POST_processed :
  render_POST E request w
  = match check_diff E diff_url w with
    | (Some (icon :: icons), w') =>
        match check_icons E (icon :: icons) base head issue_url true
                (snd (log_message (json_format full_name
                                   +:+ ": Icon diff detected on pull request: "
                                   +:+ json_format number +:+ "!") w')) with
        | (Ok _, w'') => (Ok (200, "Ok"), w'')
        | (Raise e, w'') => (Raise e, w'')
        end
    | (_, w') => (Ok (200, "Ok"), w')
    end.
Proof.
  rewrite render_POST_fetches.
  destruct (check_diff E diff_url w) as [[[|icon icons]|] w']; try reflexivity.
  rewrite has_full_name, bindR_ok, has_number, bindR_ok, bind_run, bindR_run. cbn [fst snd].
  now destruct (check_icons E (icon :: icons) base head issue_url true _) as [[[]|e] w''].
Qed.
End Receiver.

(** C8 (as amended).  The receiver answers one of its four responses, or
    raises before answering.  The gates come in a fixed order: a signature that
    does not verify, an absent one included, gives 401 with nothing parsed and
    nothing run (the message logged is the only effect); a verified event of a
    type other than [pull_request] gives 404; the body is then parsed, and with
    the members the handler reads, an action outside [opened] and
    [synchronize] gives 200 and [Not actionable], an author whose lowercase
    login is in the ignore list gives 200 and [Ok], both without any fetch (the
    world is as before); in all other cases of an event with the members the
    handler reads, the diff is fetched, the answer is 200 when the diff names no
    icon, and else the pipeline runs and the answer is 200 when it returns,
    while an exception of the pipeline leaves the receiver without an
    answer. *)
Theorem render_POST_gates (E : Env) (request : Request) (w : World) :
  (answers (fst (render_POST E request w))
   \/ exists e, fst (render_POST E request w) = Raise e)
  /\ (getHeader request "X-Hub-Signature" = None ->
      fst (render_POST E request w) = Ok (401, "Secret does not match."))
  /\ (compare_secret (config E) (getHeader request "X-Hub-Signature")
        (request_content request) = Ok false ->
      render_POST E request w
      = (Ok (401, "Secret does not match."),
         snd (log_message "POST received with wrong secret." w)))
  /\ (compare_secret (config E) (getHeader request "X-Hub-Signature")
        (request_content request) = Ok true ->
      (header_is (getHeader request "X-GitHub-Event") "pull_request" = false ->
       render_POST E request w
       = (Ok (404, "Event not supported"),
          snd (log_message ("POST received with event: "
                            +:+ default "None" (getHeader request "X-GitHub-Event")) w)))
      /\ (header_is (getHeader request "X-GitHub-Event") "pull_request" = true ->
          forall payload pr_obj action : json,
            json_loads E (string_of_list_byte (request_content request)) = Some payload ->
            getitem payload "pull_request" = Ok pr_obj ->
            getitem payload "action" = Ok action ->
            (json_in action actions_to_check = false ->
             render_POST E request w = (Ok (200, "Not actionable"), w))
            /\ (json_in action actions_to_check = true ->
                forall (user : json) (login : string),
                  getitem pr_obj "user" = Ok user ->
                  getitem user "login" = Ok (JStr login) ->
                  (existsb (String.eqb (lower login)) (ignore_list (config E)) = true ->
                   render_POST E request w = (Ok (200, "Ok"), w))
                  /\ (existsb (String.eqb (lower login)) (ignore_list (config E)) = false ->
                      forall (head base : json) (issue_url diff_url : string),
                        getitem pr_obj "issue_url" = Ok (JStr issue_url) ->
                        getitem pr_obj "diff_url" = Ok (JStr diff_url) ->
                        getitem pr_obj "head" = Ok head ->
                        getitem pr_obj "base" = Ok base ->
                        In (Get diff_url) (events (snd (render_POST E request w)))
                        /\ (fst (check_diff E diff_url w) = None
                            \/ fst (check_diff E diff_url w) = Some [] ->
                            render_POST E request w
                            = (Ok (200, "Ok"), snd (check_diff E diff_url w)))
                        /\ (forall (icon : string) (icons : list string)
                                   (full_name number : json),
                              fst (check_diff E diff_url w) = Some (icon :: icons) ->
                              repo_full_name base = Ok full_name ->
                              getitem payload "number" = Ok number ->
                              fst (render_POST E request w)
                              = match fst (check_icons E (icon :: icons) base head issue_url
                                             true
                                             (snd (log_message
                                                     (json_format full_name
                                                      +:+ ": Icon diff detected on pull request: "
                                                      +:+ json_format number +:+ "!")
                                                     (snd (check_diff E diff_url w))))) with
                                | Ok _ => Ok (200, "Ok")
                                | Raise e => Raise e
                                end))))).
Proof.
  split; [apply render_POST_total |]. split.
  { intros Habsent. rewrite render_POST_rejected; [reflexivity |]. now rewrite Habsent. }
  split; [apply render_POST_rejected |].
  intros verified. split; [now apply render_POST_unsupported |].
  intros supported payload pr_obj action parsed has_pr has_action.
  split; [now apply (render_POST_not_actionable E request w verified payload pr_obj action) |].
  intros actionable user login has_user has_login.
  split; [now apply (render_POST_ignored E request w verified payload pr_obj action supported
                       parsed has_pr has_action user login) |].
  intros not_ignored head base issue_url diff_url has_issue_url has_diff_url has_head has_base.
  pose proof (render_POST_fetches E request w verified payload pr_obj action supported parsed
                has_pr has_action user login actionable has_user has_login head base
                issue_url diff_url not_ignored has_issue_url has_diff_url has_head has_base)
    as Hfetches.
  assert (Hget : In (Get diff_url) (events (snd (check_diff E diff_url w)))).
  { unfold check_diff, requests_get. rewrite !bind_run, emit_run. cbn [fst snd ret].
    destruct (status_code (remote E diff_url) =? 404); cbn [snd events];
      apply in_or_app; right; now left. }
  split; [| split].
  - rewrite Hfetches.
    destruct (check_diff E diff_url w) as [[[|icon icons]|] w']; cbn [fst snd] in *;
      try exact Hget.
    assert (Hkeep : forall (m : MR (Z * string)),
              preserves (fun w0 => In (Get diff_url) (events w0)) m ->
              In (Get diff_url) (events (snd (m w')))) by (intros m Hm; now apply Hm).
    apply Hkeep.
    assert (Hemit : forall w0 e, True -> In (Get diff_url) (events w0) ->
                                 In (Get diff_url) (events (snd (emit e w0)))).
    { intros w0 e _. rewrite emit_run. cbn [snd events]. intros Hin.
      apply in_or_app. now left. }
    apply preserves_bindR; [apply preserves_liftR | intros full_name].
    apply preserves_bindR; [apply preserves_liftR | intros number].
    apply preserves_bind; [intros w0; now apply Hemit | intros _].
    apply preserves_bindR; [| intros; apply preserves_ret].
    apply (preserves_check_icons (fun w0 => In (Get diff_url) (events w0)) (fun _ => True)).
    + intros w0 f H. exact H.
    + exact Hemit.
    + intros file img_hash w0.
      apply (trace_upload_image (fun evs => In (Get diff_url) evs) (fun _ => True));
        [exact (In_snoc (Get diff_url)) | intros; exact I].
    + intros; exact I.
    + intros; exact I.
    + intros _ issue message_dict base'.
      apply (preserves_post_comment _ (fun _ => True));
        first [exact Hemit | intros; exact I | intros w0 x H; exact H].
  - intros Hnone. rewrite Hfetches.
    destruct (check_diff E diff_url w) as [[[|icon icons]|] w']; cbn [fst snd] in *;
      try reflexivity.
    destruct Hnone as [Hnone | Hnone]; discriminate Hnone.
  - intros icon icons full_name number Hicons has_full_name has_number.
    rewrite (render_POST_processed E request w verified payload pr_obj action supported parsed
               has_pr has_action user login actionable has_user has_login head base
               issue_url diff_url not_ignored has_issue_url has_diff_url has_head has_base
               full_name number has_full_name has_number).
    destruct (check_diff E diff_url w) as [icons' w']. cbn [fst snd] in *. subst icons'.
    now destruct (check_icons E (icon :: icons) base head issue_url true _) as [[[]|e] w''].
Qed.

Example sample_delivery :
  fst (render_POST example_env sample_request empty_world) = Ok (200, "Ok")
  /\ map is_api (events (snd (render_POST example_env sample_request empty_world)))
     = [false; false; false; false; false; false; false; true; true; false].
Proof. split; vm_compute; reflexivity. Qed.

Lemma render_POST_gates_witness :
  In (Get "https://github.com/o/r/pull/7.diff")
     (events (snd (render_POST example_env sample_request empty_world)))
  /\ fst (render_POST example_env sample_request empty_world) = Ok (200, "Ok").
Proof.
  destruct (render_POST_gates example_env sample_request empty_world)
    as (_ & _ & _ & Hverified).
  destruct Hverified as [_ Hsupported]; [vm_compute; reflexivity |].
  edestruct Hsupported as [_ Hactionable];
    [reflexivity | vm_compute; reflexivity | vm_compute; reflexivity
    | vm_compute; reflexivity |].
  edestruct Hactionable as [_ Hprocessed];
    [reflexivity | vm_compute; reflexivity | vm_compute; reflexivity |].
  edestruct Hprocessed as (Hget & _ & Hrun);
    [vm_compute; reflexivity | vm_compute; reflexivity | vm_compute; reflexivity
    | vm_compute; reflexivity | vm_compute; reflexivity |].
  split; [exact Hget |].
  rewrite (Hrun "icons/test.dmi" [] (JStr "o/r") (JNum 7));
    vm_compute; reflexivity.
Defined.

(** C8 as stated fails: a verified [pull_request] delivery whose body is
    the empty object gets no answer from the handler, which raises. *)
Lemma render_POST_raises_on_empty_object :
  compare_secret (config example_env)
    (getHeader (signed (github_secret example_config) "pull_request" "{}") "X-Hub-Signature")
    (request_content (signed (github_secret example_config) "pull_request" "{}"))
  = Ok true
  /\ fst (render_POST example_env (signed (github_secret example_config) "pull_request" "{}")
            empty_world)
     = Raise (KeyError "pull_request").
Proof. split; vm_compute; reflexivity. Qed.

(** A delivery with every member it needs gets no answer either when the
    pipeline raises: a state whose name holds a slash cannot be saved in the
    scratch directory; the copies of the two sides stay, nothing is posted. *)
Example delivery_raises_in_the_pipeline :
  fst (render_POST slash_env sample_request empty_world)
  = Raise (OSError "./icon_dump/old_a/b.png")
  /\ List.filter is_api (events (snd (render_POST slash_env sample_request empty_world))) = []
  /\ map fst (map_to_list (files (snd (render_POST slash_env sample_request empty_world))))
     = ["./icon_dump/old_test.dmi"; "./icon_dump/new_test.dmi"].
Proof. split; [| split]; vm_compute; reflexivity. Qed.

Example closed_is_not_actionable :
  render_POST example_env
    (signed (github_secret example_config) "pull_request"
       (Json.text "{'action': 'closed', 'pull_request': {}}")) empty_world
  = (Ok (200, "Not actionable"), empty_world).
Proof. vm_compute. reflexivity. Qed.

Example ignored_author_is_skipped :
  render_POST example_env
    (signed (github_secret example_config) "pull_request"
       (Json.text "{'action': 'opened', 'pull_request': {'user': {'login': 'Dependabot'}}}"))
    empty_world
  = (Ok (200, "Ok"), empty_world).
Proof. vm_compute. reflexivity. Qed.

Example wrong_secret_is_rejected :
  fst (render_POST example_env (signed (bytes_of "b") "pull_request" sample_body) empty_world)
  = Ok (401, "Secret does not match.").
Proof. vm_compute. reflexivity. Qed.

Example ping_is_unsupported :
  fst (render_POST example_env (signed (github_secret example_config) "ping" "{}") empty_world)
  = Ok (404, "Event not supported").
Proof. vm_compute. reflexivity. Qed.

(** ** More on the signature *)

Lemma prefix_split (l s : string) : String.prefix l s = true -> exists t, s = l +:+ t.
Proof.
  revert s. induction l as [|c l IH]; intros s H; [now exists s |].
  destruct s as [|d s]; [discriminate H |]. rewrite prefix_cons in H.
  destruct (ascii_dec c d) as [<-|]; [| discriminate H].
  apply IH in H as [t ->]. now exists t.
Qed.

(** Removing the occurrences of the prefix neither adds nor removes a
    character outside ASCII. *)
Lemma replace_sha1_is_ascii (n : nat) (s : string) :
  (String.length s <= n)%nat ->
  is_ascii_str (replace_from "sha1=" "" 0 s) = is_ascii_str s.
Proof.
  revert s. induction n as [|n IH]; intros s Hn.
  - destruct s; [reflexivity | simpl in Hn; lia].
  - destruct s as [|c t]; [reflexivity |].
    cbn [replace_from]. destruct (String.prefix "sha1=" (String c t)) eqn:Hp.
    + apply prefix_split in Hp as [t' Ht'].
      assert (Hlen : (String.length t' <= n)%nat).
      { rewrite Ht', append_length in Hn. simpl in Hn. lia. }
      change ("sha1=" +:+ t') with (String "s" ("ha1=" +:+ t')) in Ht'.
      inversion Ht'; subst c t. rewrite append_nil_l.
      change (String.length "sha1=" - 1)%nat with (String.length "ha1=").
      rewrite replace_from_skip, (IH t' Hlen). reflexivity.
    + cbn [is_ascii_str]. rewrite IH; [reflexivity | simpl in Hn; lia].
Qed.

Lemma str_replace_sha1_is_ascii (s : string) :
  is_ascii_str (str_replace "sha1=" "" s) = is_ascii_str s.
Proof. exact (replace_sha1_is_ascii (String.length s) s (Nat.le_refl _)). Qed.

Lemma replace_hex (h : string) :
  all_chars is_hex_char h = true -> str_replace "sha1=" "" h = h.
Proof.
  intros Hh. rewrite <- (append_nil_r h) at 1. unfold str_replace.
  rewrite (replace_hex_app h "" Hh). apply append_nil_r.
Qed.

(** X1.  The prefix [sha1=] is optional and may stand anywhere: the header is
    accepted whenever the digest is what is left once every [sha1=] is
    removed, so the digest alone verifies, and so does the digest with the
    prefix put at any place of it, the end included. *)
Theorem compare_secret_prefix_anywhere (config : Config) (payload : list byte)
    (a b : string) :
  a +:+ b = Hmac.hexdigest (github_secret config) payload ->
  compare_secret config (Some (a +:+ b)) payload = Ok true
  /\ compare_secret config (Some (a +:+ "sha1=" +:+ b)) payload = Ok true
  /\ compare_secret config (Some ("sha1=" +:+ a +:+ "sha1=" +:+ b)) payload = Ok true.
Proof.
  intros Hab.
  pose proof (hex_all_hex (Hmac.digest (github_secret config) payload)) as Hhex.
  fold (Hmac.hexdigest (github_secret config) payload) in Hhex.
  assert (Hsplit : all_chars is_hex_char a = true /\ all_chars is_hex_char b = true).
  { rewrite <- Hab, all_chars_app in Hhex. now apply andb_true_iff in Hhex. }
  destruct Hsplit as [Ha Hb].
  assert (Hmid : str_replace "sha1=" "" (a +:+ "sha1=" +:+ b) = a +:+ b).
  { unfold str_replace at 1. rewrite (replace_hex_app a _ Ha).
    fold (str_replace "sha1=" "" ("sha1=" +:+ b)).
    now rewrite replace_prefixed, (replace_hex b Hb). }
  assert (Hbare : str_replace "sha1=" "" (a +:+ b) = a +:+ b).
  { apply replace_hex. now rewrite all_chars_app, Ha, Hb. }
  split; [| split]; rewrite compare_secret_some;
    rewrite ?replace_prefixed, ?Hmid, ?Hbare, Hab, ?String.eqb_refl;
    try reflexivity; apply hexdigest_ascii.
Qed.

Lemma compare_secret_prefix_anywhere_witness :
  compare_secret example_config
    (Some ("54dfc258" +:+ "sha1=" +:+ "5de819b8c92ab0ee92ec85f4693ff092")) (bytes_of "{}")
  = Ok true.
Proof.
  destruct (compare_secret_prefix_anywhere example_config (bytes_of "{}")
              "54dfc258" "5de819b8c92ab0ee92ec85f4693ff092") as (_ & H & _);
    [vm_compute; reflexivity | exact H].
Defined.

(** X2.  A signature header with a character outside ASCII is not answered with
    401: [hmac.compare_digest] raises a [TypeError] on it, so the receiver
    raises before it logs, parses or fetches anything. *)
Theorem render_POST_non_ascii_signature (E : Env) (request : Request) (w : World)
    (header : string) :
  getHeader request "X-Hub-Signature" = Some header ->
  is_ascii_str header = false ->
  compare_secret (config E) (Some header) (request_content request)
  = Raise (TypeError "comparing strings with non-ASCII characters is not supported")
  /\ render_POST E request w
     = (Raise (TypeError "comparing strings with non-ASCII characters is not supported"), w).
Proof.
  intros Hheader Hascii.
  assert (Hraise : compare_secret (config E) (Some header) (request_content request)
                   = Raise (TypeError
                       "comparing strings with non-ASCII characters is not supported")).
  { unfold compare_secret, compare_digest. now rewrite str_replace_sha1_is_ascii, Hascii. }
  split; [exact Hraise |].
  unfold render_POST. rewrite Hheader, Hraise. apply bindR_raise.
Qed.

Lemma render_POST_non_ascii_signature_witness :
  fst (render_POST example_env
         {| request_content := bytes_of "{}";
            getHeader := fun _ => Some ("sha1=" +:+ String (ascii_of_nat 233) "") |}
         empty_world)
  = Raise (TypeError "comparing strings with non-ASCII characters is not supported").
Proof.
  destruct (render_POST_non_ascii_signature example_env
              {| request_content := bytes_of "{}";
                 getHeader := fun _ => Some ("sha1=" +:+ String (ascii_of_nat 233) "") |}
              empty_world ("sha1=" +:+ String (ascii_of_nat 233) "")) as [_ H];
    [reflexivity | reflexivity | now rewrite H].
Defined.

Lemma sha1_digest_length (msg : list byte) : length (Sha1.digest msg) = 20%nat.
Proof. unfold Sha1.digest. rewrite length_map, !length_app. reflexivity. Qed.

Lemma block_key_zero (key : list byte) :
  (length key < Hmac.block_size)%nat ->
  Hmac.block_key (key ++ [x00]) = Hmac.block_key key.
Proof.
  unfold Hmac.block_key, Hmac.block_size. intros H.
  replace (64 <? length (key ++ [x00]))%nat with false
    by (symmetry; apply Nat.ltb_ge; rewrite length_app; simpl; lia).
  replace (64 <? length key)%nat with false by (symmetry; apply Nat.ltb_ge; lia).
  rewrite length_app, <- app_assoc. f_equal.
  replace (64 - length key)%nat with (S (64 - (length key + length [x00])))%nat
    by (simpl; lia).
  reflexivity.
Qed.

Lemma block_key_long (key : list byte) :
  (Hmac.block_size < length key)%nat ->
  Hmac.block_key (Sha1.digest key) = Hmac.block_key key.
Proof.
  unfold Hmac.block_key, Hmac.block_size. intros H.
  replace (64 <? length key)%nat with true by (symmetry; apply Nat.ltb_lt; lia).
  now rewrite sha1_digest_length.
Qed.

Lemma hexdigest_block_key (key key' msg : list byte) :
  Hmac.block_key key' = Hmac.block_key key ->
  Hmac.hexdigest key' msg = Hmac.hexdigest key msg.
Proof. intros H. unfold Hmac.hexdigest, Hmac.digest. now rewrite H. Qed.

(** X3.  HMAC brings every key to the block size: a secret shorter than 64
    bytes and the same secret followed by a zero byte verify exactly the same
    headers on every payload, and so do a secret longer than 64 bytes and its
    SHA-1 digest. *)
Theorem compare_secret_key_normalised (config config' : Config) (header : option string)
    (payload : list byte) :
  ((length (github_secret config) < 64)%nat
   /\ github_secret config' = (github_secret config ++ [x00])%list)
  \/ ((64 < length (github_secret config))%nat
      /\ github_secret config' = Sha1.digest (github_secret config)) ->
  compare_secret config' header payload = compare_secret config header payload.
Proof.
  intros Hkeys.
  assert (Hdigest : Hmac.hexdigest (github_secret config') payload
                    = Hmac.hexdigest (github_secret config) payload).
  { apply hexdigest_block_key. destruct Hkeys as [[Hlen ->] | [Hlen ->]];
      [now apply block_key_zero | now apply block_key_long]. }
  destruct header as [h|]; [| reflexivity]. unfold compare_secret. now rewrite Hdigest.
Qed.

Lemma compare_secret_key_normalised_witness :
  compare_secret
    {| webhook_port := 8080; github_secret := (bytes_of "a" ++ [x00])%list;
       github_user := "icon-bot"; github_auth := "token";
       upload_api_url := "https://img.example/upload"; upload_api_key := "key";
       ignore_list := [] |}
    (Some "sha1=54dfc2585de819b8c92ab0ee92ec85f4693ff092") (bytes_of "{}")
  = compare_secret example_config
      (Some "sha1=54dfc2585de819b8c92ab0ee92ec85f4693ff092") (bytes_of "{}").
Proof.
  apply compare_secret_key_normalised. left. split; [simpl; lia | reflexivity].
Defined.

Lemma hex_length (bs : list byte) : String.length (Hmac.hex bs) = (2 * length bs)%nat.
Proof. induction bs as [|b bs IH]; [reflexivity |]. cbn [Hmac.hex String.length length]. lia. Qed.

(** X4.  The digest has 40 characters, so a header that does not have 40
    characters once its [sha1=] occurrences are removed (a truncated digest, a
    digest of another hash function) is rejected. *)
Theorem compare_secret_wrong_length (config : Config) (header : string)
    (payload : list byte) :
  is_ascii_str header = true ->
  String.length (str_replace "sha1=" "" header) <> 40%nat ->
  String.length (Hmac.hexdigest (github_secret config) payload) = 40%nat
  /\ compare_secret config (Some header) payload = Ok false.
Proof.
  intros Hascii Hlen.
  assert (H40 : String.length (Hmac.hexdigest (github_secret config) payload) = 40%nat).
  { unfold Hmac.hexdigest, Hmac.digest. now rewrite hex_length, sha1_digest_length. }
  split; [exact H40 |].
  rewrite compare_secret_some by now rewrite str_replace_sha1_is_ascii.
  f_equal. apply String.eqb_neq. intros Heq. apply Hlen. now rewrite Heq.
Qed.

Lemma compare_secret_wrong_length_witness :
  compare_secret example_config (Some "sha1=54dfc2585de819b8c92ab0ee92ec85f4693ff0")
    (bytes_of "{}") = Ok false.
Proof.
  apply (compare_secret_wrong_length example_config
           "sha1=54dfc2585de819b8c92ab0ee92ec85f4693ff0" (bytes_of "{}"));
    [reflexivity | vm_compute; discriminate].
Defined.

(** ** More on the extraction *)

Lemma search_is_Some_app (p : list atom) (pre line : string) :
  is_Some (search p line) -> is_Some (search p (pre +:+ line)).
Proof.
  intros H. induction pre as [|c pre IH]; [exact H |].
  rewrite append_cons. cbn [search].
  destruct (match_at p false "" (String c (pre +:+ line))) as [[g rest]|]; [eauto | exact IH].
Qed.

(** X5.  The pattern is searched, not anchored at the start of the line: a
    line that holds a match still has one when text is put before it, and
    text without the letter [d] before the line does not change the capture
    (a header quoted in a line that a patch adds, [+diff --git ...], is
    captured like the header itself). *)
Theorem search_binary_unanchored (pre line : string) :
  (is_Some (search binary_regex line) -> is_Some (search binary_regex (pre +:+ line)))
  /\ (has_char "d" pre = false ->
      search binary_regex (pre +:+ line) = search binary_regex line).
Proof.
  split; [apply search_is_Some_app |].
  induction pre as [|c pre IH]; intros Hpre; [reflexivity |].
  unfold has_char in Hpre. cbn [all_chars] in Hpre.
  apply negb_false_iff, andb_true_iff in Hpre as [Hc Hpre].
  apply negb_true_iff in Hc. rewrite append_cons.
  assert (Hnone : match_at binary_regex false "" (String c (pre +:+ line)) = None).
  { unfold binary_regex. cbn [match_at].
    change "diff --git a/" with (String "d" "iff --git a/"). cbn [strip_prefix].
    now rewrite Ascii.eqb_sym, Hc. }
  cbn [search]. rewrite Hnone. apply IH. unfold has_char. now rewrite Hpre.
Qed.

Lemma search_binary_unanchored_witness :
  search binary_regex ("+" +:+ "diff --git a/icons/a.dmi b/icons/a.dmi")
  = search binary_regex "diff --git a/icons/a.dmi b/icons/a.dmi".
Proof.
  apply (search_binary_unanchored "+" "diff --git a/icons/a.dmi b/icons/a.dmi"). reflexivity.
Defined.

(** X6.  The starred run of the pattern is greedy: on a line that begins with
    the header text, the capture runs to the last [.dmi b/] of the line,
    whatever stands before it, other occurrences of [.dmi b/] included. *)
Theorem search_binary_greedy (q rest : string) :
  all_chars (in_class Dot) q = true ->
  occurs ".dmi b/" ("dmi b/" +:+ rest) = false ->
  search binary_regex ("diff --git a/" +:+ q +:+ ".dmi b/" +:+ rest) = Some (q +:+ ".dmi").
Proof.
  intros Hq Hrest.
  destruct (dmi_tail_here true (capture true "" q) rest) as [left Hhere].
  assert (Hm : match_at binary_regex false "" ("diff --git a/" +:+ q +:+ ".dmi b/" +:+ rest)
               = Some (q +:+ ".dmi", left)).
  { unfold binary_regex. cbn [match_at]. rewrite strip_prefix_app.
    apply star_extend; [exact Hq |].
    change (".dmi b/" +:+ rest) with (String "." ("dmi b/" +:+ rest)).
    cbn [star]. change (in_class Dot ".") with true. cbn iota.
    rewrite (star_no_occurrence Dot (match_at dmi_tail) ".dmi b/");
      [| intros; now apply dmi_tail_None | exact Hrest].
    exact Hhere. }
  destruct ("diff --git a/" +:+ q +:+ ".dmi b/" +:+ rest); cbn [search]; now rewrite Hm.
Qed.

Lemma search_binary_greedy_witness :
  search binary_regex ("diff --git a/" +:+ "x.dmi b/y" +:+ ".dmi b/" +:+ "x.dmi b")
  = Some ("x.dmi b/y" +:+ ".dmi").
Proof. apply search_binary_greedy; reflexivity. Defined.

(** X7.  The extraction is local to the lines: what [check_diff] returns on a
    text cut at a newline is what the part before the newline gives followed
    by what the part after it gives. *)
Theorem check_diff_line_local (E : Env) (diff_url : string) (w : World) (a b : string) :
  status_code (remote E diff_url) <> 404 ->
  text (remote E diff_url) = a +:+ String newline b ->
  fst (check_diff E diff_url w)
  = Some (icons_of_lines (split_lines a) ++ icons_of_lines (split_lines b))%list.
Proof.
  intros Hstatus Htext. rewrite check_diff_fst. apply Z.eqb_neq in Hstatus.
  now rewrite Hstatus, Htext, split_lines_app, icons_of_lines_app.
Qed.

Lemma check_diff_line_local_witness :
  fst (check_diff two_part_env example_diff_url empty_world)
  = Some (icons_of_lines (split_lines "+diff --git a/icons/a.dmi b/icons/a.dmi")
          ++ icons_of_lines (split_lines "diff --git a/x y.dmi b/x y.dmi b/z"))%list.
Proof.
  apply check_diff_line_local; [vm_compute; discriminate | reflexivity].
Defined.
(** ** The pipeline without publishing *)

(** With [send_message] false, [check_icons] only fetches, compares and
    handles scratch files. *)
Lemma check_icons_dry (E : Env) (icons_with_diff : list string) (base head : json)
    (issue_url : string) (w : World) :
  db (snd (check_icons E icons_with_diff base head issue_url false w)) = db w
  /\ comments (snd (check_icons E icons_with_diff base head issue_url false w)) = comments w
  /\ net (snd (check_icons E icons_with_diff base head issue_url false w)) = net w
  /\ List.filter is_upload
       (events (snd (check_icons E icons_with_diff base head issue_url false w)))
     = List.filter is_upload (events w)
  /\ List.filter is_api
       (events (snd (check_icons E icons_with_diff base head issue_url false w)))
     = List.filter is_api (events w)
  /\ List.filter is_log
       (events (snd (check_icons E icons_with_diff base head issue_url false w)))
     = List.filter is_log (events w).
Proof.
  apply (preserves_check_icons
           (fun w' => db w' = db w /\ comments w' = comments w /\ net w' = net w
                      /\ List.filter is_upload (events w') = List.filter is_upload (events w)
                      /\ List.filter is_api (events w') = List.filter is_api (events w)
                      /\ List.filter is_log (events w') = List.filter is_log (events w))
           (fun e => is_upload e = false /\ is_api e = false /\ is_log e = false)).
  - intros w' f H. exact H.
  - intros w' e (Hu & Ha & Hl) (Hdb & Hc & Hn & Hfu & Hfa & Hfl).
    rewrite emit_run. cbn [snd db comments net events].
    repeat (split; [first [assumption | now apply filter_snoc_other] |]).
    now apply filter_snoc_other.
  - intros file img_hash w' H. exact H.
  - intros url. now repeat split.
  - intros a b. now repeat split.
  - discriminate.
  - now repeat split.
Qed.

(** ** The cells of the rows *)

Lemma os_remove_db (path : string) (w : World) : db (snd (os_remove path w)) = db w.
Proof. now destruct (os_remove_rest path w) as (-> & _). Qed.

Lemma image_cell_db_stable (E : Env) (send : bool) (key path : string)
    (img : option (list byte)) (img_hash h url : string) (w : World) :
  db w !! h = Some url ->
  db (snd (image_cell E send key path img img_hash w)) !! h = Some url.
Proof.
  apply (preserves_image_cell (fun w' => db w' !! h = Some url));
    [intros; assumption | intros file g w'; apply upload_image_db_stable].
Qed.

Lemma rows_of_db_stable (E : Env) (send : bool) (this_dict : list (string * Entry))
    (h url : string) (w : World) :
  db w !! h = Some url -> db (snd (rows_of E send this_dict w)) !! h = Some url.
Proof.
  apply (preserves_rows_of (fun w' => db w' !! h = Some url));
    [intros; assumption | intros file g w'; apply upload_image_db_stable].
Qed.

(** What an image cell is when the image is saved and published without
    an exception: the save needs a scratch path that can be created, the
    publishing a reply of the host that carries a URL. *)
Lemma image_cell_run (E : Env) (send : bool) (key path : string) (png : list byte)
    (img_hash : string) (w : World) :
  image_cell E send key path (Some png) img_hash w
  = if writable E path
    then match upload_image E (fst (read_file path (set_files (<[path := png]> (files w)) w)))
                 img_hash send (set_files (<[path := png]> (files w)) w) with
         | (Ok url, w') =>
             (Ok ("![" +:+ key +:+ "](" +:+ str_of_url url +:+ ")"),
              if DEBUG E then w' else snd (os_remove path w'))
         | (Raise e, w') => (Raise e, w')
         end
    else (Raise (OSError path), w).
Proof.
  cbn [image_cell]. rewrite bindR_run, write_file_run.
  destruct (writable E path); [| reflexivity]. cbn [fst snd].
  rewrite bind_run. change (snd (read_file path ?w0)) with w0.
  rewrite bindR_run.
  destruct (upload_image E _ img_hash send _) as [[url|e] w']; cbn [fst snd]; [| reflexivity].
  rewrite bind_run. cbn [ret fst snd]. now destruct (DEBUG E).
Qed.

(** The cell links what the cache holds for the hash, in any later state
    of the cache. *)
Lemma image_cell_links (E : Env) (send : bool) (key path : string)
    (img : option (list byte)) (img_hash : string) (w : World) (d : gmap string string)
    (cell : string) :
  fst (image_cell E send key path img img_hash w) = Ok cell ->
  (forall h url, db (snd (image_cell E send key path img img_hash w)) !! h = Some url ->
                 d !! h = Some url) ->
  cell = cell_of d send key img img_hash.
Proof.
  destruct img as [png|]; [| intros H _; now inversion H].
  rewrite image_cell_run. cbn [cell_of].
  destruct (writable E path); [| discriminate].
  set (w1 := set_files (<[path := png]> (files w)) w).
  set (f := fst (read_file path w1)).
  destruct send.
  - destruct (db w1 !! img_hash) as [u|] eqn:Hdb.
    + rewrite (upload_image_hit E f img_hash u w1 Hdb). cbn [fst snd].
      intros Hcell Hlater. inversion Hcell.
      rewrite (Hlater img_hash u); [reflexivity |].
      destruct (DEBUG E); [exact Hdb | now rewrite os_remove_db].
    + rewrite (upload_image_miss E f img_hash w1 Hdb).
      destruct (host_reply E w1 f) as [url|e]; cbn [fst snd]; [| discriminate].
      intros Hcell Hlater. inversion Hcell.
      rewrite (Hlater img_hash url); [reflexivity |].
      destruct (DEBUG E); [| rewrite os_remove_db]; cbn [db]; apply lookup_insert_eq.
  - rewrite upload_image_off. cbn [fst snd]. intros Hcell _. now inversion Hcell.
Qed.

(** A cell is rendered when its scratch file can be created and the host
    answers. *)
Lemma image_cell_renders (E : Env) (send : bool) (key path : string)
    (img : option (list byte)) (img_hash : string) (w : World) :
  writable E path = true -> host_answers E ->
  exists cell : string, fst (image_cell E send key path img img_hash w) = Ok cell.
Proof.
  intros Hpath Hhost. destruct img as [png|]; [| now exists "![]()"].
  rewrite image_cell_run, Hpath.
  set (w1 := set_files (<[path := png]> (files w)) w).
  set (f := fst (read_file path w1)).
  destruct send; [| rewrite upload_image_off; cbn [fst]; eauto].
  destruct (db w1 !! img_hash) as [u|] eqn:Hdb.
  - rewrite (upload_image_hit E f img_hash u w1 Hdb). cbn [fst]. eauto.
  - rewrite (upload_image_miss E f img_hash w1 Hdb). unfold host_reply.
    destruct (Hhost (upload_api_url (config E)) (upload_api_key (config E))
                (length (List.filter is_upload (events w1))) f) as [link ->].
    cbn [fst]. eauto.
Qed.

Lemma rows_of_links (E : Env) (send : bool) (this_dict : list (string * Entry))
    (d : gmap string string) (w : World) (rows : list string) :
  fst (rows_of E send this_dict w) = Ok rows ->
  (forall h url, db (snd (rows_of E send this_dict w)) !! h = Some url -> d !! h = Some url) ->
  rows = map (row_in d send) (List.filter non_equal this_dict).
Proof.
  revert w rows. induction this_dict as [|[key e] rest IH]; intros w0 rows.
  - intros H _. now inversion H.
  - cbn [rows_of List.filter]. unfold non_equal at 1. cbn [snd].
    destruct (String.eqb (status e) "Equal"); cbn [negb]; [apply IH |].
    rewrite !bindR_run.
    destruct (fst (image_cell E send key ("./icon_dump/old_" +:+ key +:+ ".png")
                     (img_a e) (img_a_hash e) w0)) as [cell_a|] eqn:Ha; [| discriminate].
    set (w1 := snd (image_cell E send key ("./icon_dump/old_" +:+ key +:+ ".png")
                      (img_a e) (img_a_hash e) w0)) in *.
    rewrite !bindR_run.
    destruct (fst (image_cell E send key ("./icon_dump/new_" +:+ key +:+ ".png")
                     (img_b e) (img_b_hash e) w1)) as [cell_b|] eqn:Hb; [| discriminate].
    set (w2 := snd (image_cell E send key ("./icon_dump/new_" +:+ key +:+ ".png")
                      (img_b e) (img_b_hash e) w1)) in *.
    rewrite !bindR_run.
    destruct (fst (rows_of E send rest w2)) as [more|] eqn:Hmore; [| discriminate].
    cbn [ret fst snd map]. intros Hrows Hlater. inversion Hrows.
    pose proof (fun h url => rows_of_db_stable E send rest h url w2) as Hkeep.
    rewrite (image_cell_links E send key _ (img_a e) (img_a_hash e) w0 d cell_a Ha).
    2: { intros h url Hh. apply Hlater, Hkeep.
         now apply (image_cell_db_stable E send key _ (img_b e) (img_b_hash e) h url w1). }
    rewrite (image_cell_links E send key _ (img_b e) (img_b_hash e) w1 d cell_b Hb)
      by (intros h url Hh; apply Hlater, Hkeep, Hh).
    unfold row_in at 1. cbn [fst snd]. f_equal. now apply (IH w2).
Qed.

Lemma rows_of_renders (E : Env) (send : bool) (this_dict : list (string * Entry))
    (w : World) :
  (forall key e, In (key, e) (List.filter non_equal this_dict) ->
                 writable E ("./icon_dump/old_" +:+ key +:+ ".png") = true
                 /\ writable E ("./icon_dump/new_" +:+ key +:+ ".png") = true) ->
  host_answers E ->
  exists rows : list string, fst (rows_of E send this_dict w) = Ok rows.
Proof.
  intros Hpaths Hhost. revert w Hpaths.
  induction this_dict as [|[key e] rest IH]; intros w0; [now exists [] |].
  cbn [rows_of List.filter]. unfold non_equal at 1. cbn [snd].
  destruct (String.eqb (status e) "Equal"); cbn [negb]; [apply IH |].
  intros Hpaths. destruct (Hpaths key e) as [Hold Hnew]; [now left |].
  rewrite bindR_run.
  destruct (image_cell_renders E send key _ (img_a e) (img_a_hash e) w0 Hold Hhost)
    as [cell_a ->].
  rewrite bindR_run.
  destruct (image_cell_renders E send key _ (img_b e) (img_b_hash e)
              (snd (image_cell E send key ("./icon_dump/old_" +:+ key +:+ ".png")
                      (img_a e) (img_a_hash e) w0)) Hnew Hhost) as [cell_b ->].
  rewrite bindR_run.
  edestruct IH as [more ->]; [intros k e' Hin; apply (Hpaths k e'); now right |].
  cbn [ret fst]. eauto.
Qed.

(** X8.  What the report shows is what the cache holds: when the rows of a
    block are rendered, each is made of the key, the two image cells and the
    status of an entry that is not [Equal], and an image cell links the URL
    that the upload cache holds for the hash of the image once the rows are
    rendered (the text [None] when nothing is published); a missing image
    gives the empty placeholder.  The rows are rendered when the image files
    of the reported entries can be created in the scratch directory and every
    reply of the image host carries a URL; an image file that cannot be
    created ends the rendering with the exception of the save. *)
Theorem rows_link_the_cache (E : Env) (send : bool) (this_dict : list (string * Entry))
    (w : World) :
  (forall rows : list string,
     fst (rows_of E send this_dict w) = Ok rows ->
     rows = map (row_in (db (snd (rows_of E send this_dict w))) send)
              (List.filter non_equal this_dict))
  /\ ((forall key e, In (key, e) (List.filter non_equal this_dict) ->
                     writable E ("./icon_dump/old_" +:+ key +:+ ".png") = true
                     /\ writable E ("./icon_dump/new_" +:+ key +:+ ".png") = true) ->
      host_answers E ->
      exists rows : list string, fst (rows_of E send this_dict w) = Ok rows)
  /\ (forall (key : string) (e : Entry) (rest : list (string * Entry)) (png : list byte),
        this_dict = (key, e) :: rest ->
        String.eqb (status e) "Equal" = false ->
        img_a e = Some png ->
        writable E ("./icon_dump/old_" +:+ key +:+ ".png") = false ->
        rows_of E send this_dict w
        = (Raise (OSError ("./icon_dump/old_" +:+ key +:+ ".png")), w)).
Proof.
  split; [| split].
  - intros rows Hrows. apply (rows_of_links E send this_dict _ w rows Hrows). auto.
  - apply rows_of_renders.
  - intros key e rest png -> Hstatus Himg Hpath. cbn [rows_of]. rewrite Hstatus, Himg.
    rewrite bindR_run, image_cell_run, Hpath. reflexivity.
Qed.

Lemma rows_link_the_cache_witness :
  exists rows : list string,
    fst (rows_of example_env true example_dict empty_world) = Ok rows
    /\ rows = map (row_in (db (snd (rows_of example_env true example_dict empty_world))) true)
                (List.filter non_equal example_dict).
Proof.
  destruct (rows_link_the_cache example_env true example_dict empty_world)
    as (Hlinks & Hrenders & _).
  destruct Hrenders as [rows Hrows].
  - intros key e [Hin | []]. inversion Hin. split; reflexivity.
  - intros url key n file. eexists. reflexivity.
  - exists rows. split; [exact Hrows | exact (Hlinks rows Hrows)].
Defined.

Example sample_rows :
  fst (rows_of example_env true example_dict empty_world)
  = Ok ["walk|![walk](https://img.example/0)|![walk](https://img.example/1)|Changed"].
Proof. vm_compute. reflexivity. Qed.

(** ** The scratch files *)

Lemma upload_image_files (E : Env) (file : list byte) (img_hash : string) (upload : bool)
    (w : World) :
  files (snd (upload_image E file img_hash upload w)) = files w.
Proof.
  destruct upload; [| reflexivity].
  destruct (db w !! img_hash) as [url|] eqn:Hdb.
  - now rewrite (upload_image_hit E file img_hash url w Hdb).
  - rewrite (upload_image_miss E file img_hash w Hdb). now destruct (host_reply E w file).
Qed.

Lemma os_remove_other (path p : string) (w : World) :
  p <> path -> files (snd (os_remove path w)) !! p = files w !! p.
Proof.
  intros Hp. unfold os_remove. destruct (lookup_file w path); [| reflexivity].
  cbn [snd set_files files]. apply lookup_delete_ne. congruence.
Qed.

(** Outside [DEBUG], the image that a cell saves is removed again, once it
    is published. *)
Lemma image_cell_files (E : Env) (send : bool) (key path : string)
    (img : option (list byte)) (img_hash : string) (w : World) (cell : string) :
  DEBUG E = false -> String.eqb path "" = false ->
  fst (image_cell E send key path img img_hash w) = Ok cell ->
  files (snd (image_cell E send key path img img_hash w)) ⊆ files w.
Proof.
  intros Hdebug Hpath. destruct img as [png|]; [| reflexivity].
  rewrite image_cell_run, Hdebug.
  destruct (writable E path); [| discriminate].
  pose proof (upload_image_files E
                (fst (read_file path (set_files (<[path := png]> (files w)) w)))
                img_hash send (set_files (<[path := png]> (files w)) w)) as Hfiles.
  destruct (upload_image E _ img_hash send _) as [[url|e] w']; [| discriminate].
  cbn [fst snd set_files files] in *. intros _.
  rewrite os_remove_files by exact Hpath. rewrite Hfiles.
  rewrite delete_insert_eq. apply delete_subseteq.
Qed.

(** A cell touches no file but its own. *)
Lemma image_cell_other (E : Env) (send : bool) (key path : string)
    (img : option (list byte)) (img_hash : string) (w : World) (p : string) :
  p <> path ->
  files (snd (image_cell E send key path img img_hash w)) !! p = files w !! p.
Proof.
  intros Hp. destruct img as [png|]; [| reflexivity].
  rewrite image_cell_run.
  destruct (writable E path); [| reflexivity].
  pose proof (upload_image_files E
                (fst (read_file path (set_files (<[path := png]> (files w)) w)))
                img_hash send (set_files (<[path := png]> (files w)) w)) as Hfiles.
  destruct (upload_image E _ img_hash send _) as [[url|e] w'];
    cbn [fst snd set_files files] in *.
  - destruct (DEBUG E); [| rewrite os_remove_other by exact Hp];
      rewrite Hfiles; apply lookup_insert_ne; congruence.
  - rewrite Hfiles. apply lookup_insert_ne. congruence.
Qed.

Lemma rows_of_files (E : Env) (send : bool) (this_dict : list (string * Entry)) (w : World)
    (rows : list string) :
  DEBUG E = false ->
  fst (rows_of E send this_dict w) = Ok rows ->
  files (snd (rows_of E send this_dict w)) ⊆ files w.
Proof.
  intros Hdebug. revert w rows.
  induction this_dict as [|[key e] rest IH]; intros w rows; [reflexivity |].
  cbn [rows_of]. destruct (String.eqb (status e) "Equal"); [apply IH |].
  rewrite !bindR_run.
  destruct (fst (image_cell E send key ("./icon_dump/old_" +:+ key +:+ ".png")
                   (img_a e) (img_a_hash e) w)) as [cell_a|] eqn:Ha; [| discriminate].
  set (w1 := snd (image_cell E send key ("./icon_dump/old_" +:+ key +:+ ".png")
                    (img_a e) (img_a_hash e) w)) in *.
  rewrite !bindR_run.
  destruct (fst (image_cell E send key ("./icon_dump/new_" +:+ key +:+ ".png")
                   (img_b e) (img_b_hash e) w1)) as [cell_b|] eqn:Hb; [| discriminate].
  set (w2 := snd (image_cell E send key ("./icon_dump/new_" +:+ key +:+ ".png")
                    (img_b e) (img_b_hash e) w1)) in *.
  rewrite !bindR_run.
  destruct (fst (rows_of E send rest w2)) as [more|] eqn:Hmore; [| discriminate].
  cbn [ret snd]. intros _.
  etransitivity; [apply (IH w2 more Hmore) |].
  etransitivity;
    [apply (image_cell_files E send key ("./icon_dump/new_" +:+ key +:+ ".png") _ _ w1 cell_b
              Hdebug eq_refl Hb) |].
  apply (image_cell_files E send key ("./icon_dump/old_" +:+ key +:+ ".png") _ _ w cell_a
           Hdebug eq_refl Ha).
Qed.

Lemma rows_of_other (E : Env) (send : bool) (this_dict : list (string * Entry)) (w : World)
    (p : string) :
  ~ is_png_path p ->
  files (snd (rows_of E send this_dict w)) !! p = files w !! p.
Proof.
  intros Hp. revert w.
  induction this_dict as [|[key e] rest IH]; intros w; [reflexivity |].
  cbn [rows_of]. destruct (String.eqb (status e) "Equal"); [apply IH |].
  assert (Hold : p <> "./icon_dump/old_" +:+ key +:+ ".png")
    by (intros ->; apply Hp; exists key; now left).
  assert (Hnew : p <> "./icon_dump/new_" +:+ key +:+ ".png")
    by (intros ->; apply Hp; exists key; now right).
  rewrite bindR_run.
  pose proof (image_cell_other E send key _ (img_a e) (img_a_hash e) w p Hold) as Ha.
  destruct (image_cell E send key ("./icon_dump/old_" +:+ key +:+ ".png")
              (img_a e) (img_a_hash e) w) as [[cell_a|ea] w1]; cbn [fst snd] in *;
    [| exact Ha].
  rewrite bindR_run.
  pose proof (image_cell_other E send key _ (img_b e) (img_b_hash e) w1 p Hnew) as Hb.
  destruct (image_cell E send key ("./icon_dump/new_" +:+ key +:+ ".png")
              (img_b e) (img_b_hash e) w1) as [[cell_b|eb] w2]; cbn [fst snd] in *;
    [| now rewrite Hb].
  rewrite bindR_run. pose proof (IH w2) as Hrest.
  destruct (rows_of E send rest w2) as [[more|er] w3]; cbn [fst snd ret] in *;
    now rewrite Hrest, Hb.
Qed.

Lemma suffix_differs (a b : string) : a +:+ ".dmi" <> b +:+ ".png".
Proof.
  assert (Hlen : forall a b : string,
            a +:+ ".dmi" = b +:+ ".png" -> String.length a = String.length b).
  { intros x y H. apply (f_equal String.length) in H.
    rewrite !append_length in H. cbn [String.length] in H. lia. }
  revert b. induction a as [|c a IH]; intros [|d b] H; pose proof (Hlen _ _ H) as Hl;
    try discriminate Hl.
  - discriminate H.
  - rewrite !append_cons in H. injection H as _ H. now apply (IH b).
Qed.

Lemma sheet_is_no_png (icon : string) :
  ~ is_png_path (old_path icon) /\ ~ is_png_path (new_path icon).
Proof.
  unfold is_png_path, old_path, new_path.
  split; intros [key [H | H]]; rewrite !append_cons, !append_nil_l in H;
    try discriminate H; injection H as H; now apply suffix_differs in H.
Qed.

Lemma remove_if_exists_files (path : string) (w : World) :
  files (snd (remove_if_exists path w))
  = if String.eqb path "" then files w else delete path (files w).
Proof.
  unfold remove_if_exists. rewrite bind_run.
  change (snd (os_path_exists path w)) with w.
  destruct (fst (os_path_exists path w)) eqn:Hthere;
    unfold os_path_exists, lookup_file in Hthere; cbn [fst] in Hthere;
    destruct (String.eqb path "") eqn:Hpath.
  - apply bool_decide_eq_true in Hthere. now destruct Hthere.
  - rewrite bind_run. cbn [ret snd]. now apply os_remove_files.
  - reflexivity.
  - apply bool_decide_eq_false in Hthere. cbn [ret snd]. symmetry. apply delete_id.
    destruct (files w !! path); [destruct Hthere; eauto | reflexivity].
Qed.

(** Outside [DEBUG], the rendering that returns has removed the two
    scratch copies. *)
Lemma compare_and_render_files (E : Env) (issue_url icon i_name a b : string) (send : bool)
    (w : World) (o : option string) :
  DEBUG E = false -> String.eqb b "" = false ->
  compare_two_icon_files E (files w) a b <> [] ->
  fst (compare_and_render E issue_url icon i_name a b send w) = Ok o ->
  files (snd (compare_and_render E issue_url icon i_name a b send w)) ⊆ files w
  /\ files (snd (compare_and_render E issue_url icon i_name a b send w)) !! b = None
  /\ (String.eqb a "" = false ->
      files (snd (compare_and_render E issue_url icon i_name a b send w)) !! a = None).
Proof.
  intros Hdebug Hb Hdict. rewrite compare_and_render_run.
  destruct (compare_two_icon_files E (files w) a b) as [|entry rest] eqn:Hcmp;
    [now destruct Hdict |].
  unfold render_block. rewrite Hdebug, bindR_run.
  set (w0 := snd (emit (Compare a b) w)).
  pose proof (fun rows => rows_of_files E send (entry :: rest) w0 rows Hdebug) as Hrows.
  destruct (rows_of E send (entry :: rest) w0) as [[rows|e] w1]; cbn [fst snd] in *;
    [| discriminate].
  specialize (Hrows rows eq_refl). change (files w0) with (files w) in Hrows.
  rewrite bindR_run, !bind_run. cbn [ret fst snd]. intros _.
  rewrite !remove_if_exists_files, Hb.
  split; [| split].
  - etransitivity; [apply delete_subseteq |].
    destruct (String.eqb a ""); [exact Hrows |].
    etransitivity; [apply delete_subseteq | exact Hrows].
  - apply lookup_delete_eq.
  - intros Ha. rewrite Ha.
    destruct (decide (b = a)) as [->|Hne]; [apply lookup_delete_eq |].
    rewrite lookup_delete_ne by exact Hne. apply lookup_delete_eq.
Qed.

(** Outside [DEBUG], the rendering that raises has touched no file but the
    image files of the rows. *)
Lemma compare_and_render_raises (E : Env) (issue_url icon i_name a b : string) (send : bool)
    (w : World) (e : exn) (p : string) :
  DEBUG E = false -> ~ is_png_path p ->
  fst (compare_and_render E issue_url icon i_name a b send w) = Raise e ->
  files (snd (compare_and_render E issue_url icon i_name a b send w)) !! p = files w !! p.
Proof.
  intros Hdebug Hp. rewrite compare_and_render_run.
  destruct (compare_two_icon_files E (files w) a b) as [|entry rest]; [discriminate |].
  unfold render_block. rewrite Hdebug, bindR_run.
  set (w0 := snd (emit (Compare a b) w)).
  pose proof (rows_of_other E send (entry :: rest) w0 p Hp) as Hrows.
  destruct (rows_of E send (entry :: rest) w0) as [[rows|e'] w1]; cbn [fst snd] in *.
  - rewrite bindR_run, !bind_run. discriminate.
  - intros _. exact Hrows.
Qed.

Lemma staged_other (E : Env) (url_a url_b icon : string)
    (fs : gmap string (list byte)) (p : string) :
  p <> old_path icon -> p <> new_path icon -> staged E url_a url_b icon fs !! p = fs !! p.
Proof.
  intros Hold Hnew. unfold staged.
  destruct (status_code (remote E url_b) =? 200);
    destruct (status_code (remote E url_a) =? 200);
    rewrite ?lookup_insert_ne by congruence; reflexivity.
Qed.

(** What is staged for a side whose status is 200. *)
Lemma staged_copies (E : Env) (url_a url_b icon : string) (fs : gmap string (list byte)) :
  (status_code (remote E url_b) = 200 ->
   staged E url_a url_b icon fs !! new_path icon = Some (content (remote E url_b)))
  /\ (status_code (remote E url_a) = 200 ->
      staged E url_a url_b icon fs !! old_path icon = Some (content (remote E url_a))).
Proof.
  unfold staged. split; intros H200; rewrite H200; cbn [Z.eqb Pos.eqb].
  - apply lookup_insert_eq.
  - destruct (status_code (remote E url_b) =? 200).
    + rewrite lookup_insert_ne by (intros Heq; now apply (old_new_differ icon)).
      apply lookup_insert_eq.
    + apply lookup_insert_eq.
Qed.

Lemma new_path_not_empty (icon : string) : String.eqb (new_path icon) "" = false.
Proof. reflexivity. Qed.

(** X9.  Outside [DEBUG], a path whose compare result is not empty and whose
    rendering returns leaves the scratch directory clean: after the loop body
    no scratch copy of either side is left, and every file that is there was
    there before, with the same content.  When the rendering raises (an image
    that cannot be saved or published), the cleaning is not reached: the
    scratch copies of the two sides stay.  (The two sides hold their [ref],
    and the scratch copies can be created.) *)
Theorem scratch_is_cleaned (E : Env)
    (base_repo_url head_repo_url base head base_ref head_ref : json) (issue_url : string)
    (send : bool) (icon : string) (w : World) :
  getitem base "ref" = Ok base_ref ->
  getitem head "ref" = Ok head_ref ->
  let url_a := blob_url base_repo_url base_ref icon in
  let url_b := blob_url head_repo_url head_ref icon in
  let run := check_icon E base_repo_url head_repo_url base head issue_url send icon w in
  DEBUG E = false ->
  status_code (remote E url_b) <> 404 ->
  can_stage E url_a url_b icon ->
  compare_two_icon_files E (staged E url_a url_b icon (files w))
    (path_a_of E url_a icon) (new_path icon) <> [] ->
  (forall o : option string,
     fst run = Ok o ->
     files (snd run) ⊆ files w
     /\ files (snd run) !! new_path icon = None
     /\ (status_code (remote E url_a) <> 404 -> files (snd run) !! old_path icon = None))
  /\ (forall e : exn,
        fst run = Raise e ->
        (status_code (remote E url_b) = 200 ->
         files (snd run) !! new_path icon = Some (content (remote E url_b)))
        /\ (status_code (remote E url_a) = 200 ->
            files (snd run) !! old_path icon = Some (content (remote E url_a)))).
Proof.
  intros Hra Hrb url_a url_b run Hdebug Hhead Hstage Hdict.
  assert (Hrun : run
                 = compare_and_render E issue_url icon (re_sub_group1 name_regex icon)
                     (path_a_of E url_a icon) (new_path icon) send
                     (fetched E url_a url_b icon w)).
  { unfold run.
    rewrite (check_icon_run E base_repo_url head_repo_url base head base_ref head_ref
               issue_url send icon w Hra Hrb Hstage).
    fold url_a url_b. apply Z.eqb_neq in Hhead. rewrite Hhead.
    now destruct (status_code (remote E url_b) =? 200). }
  rewrite Hrun. split.
  - intros o Ho.
    destruct (compare_and_render_files E issue_url icon (re_sub_group1 name_regex icon)
                (path_a_of E url_a icon) (new_path icon) send (fetched E url_a url_b icon w) o
                Hdebug (new_path_not_empty icon) Hdict Ho) as (Hsub & Hnew & Hold).
    assert (Hold' : status_code (remote E url_a) <> 404 ->
                    files (snd (compare_and_render E issue_url icon
                                  (re_sub_group1 name_regex icon) (path_a_of E url_a icon)
                                  (new_path icon) send (fetched E url_a url_b icon w)))
                    !! old_path icon = None).
    { intros Hbase. apply Z.eqb_neq in Hbase.
      assert (Ha : path_a_of E url_a icon = old_path icon)
        by (unfold path_a_of; now rewrite Hbase).
      rewrite Ha in Hold |- *. apply Hold, old_path_not_empty. }
    split; [| split; [exact Hnew | exact Hold']].
    apply map_subseteq_spec. intros p data Hp.
    assert (Hstaged : staged E url_a url_b icon (files w) !! p = Some data)
      by (revert Hp; apply (proj1 (map_subseteq_spec _ _) Hsub)).
    assert (Hnot_new : p <> new_path icon) by (intros ->; congruence).
    destruct (decide (p = old_path icon)) as [-> | Hnot_old].
    + destruct (Z.eq_dec (status_code (remote E url_a)) 404) as [H404 | H404].
      * rewrite <- Hstaged. symmetry. apply staged_untouched. rewrite H404. discriminate.
      * rewrite (Hold' H404) in Hp. discriminate Hp.
    + now rewrite <- (staged_other E url_a url_b icon (files w) p Hnot_old Hnot_new).
  - intros e He. destruct (sheet_is_no_png icon) as [Hold Hnew].
    rewrite !(compare_and_render_raises E issue_url icon _ _ _ send _ e _ Hdebug) by assumption.
    apply staged_copies.
Qed.

Lemma scratch_is_cleaned_witness :
  files (snd (check_icon example_env (JStr "https://github.com/o/r")
                (JStr "https://github.com/fork/r") example_base example_head example_issue
                true "icons/test.dmi" empty_world)) ⊆ ∅
  /\ files (snd (check_icon example_env (JStr "https://github.com/o/r")
                   (JStr "https://github.com/fork/r") example_base example_head example_issue
                   true "icons/test.dmi" empty_world)) !! new_path "icons/test.dmi" = None.
Proof.
  destruct (scratch_is_cleaned example_env (JStr "https://github.com/o/r")
              (JStr "https://github.com/fork/r") example_base example_head
              (JStr "master") (JStr "patch") example_issue true "icons/test.dmi" empty_world)
    as [Hclean _];
    [reflexivity | reflexivity | reflexivity | vm_compute; discriminate
    | split; reflexivity | discriminate |].
  destruct (Hclean (Some (block_of "icons/test.dmi"
              ["walk|![walk](https://img.example/0)|![walk](https://img.example/1)|Changed"])))
    as (Hsub & Hnew & _); [vm_compute; reflexivity |].
  split; [exact Hsub | exact Hnew].
Defined.

(** A reply of the image host without a URL ends the rendering: the two
    copies of the sheet and the image that was being published stay. *)
Example raise_leaves_scratch :
  fst (check_icon mute_env (JStr "https://github.com/o/r") (JStr "https://github.com/fork/r")
         example_base example_head example_issue true "icons/test.dmi" empty_world)
  = Raise (KeyError "url")
  /\ map fst (map_to_list
                (files (snd (check_icon mute_env (JStr "https://github.com/o/r")
                               (JStr "https://github.com/fork/r") example_base example_head
                               example_issue true "icons/test.dmi" empty_world))))
     = ["./icon_dump/old_walk.png"; "./icon_dump/old_test.dmi"; "./icon_dump/new_test.dmi"].
Proof. split; vm_compute; reflexivity. Qed.

(** X10.  When the compare result is empty, the loop body goes to the next path
    before the cleaning: no block is appended, nothing is published, and the
    scratch copies of the two sides stay in the scratch directory, whatever
    [DEBUG] is.  (The two sides hold their [ref], and the scratch copies can
    be created.) *)
Theorem empty_result_leaves_scratch (E : Env)
    (base_repo_url head_repo_url base head base_ref head_ref : json) (issue_url : string)
    (send : bool) (icon : string) (w : World) :
  getitem base "ref" = Ok base_ref ->
  getitem head "ref" = Ok head_ref ->
  let url_a := blob_url base_repo_url base_ref icon in
  let url_b := blob_url head_repo_url head_ref icon in
  let run := check_icon E base_repo_url head_repo_url base head issue_url send icon w in
  status_code (remote E url_b) <> 404 ->
  can_stage E url_a url_b icon ->
  compare_two_icon_files E (staged E url_a url_b icon (files w))
    (path_a_of E url_a icon) (new_path icon) = [] ->
  fst run = Ok None
  /\ files (snd run) = staged E url_a url_b icon (files w)
  /\ events (snd run)
     = (events w ++ [Get url_a; Get url_b; Compare (path_a_of E url_a icon) (new_path icon)])%list
  /\ db (snd run) = db w
  /\ (status_code (remote E url_b) = 200 ->
      files (snd run) !! new_path icon = Some (content (remote E url_b)))
  /\ (status_code (remote E url_a) = 200 ->
      files (snd run) !! old_path icon = Some (content (remote E url_a))).
Proof.
  intros Hra Hrb url_a url_b run Hhead Hstage Hdict.
  assert (Hrun : run
                 = (Ok None, snd (emit (Compare (path_a_of E url_a icon) (new_path icon))
                                    (fetched E url_a url_b icon w)))).
  { unfold run.
    rewrite (check_icon_run E base_repo_url head_repo_url base head base_ref head_ref
               issue_url send icon w Hra Hrb Hstage).
    fold url_a url_b. apply Z.eqb_neq in Hhead. rewrite Hhead.
    assert (Hcr : compare_and_render E issue_url icon (re_sub_group1 name_regex icon)
                    (path_a_of E url_a icon) (new_path icon) send
                    (fetched E url_a url_b icon w)
                  = (Ok None, snd (emit (Compare (path_a_of E url_a icon) (new_path icon))
                                     (fetched E url_a url_b icon w)))).
    { rewrite compare_and_render_run. cbn [fetched files]. now rewrite Hdict. }
    rewrite Hcr. now destruct (status_code (remote E url_b) =? 200). }
  rewrite Hrun, emit_run. cbn [fst snd files events db fetched].
  split; [reflexivity |]. split; [reflexivity |].
  split; [now rewrite <- app_assoc |]. split; [reflexivity |].
  apply staged_copies.
Qed.

Lemma empty_result_leaves_scratch_witness :
  files (snd (check_icon silent_env (JStr "https://github.com/o/r")
                (JStr "https://github.com/fork/r") example_base example_head example_issue
                true "icons/test.dmi" empty_world)) !! new_path "icons/test.dmi"
  = Some (bytes_of "new sheet").
Proof.
  destruct (empty_result_leaves_scratch silent_env (JStr "https://github.com/o/r")
              (JStr "https://github.com/fork/r") example_base example_head
              (JStr "master") (JStr "patch") example_issue true "icons/test.dmi" empty_world)
    as (_ & _ & _ & _ & Hnew & _);
    [reflexivity | reflexivity | vm_compute; discriminate | split; reflexivity
    | reflexivity |].
  apply Hnew. reflexivity.
Defined.

(** ** More on the bot comment *)

Lemma identity_patch (url body : string) (c : Comment) :
  identity (patch_body url body c) = identity c.
Proof. unfold patch_body. now destruct (String.eqb (c_url c) url). Qed.

Lemma post_comment_files_db (E : Env) (issue_url : string) (message_dict : list string)
    (base : json) (w : World) :
  files (snd (post_comment E issue_url message_dict base w)) = files w
  /\ db (snd (post_comment E issue_url message_dict base w)) = db w.
Proof.
  apply (preserves_post_comment (fun w' => files w' = files w /\ db w' = db w)
           (fun _ => True)); try (intros; exact I); try (intros; assumption).
  now split.
Qed.

(** X11.  [post_comment] never deletes a comment and never changes who wrote a
    comment or where it is: the comments after the call are the comments
    before it, in the same order and with the same URLs, listings and authors,
    followed by at most one new comment; and a comment whose URL is not the
    URL of a comment of the bot on the issue is left as it is when the listing
    is served.  The scratch files and the upload cache are not touched. *)
Theorem post_comment_never_deletes (E : Env) (issue_url : string)
    (message_dict : list string) (base : json) (w : World) :
  (length (comments w)
   <= length (comments (snd (post_comment E issue_url message_dict base w)))
   <= S (length (comments w)))%nat
  /\ map identity (firstn (length (comments w))
                     (comments (snd (post_comment E issue_url message_dict base w))))
     = map identity (comments w)
  /\ (outcome_at 0 w = Served ->
      forall c : Comment,
        In c (comments w) ->
        (forall b : Comment, In b (bot_comments E issue_url w) -> c_url b <> c_url c) ->
        In c (comments (snd (post_comment E issue_url message_dict base w))))
  /\ files (snd (post_comment E issue_url message_dict base w)) = files w
  /\ db (snd (post_comment E issue_url message_dict base w)) = db w.
Proof.
  destruct (repo_full_name base) as [name|e] eqn:Hname.
  2: { rewrite (post_comment_raises E issue_url message_dict base e w Hname). cbn [snd].
       rewrite firstn_all. repeat split; (lia || auto). }
  destruct (post_comment_run E issue_url message_dict base name w Hname) as (Hc & _ & _).
  rewrite Hc. unfold written.
  split; [| split; [| split; [| apply post_comment_files_db]]].
  - destruct (outcome_at 1 w); [| lia].
    destruct (listed E (issue_url +:+ "/comments") w);
      rewrite ?length_map, ?length_app; simpl; lia.
  - destruct (outcome_at 1 w); [| now rewrite firstn_all].
    destruct (listed E (issue_url +:+ "/comments") w) as [target|].
    + rewrite firstn_all2 by (rewrite length_map; lia).
      rewrite map_map. apply map_ext. intros c. apply identity_patch.
    + now rewrite take_app_length.
  - intros Hserved c Hin Hother.
    destruct (outcome_at 1 w); [| exact Hin].
    rewrite (listed_served E issue_url w Hserved).
    destruct (bot_comments E issue_url w) as [|b bs] eqn:Hbot;
      cbn [head fmap option_fmap option_map].
    + apply in_or_app. now left.
    + apply in_map_iff. exists c. split; [| exact Hin].
      unfold patch_body. destruct (String.eqb_spec (c_url c) (c_url b)) as [Heq|]; [| reflexivity].
      destruct (Hother b); [now left | now symmetry].
Qed.

Lemma api_post_fst_replied (url body : string) (auth : string * string) (w : World)
    (r : ApiReply) :
  outcome_at 0 w = Replied r -> fst (api_post url body auth w) = r.
Proof.
  unfold api_post, outcome_at. rewrite bind_run. cbn [emit fst snd]. unfold next_outcome.
  cbn [net]. destruct (net w) as [|[|r'] rest]; cbn [nth]; intros H; inversion H; reflexivity.
Qed.

Lemma api_patch_fst_replied (url body : string) (auth : string * string) (w : World)
    (r : ApiReply) :
  outcome_at 0 w = Replied r -> fst (api_patch url body auth w) = r.
Proof.
  unfold api_patch, outcome_at. rewrite bind_run. cbn [emit fst snd]. unfold next_outcome.
  cbn [net]. destruct (net w) as [|[|r'] rest]; cbn [nth]; intros H; inversion H; reflexivity.
Qed.

(** X12.  A write that the platform refuses does not raise: when the reply to
    the POST or PATCH has a status other than 200 and 201, [post_comment]
    returns after logging the failure and the status code, these two messages
    being the last events, and the comments are as before.  ([base] holds the
    name of its repository, which the messages carry.) *)
Theorem post_comment_logs_failure (E : Env) (issue_url : string)
    (message_dict : list string) (base name : json) (w : World) (r : ApiReply) :
  repo_full_name base = Ok name ->
  outcome_at 1 w = Replied r ->
  r_status r <> 200 -> r_status r <> 201 ->
  fst (post_comment E issue_url message_dict base w) = Ok tt
  /\ comments (snd (post_comment E issue_url message_dict base w)) = comments w
  /\ exists before : list Event,
       events (snd (post_comment E issue_url message_dict base w))
       = (before ++ [Log ("[" +:+ json_format name +:+ "] Failed to comment on: "
                          +:+ issue_url);
                     Log ("Error code: " +:+ pretty (r_status r))])%list.
Proof.
  intros Hname Hr H200 H201.
  split; [now apply (post_comment_fst E issue_url message_dict base name) |]. split.
  { destruct (post_comment_run E issue_url message_dict base name w Hname) as (-> & _ & _).
    unfold written. now rewrite Hr. }
  apply Z.eqb_neq in H200, H201.
  assert (Hnext : forall w1, net w1 = tl (net w) -> outcome_at 0 w1 = Replied r).
  { intros w1 Hnet. unfold outcome_at in *. now rewrite Hnet, nth_tail. }
  unfold post_comment. rewrite Hname, bindR_ok, bind_run.
  destruct (fst (check_comments E (issue_url +:+ "/comments") w)) as [target|];
    rewrite !bind_run.
  - rewrite (api_patch_fst_replied _ _ _ _ r)
      by (apply Hnext; rewrite log_message_snd, check_comments_snd; reflexivity).
    rewrite H200, H201. cbn [orb]. rewrite bind_run. cbn [ret snd].
    rewrite !log_message_snd. cbn [snd events].
    rewrite <- app_assoc. cbn [app]. eexists. reflexivity.
  - rewrite (api_post_fst_replied _ _ _ _ r)
      by (apply Hnext; rewrite check_comments_snd; reflexivity).
    rewrite H200, H201. cbn [orb]. rewrite bind_run. cbn [ret snd].
    rewrite !log_message_snd. cbn [snd events].
    rewrite <- app_assoc. cbn [app]. eexists. reflexivity.
Qed.

Lemma post_comment_logs_failure_witness :
  exists before : list Event,
    events (snd (post_comment example_env example_issue ["Icons with diff:"] example_base
                   (set_net [Served; Replied outage] empty_world)))
    = (before ++ [Log "[o/r] Failed to comment on: https://api.github.com/repos/o/r/issues/7";
                  Log "Error code: 500"])%list.
Proof.
  destruct (post_comment_logs_failure example_env example_issue ["Icons with diff:"]
              example_base (JStr "o/r") (set_net [Served; Replied outage] empty_world) outage)
    as (_ & _ & H);
    [reflexivity | reflexivity | discriminate | discriminate | exact H].
Defined.

(** X13.  Comments of the bot are never merged: when the bot already has
    comments on the issue and the listing is served, the call PATCHes the
    oldest of them and creates none, the bot has as many comments after the
    call as before, and the later ones whose URL differs keep their body.
    ([base] holds the name of its repository, which the call reads first.) *)
Theorem oldest_comment_is_updated (E : Env) (issue_url : string)
    (message_dict : list string) (base name : json) (w : World) (c : Comment)
    (rest : list Comment) :
  repo_full_name base = Ok name ->
  outcome_at 0 w = Served ->
  bot_comments E issue_url w = c :: rest ->
  List.filter is_write (events (snd (post_comment E issue_url message_dict base w)))
  = (List.filter is_write (events w)
     ++ [PatchComment (c_url c) (String.concat (String newline "") message_dict)])%list
  /\ length (bot_comments E issue_url (snd (post_comment E issue_url message_dict base w)))
     = S (length rest)
  /\ (forall c' : Comment,
        In c' rest -> c_url c' <> c_url c ->
        In c' (bot_comments E issue_url (snd (post_comment E issue_url message_dict base w)))).
Proof.
  intros Hname Hserved Hbot.
  pose proof (listed_served E issue_url w Hserved) as Hlisted.
  rewrite Hbot in Hlisted. cbn [head fmap option_fmap option_map] in Hlisted.
  split; [| split].
  - rewrite (post_comment_writes E issue_url message_dict base name w Hname).
    unfold write_event. now rewrite Hlisted.
  - rewrite (bot_comments_written E issue_url message_dict base name w Hname), Hlisted, Hbot.
    destruct (outcome_at 1 w); [now rewrite length_map | reflexivity].
  - intros c' Hin Hne.
    rewrite (bot_comments_written E issue_url message_dict base name w Hname), Hlisted, Hbot.
    destruct (outcome_at 1 w); [| now right].
    apply in_map_iff. exists c'. split; [| now right].
    unfold patch_body. destruct (String.eqb_spec (c_url c') (c_url c)); [contradiction | reflexivity].
Qed.

Lemma oldest_comment_is_updated_witness :
  length (bot_comments example_env example_issue
            (snd (post_comment example_env example_issue ["Icons with diff:"] example_base
                    (set_comments [bot_comment; second_bot_comment] empty_world))))
  = 2%nat.
Proof.
  destruct (oldest_comment_is_updated example_env example_issue ["Icons with diff:"]
              example_base (JStr "o/r")
              (set_comments [bot_comment; second_bot_comment] empty_world)
              bot_comment [second_bot_comment]) as (_ & H & _);
    [reflexivity | reflexivity | reflexivity | exact H].
Defined.

(** ** The report as a whole *)

Lemma icons_loop_writes (E : Env) (base_repo_url head_repo_url base head : json)
    (issue_url : string) (send : bool) (icons_with_diff : list string) (w : World) :
  List.filter is_write
    (events (snd (for_each (check_icon E base_repo_url head_repo_url base head issue_url send)
                    icons_with_diff w)))
  = List.filter is_write (events w).
Proof.
  apply (trace_icons_loop (fun evs => List.filter is_write evs = List.filter is_write (events w))
           (fun e => is_write e = false)); try reflexivity.
  intros evs e. apply filter_snoc_other.
Qed.

(** X14.  A run with [send_message] makes one write when the loop returns with
    a block and none when it returns without one.  The one write carries the
    header line followed by the blocks in the order of the paths, joined by
    newlines; it is a PATCH of the comment that the listing found, else a POST
    on the listing.  When the loop raises (an image that cannot be saved or
    published, a side without its [ref]), the run raises with it and nothing
    is written, whatever blocks were rendered before; and when [base] does not
    hold the name of its repository, the run raises before the comment API is
    called.  (The two sides hold the URL of their repository, which the run
    reads first.) *)
Theorem report_is_one_write (E : Env) (icons_with_diff : list string)
    (base head base_repo_url head_repo_url : json) (issue_url : string) (w : World) :
  repo_html_url base = Ok base_repo_url ->
  repo_html_url head = Ok head_repo_url ->
  let loop := for_each (check_icon E base_repo_url head_repo_url base head issue_url true)
                icons_with_diff w in
  let run := check_icons E icons_with_diff base head issue_url true w in
  (forall e : exn,
     fst loop = Raise e ->
     fst run = Raise e
     /\ List.filter is_write (events (snd run)) = List.filter is_write (events w)
     /\ List.filter is_api (events (snd run)) = List.filter is_api (events w))
  /\ (fst loop = Ok [] ->
      fst run = Ok tt
      /\ List.filter is_write (events (snd run)) = List.filter is_write (events w))
  /\ (forall blocks : list string,
        fst loop = Ok blocks -> blocks <> [] ->
        let body := String.concat (String newline "") ("Icons with diff:" :: blocks) in
        (forall name : json,
           repo_full_name base = Ok name ->
           fst run = Ok tt
           /\ exists target : option string,
                List.filter is_write (events (snd run))
                = (List.filter is_write (events w)
                   ++ [match target with
                       | Some url => PatchComment url body
                       | None => PostComment (issue_url +:+ "/comments") body
                       end])%list)
        /\ (forall e : exn,
              repo_full_name base = Raise e ->
              fst run = Raise e
              /\ List.filter is_api (events (snd run)) = List.filter is_api (events w))).
Proof.
  intros Ha Hb loop run.
  pose proof (check_icons_run E icons_with_diff base head base_repo_url head_repo_url
                issue_url true w Ha Hb) as Hrun.
  fold loop run in Hrun.
  pose proof (icons_loop_writes E base_repo_url head_repo_url base head issue_url true
                icons_with_diff w) as Hwrites.
  assert (Hapi : List.filter is_api (events (snd loop)) = List.filter is_api (events w)).
  { apply (trace_icons_loop (fun evs => List.filter is_api evs = List.filter is_api (events w))
             (fun e => is_api e = false)); try reflexivity.
    intros evs e. apply filter_snoc_other. }
  fold loop in Hwrites. rewrite Hrun. clear Hrun.
  destruct loop as [[blocks|e0] w']; cbn [fst snd andb] in *.
  - split; [discriminate |]. split.
    + intros Hnil. inversion Hnil. cbn [length Nat.ltb Nat.leb fst snd]. now split.
    + intros blocks' Hblocks Hne. inversion Hblocks; subst blocks'.
      assert ((1 <? length ("Icons with diff:" :: blocks))%nat = true) as ->.
      { destruct blocks; [now destruct Hne | reflexivity]. }
      split.
      * intros name Hname.
        split; [now apply (post_comment_fst E issue_url _ base name) |].
        rewrite (post_comment_writes E issue_url _ base name w' Hname), Hwrites.
        unfold write_event. eexists. reflexivity.
      * intros e Hname. rewrite (post_comment_raises E issue_url _ base e w' Hname).
        now split.
  - split; [| split; [discriminate | intros blocks' Hblocks; discriminate Hblocks]].
    intros e He. inversion He; subst e0. now repeat split.
Qed.

Lemma report_is_one_write_witness :
  length (List.filter is_write
            (events (snd (check_icons example_env ["icons/test.dmi"] example_base example_head
                            example_issue true empty_world)))) = 1%nat.
Proof.
  destruct (report_is_one_write example_env ["icons/test.dmi"] example_base example_head
              (JStr "https://github.com/o/r") (JStr "https://github.com/fork/r")
              example_issue empty_world) as (_ & _ & H); [reflexivity | reflexivity |].
  edestruct H as [Hname _]; [vm_compute; reflexivity | discriminate |].
  destruct (Hname (JStr "o/r")) as [_ [target Hwrite]]; [reflexivity |].
  now rewrite Hwrite.
Defined.

(** A block that is rendered is not reported when a later path raises:
    the first sheet gives a block, the second has a state whose image cannot
    be saved, and no comment is written. *)
Example raise_drops_the_report :
  fst (check_icons late_slash_env ["icons/test.dmi"; "icons/a.dmi"] example_base example_head
         example_issue true empty_world)
  = Raise (OSError "./icon_dump/old_a/b.png")
  /\ List.filter is_api
       (events (snd (check_icons late_slash_env ["icons/test.dmi"; "icons/a.dmi"]
                       example_base example_head example_issue true empty_world))) = []
  /\ List.filter is_upload
       (events (snd (check_icons late_slash_env ["icons/test.dmi"; "icons/a.dmi"]
                       example_base example_head example_issue true empty_world)))
     = [Upload "h1" (bytes_of "png1"); Upload "h2" (bytes_of "png2")].
Proof. split; [| split]; vm_compute; reflexivity. Qed.

(** ** The ignore list *)

Lemma lower_char_not_upper (c : ascii) : is_upper (lower_char c) = false.
Proof. destruct c as [[] [] [] [] [] [] [] []]; reflexivity. Qed.

Lemma lower_not_upper (s : string) : all_chars (fun c => negb (is_upper c)) (lower s) = true.
Proof.
  induction s as [|c s IH]; [reflexivity |].
  cbn [lower all_chars]. now rewrite lower_char_not_upper, IH.
Qed.

(** X15.  The login is lowered before it is looked up, the entries of the
    ignore list are not: an entry with an uppercase letter matches no login,
    so a list made of such entries ignores nobody. *)
Theorem uppercase_entry_never_matches (config : Config) (login : string) :
  Forall (fun entry => all_chars (fun c => negb (is_upper c)) entry = false)
         (ignore_list config) ->
  existsb (String.eqb (lower login)) (ignore_list config) = false.
Proof.
  induction 1 as [|entry entries Hentry _ IH]; [reflexivity |].
  cbn [existsb]. rewrite IH, orb_false_r. apply String.eqb_neq. intros Heq.
  rewrite <- Heq, lower_not_upper in Hentry. discriminate Hentry.
Qed.

Lemma uppercase_entry_never_matches_witness :
  existsb (String.eqb (lower "Dependabot"))
    (ignore_list {| webhook_port := 8080; github_secret := bytes_of "a";
                    github_user := "icon-bot"; github_auth := "token";
                    upload_api_url := "https://img.example/upload";
                    upload_api_key := "key"; ignore_list := ["Dependabot"] |})
  = false.
Proof.
  apply uppercase_entry_never_matches. repeat constructor.
Defined.

(** ** The scratch names *)

Lemma name_regex_no_slash (s : string) (open : bool) (g : string) :
  occurs "/" s = false -> match_at name_regex open g s = None.
Proof.
  intros Hocc. unfold name_regex. cbn [match_at].
  apply (star_no_occurrence Dot _ "/"); [| exact Hocc].
  intros o g' v Hv. cbn [match_at]. now rewrite Hv.
Qed.

Lemma occurs_tail (l : string) (c : ascii) (s : string) :
  occurs l (String c s) = false -> occurs l s = false.
Proof. cbn [occurs]. now destruct (strip_prefix l (String c s)). Qed.

Lemma sub_group1_no_slash (fuel : nat) (s : string) :
  occurs "/" s = false -> sub_group1 fuel name_regex s = s.
Proof.
  revert s. induction fuel as [|fuel IH]; intros s Hocc; [reflexivity |].
  cbn [sub_group1]. rewrite (name_regex_no_slash s false "" Hocc).
  destruct s as [|c s]; [reflexivity |]. now rewrite (IH s (occurs_tail "/" c s Hocc)).
Qed.

Lemma name_regex_match (d n : string) :
  all_chars (in_class Dot) d = true -> all_chars (in_class Dot) n = true ->
  has_char "/" n = false ->
  match_at name_regex false "" (d +:+ "/" +:+ n +:+ ".dmi") = Some (n, "").
Proof.
  intros Hd Hn Hslash. unfold name_regex. cbn [match_at].
  apply star_extend; [exact Hd |].
  change ("/" +:+ n +:+ ".dmi") with (String "/" (n +:+ ".dmi")).
  cbn [star]. change (in_class Dot "/") with true. cbn iota.
  rewrite (star_no_occurrence Dot _ "/").
  - cbn [match_at strip_prefix]. rewrite Ascii.eqb_refl.
    apply star_extend; [exact Hn |]. cbn [capture]. rewrite append_nil_l. reflexivity.
  - intros o g' v Hv. cbn [match_at]. now rewrite Hv.
  - apply (occurs_missing_char "/"); [reflexivity |].
    unfold has_char in *. rewrite all_chars_app. apply negb_false_iff in Hslash.
    now rewrite Hslash.
Qed.

(** X16.  The scratch files of a path are named after its base name alone: for
    a path with a directory, the name is what stands between the last slash
    and the final [.dmi], so two sheets of the same base name in different
    directories share their scratch files; a path without any slash keeps its
    whole text, [.dmi] included. *)
Theorem scratch_name_is_base_name (d n : string) :
  all_chars (in_class Dot) d = true -> all_chars (in_class Dot) n = true ->
  has_char "/" n = false ->
  re_sub_group1 name_regex (d +:+ "/" +:+ n +:+ ".dmi") = n
  /\ old_path (d +:+ "/" +:+ n +:+ ".dmi") = "./icon_dump/old_" +:+ n +:+ ".dmi"
  /\ new_path (d +:+ "/" +:+ n +:+ ".dmi") = "./icon_dump/new_" +:+ n +:+ ".dmi"
  /\ (forall d' : string,
        all_chars (in_class Dot) d' = true ->
        old_path (d' +:+ "/" +:+ n +:+ ".dmi") = old_path (d +:+ "/" +:+ n +:+ ".dmi")
        /\ new_path (d' +:+ "/" +:+ n +:+ ".dmi") = new_path (d +:+ "/" +:+ n +:+ ".dmi"))
  /\ re_sub_group1 name_regex (n +:+ ".dmi") = n +:+ ".dmi".
Proof.
  intros Hd Hn Hslash.
  assert (Hname : forall d0 : string,
    all_chars (in_class Dot) d0 = true ->
    re_sub_group1 name_regex (d0 +:+ "/" +:+ n +:+ ".dmi") = n).
  { intros d0 Hd0. unfold re_sub_group1. cbn [sub_group1].
    rewrite (name_regex_match d0 n Hd0 Hn Hslash).
    assert ((String.length "" <? String.length (d0 +:+ "/" +:+ n +:+ ".dmi"))%nat = true) as ->.
    { apply Nat.ltb_lt. rewrite !append_length. simpl. lia. }
    rewrite sub_group1_no_slash by reflexivity. apply append_nil_r. }
  split; [now apply Hname |].
  unfold old_path, new_path. rewrite (Hname d Hd).
  split; [reflexivity |]. split; [reflexivity |]. split.
  - intros d' Hd'. now rewrite (Hname d' Hd').
  - unfold re_sub_group1. apply sub_group1_no_slash.
    apply (occurs_missing_char "/"); [reflexivity |].
    unfold has_char in *. rewrite all_chars_app. apply negb_false_iff in Hslash.
    now rewrite Hslash.
Qed.

Lemma scratch_name_is_base_name_witness :
  old_path ("icons/mob" +:+ "/" +:+ "test" +:+ ".dmi")
  = old_path ("icons/obj" +:+ "/" +:+ "test" +:+ ".dmi").
Proof.
  destruct (scratch_name_is_base_name "icons/obj" "test") as (_ & _ & _ & H & _);
    [reflexivity | reflexivity | reflexivity |].
  now destruct (H "icons/mob").
Defined.

(** ** The configuration at start-up *)

Ltac step_in H :=
  match type of H with
  | context [bindR (liftR ?r) _ _] =>
      let Hstep := fresh "Hstep" in
      destruct r eqn:Hstep; rewrite ?bindR_ok, ?bindR_raise in H; [| discriminate H]
  end.

Lemma section_get_ignore (members : list (string * json)) (v : json) (section k : string) :
  String.eqb "ignore" section = false ->
  section_get (JObj (("ignore", v) :: members)) section k
  = section_get (JObj members) section k.
Proof. intros H. unfold section_get, json_get. cbn [assoc]. now rewrite H. Qed.

(** What [Config.__init__] returns, when it returns. *)
Lemma Config_init_Ok (environ : gmap string string) (config_file : option (result json))
    (w : World) (s : Settings) :
  fst (Config_init environ config_file w) = Ok s ->
  exists (members : list (string * json)) (secret user auth url key : json),
    match config_file with
    | Some loaded => loaded = Ok (JObj members)
    | None => members = []
    end
    /\ section_get (JObj members) "github" "secret" = Ok secret
    /\ section_get (JObj members) "github" "user" = Ok user
    /\ section_get (JObj members) "github" "auth" = Ok auth
    /\ section_get (JObj members) "upload_api" "url" = Ok url
    /\ section_get (JObj members) "upload_api" "key" = Ok key
    /\ json_encode (load_variable environ "GITHUB_SECRET" (Some "ICONBOT_GITHUB_SECRET") secret)
       = Ok (s_github_secret s)
    /\ s_webhook_port s
       = load_variable environ "ICONBOT_WEBHOOK_PORT" None
           (default JNull (assoc "webhook_port" members))
    /\ s_github_user s = load_variable environ "GITHUB_USER" (Some "ICONBOT_GITHUB_USER") user
    /\ s_github_auth s = load_variable environ "GITHUB_AUTH" (Some "ICONBOT_GITHUB_AUTH") auth
    /\ s_upload_api_url s = load_variable environ "UPLOADAPI_URL" (Some "UPLOADAPI_URL") url
    /\ s_upload_api_key s = load_variable environ "UPLOADAPI_KEY" (Some "UPLOADAPI_KEY") key
    /\ Ok (s_ignore_list s)
       = match environ !! "ICONBOT_IGNORELIST" with
         | Some v => Ok (JArr (map JStr (split_on "," v)))
         | None => getitem (JObj members) "ignore"
         end.
Proof.
  intros H. unfold Config_init in H.
  assert (Hfile : exists (config : json) (w' : World),
    match config_file with
    | Some loaded => loaded = Ok config
    | None => config = JObj []
    end
    /\ fst ((config <~ liftR (match environ !! "ICONBOT_IGNORELIST" with
                              | Some v => setitem config "ignore"
                                            (JArr (map JStr (split_on "," v)))
                              | None => Ok config
                              end) ;;
             port <~ liftR (json_get config "webhook_port" JNull) ;;
             secret <~ liftR (section_get config "github" "secret") ;;
             secret_bytes <~ liftR (json_encode (load_variable environ "GITHUB_SECRET"
                                                   (Some "ICONBOT_GITHUB_SECRET") secret)) ;;
             user <~ liftR (section_get config "github" "user") ;;
             auth <~ liftR (section_get config "github" "auth") ;;
             url <~ liftR (section_get config "upload_api" "url") ;;
             key <~ liftR (section_get config "upload_api" "key") ;;
             ignore <~ liftR (getitem config "ignore") ;;
             ret (Ok {| s_webhook_port :=
                          load_variable environ "ICONBOT_WEBHOOK_PORT" None port;
                        s_github_secret := secret_bytes;
                        s_github_user :=
                          load_variable environ "GITHUB_USER" (Some "ICONBOT_GITHUB_USER") user;
                        s_github_auth :=
                          load_variable environ "GITHUB_AUTH" (Some "ICONBOT_GITHUB_AUTH") auth;
                        s_upload_api_url :=
                          load_variable environ "UPLOADAPI_URL" (Some "UPLOADAPI_URL") url;
                        s_upload_api_key :=
                          load_variable environ "UPLOADAPI_KEY" (Some "UPLOADAPI_KEY") key;
                        s_ignore_list := ignore |})) w') = Ok s).
  { destruct config_file as [[config | e] |].
    - exists config, w. split; [reflexivity | exact H].
    - discriminate H.
    - exists (JObj []), (snd (log_message "Make sure the config file exists." w)).
      split; [reflexivity | exact H]. }
  clear H. destruct Hfile as (config & w' & Hconfig & H).
  step_in H. rename a into config', Hstep into Hset.
  step_in H. rename a into port, Hstep into Hport.
  step_in H. rename a into secret, Hstep into Hsecret.
  step_in H. rename a into secret_bytes, Hstep into Hbytes.
  step_in H. rename a into user, Hstep into Huser.
  step_in H. rename a into auth, Hstep into Hauth.
  step_in H. rename a into url, Hstep into Hurl.
  step_in H. rename a into key, Hstep into Hkey.
  step_in H. rename a into ignore, Hstep into Hignore.
  cbn [ret fst] in H. inversion H; subst s; clear H. cbn.
  assert (Hobj : exists members, config = JObj members).
  { destruct config; eauto; exfalso;
      (destruct (environ !! "ICONBOT_IGNORELIST"); cbn in Hset;
       [discriminate Hset | inversion Hset; subst config'; discriminate Hport]). }
  destruct Hobj as [members ->].
  exists members, secret, user, auth, url, key.
  assert (Hsame : forall section k, String.eqb "ignore" section = false ->
                    section_get config' section k = section_get (JObj members) section k).
  { intros section k Hne. destruct (environ !! "ICONBOT_IGNORELIST").
    - cbn in Hset. inversion Hset. now apply section_get_ignore.
    - now inversion Hset. }
  rewrite !Hsame in * by reflexivity.
  split.
  { destruct config_file as [loaded|]; [exact Hconfig | now inversion Hconfig]. }
  repeat (split; [first [assumption | reflexivity] |]).
  split.
  { f_equal. destruct (environ !! "ICONBOT_IGNORELIST"); cbn in Hset; inversion Hset; subst;
      cbn in Hport; now inversion Hport. }
  repeat (split; [reflexivity |]).
  destruct (environ !! "ICONBOT_IGNORELIST"); cbn in Hset; inversion Hset; subst.
  - cbn in Hignore. now inversion Hignore.
  - symmetry. exact Hignore.
Qed.

Lemma load_variable_alt (environ : gmap string string) (name alt v : string) (dflt : json) :
  environ !! alt = Some v -> load_variable environ name (Some alt) dflt = JStr v.
Proof. intros H. unfold load_variable. cbn. now rewrite H. Qed.

Lemma load_variable_name (environ : gmap string string) (name alt v : string) (dflt : json) :
  environ !! alt = None -> environ !! name = Some v ->
  load_variable environ name (Some alt) dflt = JStr v.
Proof. intros Halt H. unfold load_variable. cbn. now rewrite Halt, H. Qed.

Lemma load_variable_file (environ : gmap string string) (name alt : string) (dflt : json) :
  environ !! alt = None -> environ !! name = None ->
  load_variable environ name (Some alt) dflt = dflt.
Proof. intros Halt H. unfold load_variable. cbn. now rewrite Halt, H. Qed.

(** X17.  The environment overrides the configuration file, and the variable
    with the [ICONBOT_] prefix overrides the one without: for the secret, the
    user and the token of GitHub, the configuration holds the value of the
    prefixed variable when it is set, else the value of the plain variable when
    that is set, else what the file holds; the port and the ignore list are
    taken from their variable when it is set.  A value that comes from the
    environment is a string, the port included. *)
Theorem settings_precedence (environ : gmap string string)
    (config_file : option (result json)) (w : World) (s : Settings) :
  fst (Config_init environ config_file w) = Ok s ->
  (forall v, environ !! "ICONBOT_GITHUB_SECRET" = Some v -> s_github_secret s = encode_utf8 v)
  /\ (forall v, environ !! "ICONBOT_GITHUB_SECRET" = None ->
                environ !! "GITHUB_SECRET" = Some v -> s_github_secret s = encode_utf8 v)
  /\ (forall v, environ !! "ICONBOT_GITHUB_USER" = Some v -> s_github_user s = JStr v)
  /\ (forall v, environ !! "ICONBOT_GITHUB_USER" = None ->
                environ !! "GITHUB_USER" = Some v -> s_github_user s = JStr v)
  /\ (forall v, environ !! "ICONBOT_GITHUB_AUTH" = Some v -> s_github_auth s = JStr v)
  /\ (forall v, environ !! "ICONBOT_GITHUB_AUTH" = None ->
                environ !! "GITHUB_AUTH" = Some v -> s_github_auth s = JStr v)
  /\ (forall v, environ !! "ICONBOT_WEBHOOK_PORT" = Some v -> s_webhook_port s = JStr v)
  /\ (forall v, environ !! "ICONBOT_IGNORELIST" = Some v ->
                s_ignore_list s = JArr (map JStr (split_on "," v)))
  /\ (forall config : json,
        config_file = Some (Ok config) ->
        (environ !! "ICONBOT_GITHUB_SECRET" = None -> environ !! "GITHUB_SECRET" = None ->
         rbind (section_get config "github" "secret") json_encode = Ok (s_github_secret s))
        /\ (environ !! "ICONBOT_GITHUB_USER" = None -> environ !! "GITHUB_USER" = None ->
            section_get config "github" "user" = Ok (s_github_user s))
        /\ (environ !! "ICONBOT_GITHUB_AUTH" = None -> environ !! "GITHUB_AUTH" = None ->
            section_get config "github" "auth" = Ok (s_github_auth s))
        /\ (environ !! "ICONBOT_WEBHOOK_PORT" = None ->
            json_get config "webhook_port" JNull = Ok (s_webhook_port s))
        /\ (environ !! "ICONBOT_IGNORELIST" = None ->
            getitem config "ignore" = Ok (s_ignore_list s))).
Proof.
  intros H.
  destruct (Config_init_Ok environ config_file w s H)
    as (members & secret & user & auth & url & key & Hfile & Hsecret & Huser & Hauth & _ & _
        & Hbytes & Hport & -> & -> & _ & _ & Hignore).
  split.
  { intros v Hv. rewrite (load_variable_alt _ _ _ v _ Hv) in Hbytes. now inversion Hbytes. }
  split.
  { intros v Halt Hv. rewrite (load_variable_name _ _ _ v _ Halt Hv) in Hbytes.
    now inversion Hbytes. }
  split; [intros v Hv; now apply load_variable_alt |].
  split; [intros v Halt Hv; now apply load_variable_name |].
  split; [intros v Hv; now apply load_variable_alt |].
  split; [intros v Halt Hv; now apply load_variable_name |].
  split.
  { intros v Hv. rewrite Hport. unfold load_variable. cbn. now rewrite Hv. }
  split.
  { intros v Hv. rewrite Hv in Hignore. now inversion Hignore. }
  intros config Hconfig. rewrite Hconfig in Hfile. inversion Hfile; subst config.
  split.
  { intros Halt Hname. rewrite Hsecret. cbn [rbind].
    now rewrite (load_variable_file _ _ _ _ Halt Hname) in Hbytes. }
  split; [intros Halt Hname; now rewrite load_variable_file |].
  split; [intros Halt Hname; now rewrite load_variable_file |].
  split.
  { intros Hnone. rewrite Hport. unfold load_variable. cbn. now rewrite Hnone. }
  intros Hnone. now rewrite Hnone in Hignore.
Qed.

Lemma settings_precedence_witness :
  exists s : Settings,
    fst (Config_init example_environ (Some (Ok example_config_file)) empty_world) = Ok s
    /\ s_github_user s = JStr "icon-bot"
    /\ s_github_secret s = encode_utf8 "a".
Proof.
  eexists. split; [vm_compute; reflexivity |].
  match goal with
  | |- s_github_user ?s = _ /\ _ =>
      destruct (settings_precedence example_environ (Some (Ok example_config_file))
                  empty_world s) as (_ & Hsecret & Huser & _)
  end; [vm_compute; reflexivity |].
  split; [now apply Huser | now apply Hsecret].
Defined.

(** X18.  Without a configuration file the program starts from the environment
    alone, after logging that the file is missing: it raises an
    [AttributeError] when no variable gives the secret ([None] has no
    [encode]), a [KeyError] for [ignore] when the secret is given but
    [ICONBOT_IGNORELIST] is not, and else returns the settings that the
    variables give, the others being [None]. *)
Theorem settings_from_environ_alone (environ : gmap string string) (w : World) :
  fst (Config_init environ None w)
  = match environ_secret environ, environ !! "ICONBOT_IGNORELIST" with
    | None, _ => Raise (AttributeError "encode")
    | Some _, None => Raise (KeyError "ignore")
    | Some secret, Some ignore =>
        Ok {| s_webhook_port := load_variable environ "ICONBOT_WEBHOOK_PORT" None JNull;
              s_github_secret := encode_utf8 secret;
              s_github_user :=
                load_variable environ "GITHUB_USER" (Some "ICONBOT_GITHUB_USER") JNull;
              s_github_auth :=
                load_variable environ "GITHUB_AUTH" (Some "ICONBOT_GITHUB_AUTH") JNull;
              s_upload_api_url :=
                load_variable environ "UPLOADAPI_URL" (Some "UPLOADAPI_URL") JNull;
              s_upload_api_key :=
                load_variable environ "UPLOADAPI_KEY" (Some "UPLOADAPI_KEY") JNull;
              s_ignore_list := JArr (map JStr (split_on "," ignore)) |}
    end
  /\ snd (Config_init environ None w)
     = snd (log_message "Make sure the config file exists." w).
Proof.
  assert (Hrun : Config_init environ None w
    = (match environ_secret environ, environ !! "ICONBOT_IGNORELIST" with
       | None, _ => Raise (AttributeError "encode")
       | Some _, None => Raise (KeyError "ignore")
       | Some secret, Some ignore =>
           Ok {| s_webhook_port := load_variable environ "ICONBOT_WEBHOOK_PORT" None JNull;
                 s_github_secret := encode_utf8 secret;
                 s_github_user :=
                   load_variable environ "GITHUB_USER" (Some "ICONBOT_GITHUB_USER") JNull;
                 s_github_auth :=
                   load_variable environ "GITHUB_AUTH" (Some "ICONBOT_GITHUB_AUTH") JNull;
                 s_upload_api_url :=
                   load_variable environ "UPLOADAPI_URL" (Some "UPLOADAPI_URL") JNull;
                 s_upload_api_key :=
                   load_variable environ "UPLOADAPI_KEY" (Some "UPLOADAPI_KEY") JNull;
                 s_ignore_list := JArr (map JStr (split_on "," ignore)) |}
       end,
       snd (log_message "Make sure the config file exists." w))).
  { unfold Config_init, environ_secret.
    destruct (environ !! "ICONBOT_IGNORELIST") as [ignore|] eqn:Hi;
      destruct (environ !! "ICONBOT_GITHUB_SECRET") as [alt|] eqn:Ha;
      destruct (environ !! "GITHUB_SECRET") as [plain|] eqn:Hp;
      unfold load_variable at 1; cbn [mbind option_bind]; rewrite ?Ha, ?Hp; reflexivity. }
  now rewrite Hrun.
Qed.

(** ** The ignore list of the environment *)

Lemma split_on_not_nil (sep : ascii) (s : string) : split_on sep s <> [].
Proof.
  induction s as [|c s IH]; [discriminate |]. cbn [split_on].
  destruct (Ascii.eqb c sep); [discriminate |]. now destruct (split_on sep s).
Qed.

Lemma concat_cons_ne (sep x : string) (xs : list string) :
  xs <> [] -> String.concat sep (x :: xs) = x +:+ sep +:+ String.concat sep xs.
Proof. intros H. destruct xs; [now destruct H | reflexivity]. Qed.

Lemma split_on_concat (sep : ascii) (s : string) :
  String.concat (String sep "") (split_on sep s) = s.
Proof.
  induction s as [|c s IH]; [reflexivity |]. cbn [split_on].
  pose proof (split_on_not_nil sep s) as Hne.
  destruct (Ascii.eqb_spec c sep) as [-> | Hc].
  - rewrite concat_cons_ne by exact Hne. now rewrite IH.
  - destruct (split_on sep s) as [|l ls]; [now destruct Hne |].
    destruct ls as [|l' ls]; [cbn in *; now rewrite IH |].
    rewrite concat_cons_ne by discriminate. rewrite concat_cons_ne in IH by discriminate.
    rewrite append_cons. now rewrite IH.
Qed.

Lemma split_on_no_sep (sep : ascii) (s : string) :
  Forall (fun entry => has_char sep entry = false) (split_on sep s).
Proof.
  induction s as [|c s IH]; [repeat constructor |]. cbn [split_on].
  destruct (Ascii.eqb c sep) eqn:Hc; [constructor; [reflexivity | exact IH] |].
  destruct (split_on sep s) as [|l ls]; [repeat constructor; unfold has_char; cbn; now rewrite Hc |].
  inversion IH as [|? ? Hl Hls]; subst. constructor; [| exact Hls].
  unfold has_char in *. cbn [all_chars]. rewrite Hc. exact Hl.
Qed.

(** X19.  [ICONBOT_IGNORELIST] replaces the ignore list of the file, it does not
    extend it, and its entries are taken as they are written: they are the
    pieces of the variable between its commas (joined by commas they give the
    variable back, and none holds a comma), neither trimmed nor lowered, an
    empty variable giving one empty entry. *)
Theorem ignore_list_of_environ (environ : gmap string string)
    (config_file : option (result json)) (w : World) (s : Settings) (v : string) :
  fst (Config_init environ config_file w) = Ok s ->
  environ !! "ICONBOT_IGNORELIST" = Some v ->
  exists entries : list string,
    s_ignore_list s = JArr (map JStr entries)
    /\ entries <> []
    /\ String.concat "," entries = v
    /\ Forall (fun entry => has_char "," entry = false) entries.
Proof.
  intros H Hv.
  destruct (Config_init_Ok environ config_file w s H)
    as (members & secret & user & auth & url & key & _ & _ & _ & _ & _ & _
        & _ & _ & _ & _ & _ & _ & Hignore).
  rewrite Hv in Hignore. inversion Hignore as [Hlist].
  exists (split_on "," v). split; [exact Hlist |].
  split; [apply split_on_not_nil |]. split; [apply split_on_concat | apply split_on_no_sep].
Qed.

Lemma ignore_list_of_environ_witness :
  exists (s : Settings) (entries : list string),
    fst (Config_init example_environ (Some (Ok example_config_file)) empty_world) = Ok s
    /\ s_ignore_list s = JArr (map JStr entries)
    /\ String.concat "," entries = "dependabot, Alice".
Proof.
  eexists.
  match goal with
  | |- exists entries, _ = Ok ?s /\ _ =>
      destruct (ignore_list_of_environ example_environ (Some (Ok example_config_file))
                  empty_world s "dependabot, Alice") as (entries & Hlist & _ & Hjoin & _)
  end; [vm_compute; reflexivity | vm_compute; reflexivity |].
  exists entries. split; [vm_compute; reflexivity | split; [exact Hlist | exact Hjoin]].
Defined.
(** ** Invariants of the entry points

    An invariant that the pipeline keeps and that survives a logged
    message and a fetch is kept by the receiver and by [test_pr], whatever
    they are given and whether they return or raise. *)
Section Delivery.
Variable I : World -> Prop.
Variable E : Env.
Hypothesis I_log : forall w msg, I w -> I (snd (log_message msg w)).
Hypothesis I_get : forall w url, I w -> I (snd (requests_get E url w)).

Lemma preserves_check_diff (diff_url : string) : preserves I (check_diff E diff_url).
Proof.
  intros w Hw. unfold check_diff. rewrite bind_run.
  destruct (status_code (fst (requests_get E diff_url w)) =? 404); now apply I_get.
Qed.

Lemma preserves_for_all_log (msgs : list string) : preserves I (for_all log_message msgs).
Proof.
  induction msgs as [|msg msgs IH]; intros w Hw; [exact Hw |].
  cbn [for_all]. rewrite bind_run. now apply IH, I_log.
Qed.

Lemma preserves_render_POST (request : Request) :
  (forall icons_with_diff base head issue_url,
     preserves I (check_icons E icons_with_diff base head issue_url true)) ->
  preserves I (render_POST E request).
Proof.
  intros I_check_icons w Hw. unfold render_POST.
  step_result; [| exact Hw]. destruct a; cbn [negb]; [| now apply I_log].
  destruct (header_is (getHeader request "X-GitHub-Event") "pull_request");
    cbn [negb]; [| now apply I_log].
  do 3 (step_result; [| exact Hw]).
  destruct (json_in a1 actions_to_check); cbn [negb]; [| exact Hw].
  step_result; [| exact Hw].
  destruct (existsb (String.eqb a2) (ignore_list (config E))); [exact Hw |].
  do 5 (step_result; [| exact Hw]).
  rewrite bind_run.
  pose proof (preserves_check_diff a7 w Hw) as Hdiff.
  destruct (fst (check_diff E a7 w)) as [[|icon icons]|]; try exact Hdiff.
  do 2 (step_result; [| exact Hdiff]).
  rewrite bind_run.
  pose proof (I_log _ (json_format a8 +:+ ": Icon diff detected on pull request: "
                       +:+ json_format a9 +:+ "!") Hdiff) as Hlog.
  step_result; [| exact Hlog].
  rewrite bindR_run.
  pose proof (I_check_icons (icon :: icons) a6 a5 a10 _ Hlog) as Hrun.
  now destruct (fst (check_icons E (icon :: icons) a6 a5 a10 true _)).
Qed.

Lemma preserves_test_pr (number owner repository : string) (send : bool) :
  (forall icons_with_diff base head issue_url,
     preserves I (check_icons E icons_with_diff base head issue_url send)) ->
  preserves I (test_pr E number owner repository send).
Proof.
  intros I_check_icons w Hw. unfold test_pr. rewrite !bind_run.
  fold (pull_url owner repository number).
  set (w1 := snd (log_message _ (snd (requests_get E (pull_url owner repository number) w)))).
  assert (Hw1 : I w1) by now apply I_log, I_get.
  destruct (status_code (fst (requests_get E (pull_url owner repository number) w)) =? 404).
  { rewrite bind_run. cbn [ret snd]. now apply I_log. }
  do 3 (step_result; [| exact Hw1]).
  rewrite bind_run.
  pose proof (preserves_check_diff a1 w1 Hw1) as Hdiff.
  destruct (fst (check_diff E a1 w1)) as [[|icon icons]|].
  - rewrite bind_run. cbn [ret snd]. now apply I_log.
  - rewrite !bind_run.
    set (w2 := snd (for_all log_message (icon :: icons) _)).
    assert (Hw2 : I w2) by now apply preserves_for_all_log, I_log.
    do 4 (step_result; [| exact Hw2]).
    now apply I_check_icons.
  - rewrite bind_run. cbn [ret snd]. now apply I_log.
Qed.
End Delivery.

Lemma requests_get_snd (E : Env) (url : string) (w : World) :
  snd (requests_get E url w) = logged [Get url] w.
Proof. reflexivity. Qed.

(** ** The life of the upload cache *)

(** X20.  An entry of the upload cache is never removed nor overwritten: a hash
    that has a URL keeps this URL through every call of [upload_image], every
    run of [check_icons], every delivery that the receiver handles and every
    pull request that [test_pr] examines, so a URL that a comment links stays
    the URL of its image. *)
Theorem cache_entries_are_stable (E : Env) (w : World) (h url : string) :
  db w !! h = Some url ->
  (forall (file : list byte) (img_hash : string) (upload : bool),
     db (snd (upload_image E file img_hash upload w)) !! h = Some url)
  /\ (forall (icons_with_diff : list string) (base head : json) (issue_url : string)
             (send : bool),
        db (snd (check_icons E icons_with_diff base head issue_url send w)) !! h = Some url)
  /\ (forall request : Request, db (snd (render_POST E request w)) !! h = Some url)
  /\ (forall (number owner repository : string) (send : bool),
        db (snd (test_pr E number owner repository send w)) !! h = Some url).
Proof.
  intros Hh.
  assert (Hrun : forall icons_with_diff base head issue_url send,
    preserves (fun w' => db w' !! h = Some url)
      (check_icons E icons_with_diff base head issue_url send)).
  { intros icons_with_diff base head issue_url send w' Hw'.
    now apply check_icons_keeps_cached. }
  split; [intros; now apply upload_image_db_stable |].
  split; [intros; now apply Hrun |].
  split.
  - intros request. revert w Hh.
    apply (preserves_render_POST (fun w' => db w' !! h = Some url));
      [intros; assumption | intros; assumption | intros; apply Hrun].
  - intros number owner repository send. revert w Hh.
    apply (preserves_test_pr (fun w' => db w' !! h = Some url));
      [intros; assumption | intros; assumption | intros; apply Hrun].
Qed.

Lemma cache_entries_are_stable_witness :
  db (snd (render_POST example_env sample_request
             (set_db {["h9" := "https://img.example/old"]} empty_world))) !! "h9"
  = Some "https://img.example/old".
Proof.
  destruct (cache_entries_are_stable example_env
              (set_db {["h9" := "https://img.example/old"]} empty_world)
              "h9" "https://img.example/old") as (_ & _ & H & _);
    [vm_compute; reflexivity | apply H].
Defined.

(** X21.  Whatever the image host replies, a hash that is in the cache is not
    uploaded again by a delivery that the receiver handles or by a pull
    request that [test_pr] examines.  With an image host whose every reply
    carries a URL, no hash is uploaded twice over the life of the process: the
    receiver and [test_pr] keep the invariant of the cache on every delivery
    and every pull request, answered or raising (a member that is missing, an
    image that cannot be saved), so the invariant that holds of a fresh trace
    holds after any sequence of them. *)
Theorem entry_points_upload_once (E : Env) (w : World) :
  (forall h url : string,
     db w !! h = Some url ->
     (forall request : Request,
        uploads_of h (events (snd (render_POST E request w))) = uploads_of h (events w))
     /\ (forall (number owner repository : string) (send : bool),
           uploads_of h (events (snd (test_pr E number owner repository send w)))
           = uploads_of h (events w)))
  /\ (host_answers E ->
      cache_inv w ->
      (forall request : Request, cache_inv (snd (render_POST E request w)))
      /\ (forall (number owner repository : string) (send : bool),
            cache_inv (snd (test_pr E number owner repository send w)))
      /\ (forall (requests : list Request),
            cache_inv (fold_left (fun w' request => snd (render_POST E request w'))
                         requests w))).
Proof.
  split.
  { intros h url Hh.
    set (K := fun w' : World =>
                db w' !! h = Some url /\ uploads_of h (events w') = uploads_of h (events w)).
    assert (Hlog : forall w' msg, K w' -> K (snd (log_message msg w')))
      by (intros w' msg; now apply keeps_cached_emit).
    assert (Hget : forall w' url', K w' -> K (snd (requests_get E url' w'))).
    { intros w' url' Hw'. unfold requests_get. rewrite bind_run. cbn [ret snd].
      now apply keeps_cached_emit. }
    assert (Hrun : forall icons base head issue_url send,
              preserves K (check_icons E icons base head issue_url send)).
    { intros icons base head issue_url send w' [Hdb Hn].
      destruct (check_icons_keeps_cached E icons base head issue_url send h url w' Hdb)
        as [Hdb' Hn'].
      split; [exact Hdb' | now rewrite Hn']. }
    assert (HK : K w) by now split.
    split.
    - intros request.
      now apply (preserves_render_POST K E Hlog Hget request
                   (fun i b hd u => Hrun i b hd u true) w HK).
    - intros number owner repository send.
      now apply (preserves_test_pr K E Hlog Hget number owner repository send
                   (fun i b hd u => Hrun i b hd u send) w HK). }
  intros Hhost.
  assert (Hlog : forall w' msg, cache_inv w' -> cache_inv (snd (log_message msg w')))
    by (intros w' msg; now apply cache_inv_emit).
  assert (Hget : forall w' url, cache_inv w' -> cache_inv (snd (requests_get E url w'))).
  { intros w' url Hw'. unfold requests_get. rewrite bind_run. cbn [ret snd].
    now apply cache_inv_emit. }
  assert (Hpost : forall request w', cache_inv w' -> cache_inv (snd (render_POST E request w'))).
  { intros request. apply (preserves_render_POST cache_inv E Hlog Hget).
    intros icons base head issue_url w'. now apply check_icons_cache_inv. }
  intros Hw. split; [intros; now apply Hpost |]. split.
  - intros number owner repository send. revert w Hw.
    apply (preserves_test_pr cache_inv E Hlog Hget).
    intros icons base head issue_url w'. now apply check_icons_cache_inv.
  - intros requests. revert w Hw.
    induction requests as [|request requests IH]; intros w Hw; [exact Hw |].
    cbn [fold_left]. now apply IH, Hpost.
Qed.

Lemma entry_points_upload_once_witness :
  cache_inv (snd (render_POST example_env sample_request
                    (snd (render_POST example_env sample_request empty_world)))).
Proof.
  assert (Hhost : host_answers example_env) by (intros url key n file; now eexists).
  destruct (entry_points_upload_once example_env empty_world) as [_ Hlife].
  destruct (Hlife Hhost) as (Hfirst & _ & _); [apply cache_inv_fresh; reflexivity |].
  destruct (entry_points_upload_once example_env
              (snd (render_POST example_env sample_request empty_world))) as [_ Hlife'].
  destruct (Hlife' Hhost (Hfirst sample_request)) as (Hsecond & _ & _).
  exact (Hsecond sample_request).
Defined.

(** With a host whose first reply carries no URL, the first delivery
    raises after its upload and the second uploads the same hash again. *)
Example mute_host_uploads_twice :
  fst (render_POST mute_env sample_request empty_world) = Raise (KeyError "url")
  /\ uploads_of "h1"
       (events (snd (render_POST mute_env sample_request
                       (snd (render_POST mute_env sample_request empty_world)))))
     = 2%nat.
Proof. split; vm_compute; reflexivity. Qed.

(** ** Dry runs *)

Lemma nothing_published_refl (w : World) : nothing_published w w.
Proof. now repeat split. Qed.

Lemma nothing_published_event (w w' : World) (e : Event) :
  is_upload e = false -> is_api e = false ->
  nothing_published w w' -> nothing_published w (snd (emit e w')).
Proof.
  intros Hu Ha (Hdb & Hc & Hn & Hfu & Hfa). rewrite emit_run.
  unfold nothing_published. cbn [snd db comments net events].
  repeat (split; [first [assumption | now apply filter_snoc_other] |]).
  now apply filter_snoc_other.
Qed.

Lemma nothing_published_check_icons (E : Env) (icons_with_diff : list string)
    (base head : json) (issue_url : string) (w w' : World) :
  nothing_published w w' ->
  nothing_published w (snd (check_icons E icons_with_diff base head issue_url false w')).
Proof.
  intros (Hdb & Hc & Hn & Hfu & Hfa).
  destruct (check_icons_dry E icons_with_diff base head issue_url w')
    as (Hdb' & Hc' & Hn' & Hfu' & Hfa' & _).
  unfold nothing_published. now rewrite Hdb', Hc', Hn', Hfu', Hfa'.
Qed.

(** X22.  The debug entry point publishes nothing unless it is told to: with
    [send_message] false, which is the default of [test_pr] and what
    [get_debug_input] passes unless the answer to its last question begins with
    [y] or [Y] (an empty answer included), a run uploads no image, calls no
    comment API and leaves the upload cache and the comments as they are,
    whatever the pull request and the hosts answer. *)
Theorem dry_run_publishes_nothing (E : Env) (w : World) :
  (forall (icons_with_diff : list string) (base head : json) (issue_url : string),
     nothing_published w (snd (check_icons E icons_with_diff base head issue_url false w)))
  /\ (forall number owner repository : string,
        nothing_published w (snd (test_pr E number owner repository false w)))
  /\ (forall owner repo number answer : string,
        lower (substring 0 1 answer) <> "y" ->
        nothing_published w (snd (get_debug_input E owner repo number answer w)))
  /\ (forall owner repo number : string,
        nothing_published w (snd (get_debug_input E owner repo number "" w))).
Proof.
  assert (Htest : forall number owner repository,
    nothing_published w (snd (test_pr E number owner repository false w))).
  { intros number owner repository.
    apply (preserves_test_pr (nothing_published w) E).
    - intros w' msg. now apply nothing_published_event.
    - intros w' url Hw'. unfold requests_get. rewrite bind_run. cbn [ret snd].
      now apply nothing_published_event.
    - intros icons base head issue_url w'. apply nothing_published_check_icons.
    - apply nothing_published_refl. }
  split; [intros; apply nothing_published_check_icons, nothing_published_refl |].
  split; [exact Htest |]. split.
  - intros owner repo number answer Hanswer. unfold get_debug_input.
    apply String.eqb_neq in Hanswer. rewrite Hanswer. apply Htest.
  - intros owner repo number. apply Htest.
Qed.

(** ** Pull requests without a report *)

Lemma check_diff_run (E : Env) (diff_url : string) (w : World) :
  check_diff E diff_url w
  = (if status_code (remote E diff_url) =? 404 then None
     else Some (icons_of_lines (split_lines (text (remote E diff_url)))),
     logged [Get diff_url] w).
Proof.
  unfold check_diff, requests_get. rewrite !bind_run, emit_run. cbn [fst snd ret].
  now destruct (status_code (remote E diff_url) =? 404).
Qed.

Lemma log_message_run (msg : string) (w : World) : log_message msg w = (tt, logged [Log msg] w).
Proof. reflexivity. Qed.

(** X23.  [test_pr] stops early, with two fetches at most and nothing compared,
    written or published, when there is nothing to report: on a pull request
    that the API does not know (404) it logs that it does not exist, without
    fetching any diff; on a pull request whose diff is unavailable (404) or
    names no sprite sheet it logs that no diff was detected.  It returns
    normally in both cases. *)
Theorem test_pr_without_icons (E : Env) (number owner repository : string) (send : bool)
    (w : World) :
  (status_code (remote E (pull_url owner repository number)) = 404 ->
   test_pr E number owner repository send w
   = (Ok tt,
      logged [Get (pull_url owner repository number);
              Log ("[" +:+ owner +:+ "/" +:+ repository +:+ "] Testing PR #" +:+ number);
              Log ("PR #" +:+ number +:+ " on " +:+ owner +:+ "/" +:+ repository
                   +:+ " does not exist.")] w))
  /\ (status_code (remote E (pull_url owner repository number)) <> 404 ->
      forall (payload : json) (diff_url : string),
        json_loads E (text (remote E (pull_url owner repository number))) = Some payload ->
        getitem payload "diff_url" = Ok (JStr diff_url) ->
        status_code (remote E diff_url) = 404
        \/ icons_of_lines (split_lines (text (remote E diff_url))) = [] ->
        test_pr E number owner repository send w
        = (Ok tt,
           logged [Get (pull_url owner repository number);
                   Log ("[" +:+ owner +:+ "/" +:+ repository +:+ "] Testing PR #" +:+ number);
                   Get diff_url;
                   Log ("No diff detected on [" +:+ owner +:+ "/" +:+ repository +:+ "] #"
                        +:+ number)] w)).
Proof.
  split.
  - intros H404. unfold test_pr. fold (pull_url owner repository number).
    rewrite !bind_run. cbn [requests_get bind emit ret fst snd]. rewrite H404.
    cbn [Z.eqb Pos.eqb]. rewrite !bind_run, !log_message_run. cbn [fst snd ret].
    f_equal. unfold logged. cbn [files db comments net events].
    now rewrite <- !app_assoc.
  - intros Hstatus payload diff_url Hpayload Hdiff Hnone. apply Z.eqb_neq in Hstatus.
    unfold test_pr. fold (pull_url owner repository number).
    rewrite !bind_run. cbn [requests_get bind emit ret fst snd]. rewrite Hstatus.
    rewrite Hpayload, bindR_ok, Hdiff, bindR_ok. cbn [json_str]. rewrite bindR_ok.
    rewrite bind_run, check_diff_run. cbn [fst snd].
    assert (Hicons : (if status_code (remote E diff_url) =? 404 then None
                      else Some (icons_of_lines (split_lines (text (remote E diff_url)))))
                     = None
                     \/ (if status_code (remote E diff_url) =? 404 then None
                         else Some (icons_of_lines (split_lines (text (remote E diff_url)))))
                        = Some []).
    { destruct Hnone as [-> | ->]; [now left |].
      destruct (status_code (remote E diff_url) =? 404); [now left | now right]. }
    destruct Hicons as [-> | ->]; rewrite bind_run, !log_message_run; cbn [fst snd ret];
      f_equal; unfold logged; cbn [files db comments net events];
      now rewrite <- !app_assoc.
Qed.

Lemma test_pr_without_icons_witness :
  fst (test_pr example_env "8" "o" "r" true empty_world) = Ok tt
  /\ events (snd (test_pr example_env "8" "o" "r" true empty_world))
     = [Get "https://api.github.com/repos/o/r/pulls/8"; Log "[o/r] Testing PR #8";
        Log "PR #8 on o/r does not exist."].
Proof.
  destruct (test_pr_without_icons example_env "8" "o" "r" true empty_world) as [H _].
  rewrite H by reflexivity. split; reflexivity.
Defined.

(** ** What [test_pr] logs *)

Lemma for_all_log_run (msgs : list string) (w : World) :
  for_all log_message msgs w = (tt, logged (map Log msgs) w).
Proof.
  revert w. induction msgs as [|msg msgs IH]; intros w.
  - cbn. unfold logged. now rewrite app_nil_r; destruct w.
  - cbn [for_all map]. rewrite bind_run, log_message_run. cbn [snd].
    rewrite IH, logged_logged. reflexivity.
Qed.

Lemma filter_log_logs (msgs : list string) : List.filter is_log (map Log msgs) = map Log msgs.
Proof. induction msgs as [|msg msgs IH]; [reflexivity |]. cbn. now rewrite IH. Qed.

(** X24.  On a pull request whose diff names sprite sheets, [test_pr] logs the
    pull request, then [Icons:] and the paths, one message each and in the
    order of the diff, before it reads anything else of the pull request; in
    a dry run these are all the messages it logs. *)
Theorem test_pr_lists_icons (E : Env) (number owner repository : string) (w : World)
    (payload : json) (diff_url : string) (icon : string) (icons : list string) :
  status_code (remote E (pull_url owner repository number)) <> 404 ->
  json_loads E (text (remote E (pull_url owner repository number))) = Some payload ->
  getitem payload "diff_url" = Ok (JStr diff_url) ->
  fst (check_diff E diff_url w) = Some (icon :: icons) ->
  List.filter is_log (events (snd (test_pr E number owner repository false w)))
  = (List.filter is_log (events w)
     ++ Log ("[" +:+ owner +:+ "/" +:+ repository +:+ "] Testing PR #" +:+ number)
        :: Log "Icons:" :: map Log (icon :: icons))%list.
Proof.
  intros Hstatus Hpayload Hdiff Hicons. apply Z.eqb_neq in Hstatus.
  rewrite check_diff_fst in Hicons.
  unfold test_pr. fold (pull_url owner repository number).
  rewrite !bind_run. cbn [requests_get bind emit ret fst snd]. rewrite Hstatus.
  rewrite Hpayload, bindR_ok, Hdiff, bindR_ok. cbn [json_str]. rewrite bindR_ok.
  rewrite bind_run, check_diff_run. cbn [fst snd]. rewrite Hicons.
  rewrite !bind_run, log_message_run, for_all_log_run. cbn [fst snd].
  set (w2 := logged _ _).
  assert (Hw2 : List.filter is_log (events w2)
                = (List.filter is_log (events w)
                   ++ Log ("[" +:+ owner +:+ "/" +:+ repository +:+ "] Testing PR #" +:+ number)
                      :: Log "Icons:" :: map Log (icon :: icons))%list).
  { unfold w2, logged. rewrite ?log_message_snd. cbn [events].
    rewrite !List.filter_app. cbn [List.filter is_log map].
    rewrite filter_log_logs, ?app_nil_r, <- ?app_assoc. reflexivity. }
  do 4 (step_result; [| exact Hw2]).
  destruct (check_icons_dry E (icon :: icons) a a0 a2 w2) as (_ & _ & _ & _ & _ & ->).
  exact Hw2.
Qed.

Lemma test_pr_lists_icons_witness :
  List.filter is_log (events (snd (test_pr api_env "7" "o" "r" false empty_world)))
  = (List.filter is_log (events empty_world)
     ++ Log ("[" +:+ "o" +:+ "/" +:+ "r" +:+ "] Testing PR #" +:+ "7")
        :: Log "Icons:" :: map Log ["icons/test.dmi"])%list.
Proof.
  apply (test_pr_lists_icons api_env "7" "o" "r" empty_world
           (default JNull (json_loads api_env (text (remote api_env (pull_url "o" "r" "7")))))
           "https://github.com/o/r/pull/7.diff" "icons/test.dmi" []);
    [vm_compute; discriminate | vm_compute; reflexivity | vm_compute; reflexivity
    | vm_compute; reflexivity].
Defined.

(** ** Under [DEBUG] *)

Lemma is_Some_insert {A} (m : gmap string A) (k p : string) (x : A) :
  is_Some (m !! p) -> is_Some (<[k := x]> m !! p).
Proof.
  intros H. destruct (decide (k = p)) as [-> | Hne].
  - rewrite lookup_insert_eq. eauto.
  - now rewrite lookup_insert_ne.
Qed.

(** Under [DEBUG] a cell removes nothing, whether it returns or raises. *)
Lemma image_cell_debug (E : Env) (send : bool) (key path : string)
    (img : option (list byte)) (img_hash : string) (w : World) (p : string) :
  DEBUG E = true ->
  is_Some (files w !! p) ->
  is_Some (files (snd (image_cell E send key path img img_hash w)) !! p).
Proof.
  intros Hdebug Hp. destruct img as [png|]; [| exact Hp].
  rewrite image_cell_run, Hdebug.
  destruct (writable E path); [| exact Hp].
  pose proof (upload_image_files E
                (fst (read_file path (set_files (<[path := png]> (files w)) w)))
                img_hash send (set_files (<[path := png]> (files w)) w)) as Hfiles.
  destruct (upload_image E _ img_hash send _) as [[url|e] w'];
    cbn [fst snd set_files files] in *; rewrite Hfiles; now apply is_Some_insert.
Qed.

Lemma rows_of_debug (E : Env) (send : bool) (this_dict : list (string * Entry)) (w : World)
    (p : string) :
  DEBUG E = true ->
  is_Some (files w !! p) -> is_Some (files (snd (rows_of E send this_dict w)) !! p).
Proof.
  intros Hdebug. revert w. induction this_dict as [|[key e] rest IH]; intros w Hp; [exact Hp |].
  cbn [rows_of]. destruct (String.eqb (status e) "Equal"); [now apply IH |].
  rewrite bindR_run.
  pose proof (image_cell_debug E send key ("./icon_dump/old_" +:+ key +:+ ".png")
                (img_a e) (img_a_hash e) w p Hdebug Hp) as Ha.
  destruct (image_cell E send key ("./icon_dump/old_" +:+ key +:+ ".png")
              (img_a e) (img_a_hash e) w) as [[cell_a|ea] w1]; cbn [fst snd] in *;
    [| exact Ha].
  rewrite bindR_run.
  pose proof (image_cell_debug E send key ("./icon_dump/new_" +:+ key +:+ ".png")
                (img_b e) (img_b_hash e) w1 p Hdebug Ha) as Hb.
  destruct (image_cell E send key ("./icon_dump/new_" +:+ key +:+ ".png")
              (img_b e) (img_b_hash e) w1) as [[cell_b|eb] w2]; cbn [fst snd] in *;
    [| exact Hb].
  rewrite bindR_run. pose proof (IH w2 Hb) as Hrest.
  now destruct (rows_of E send rest w2) as [[more|er] w3].
Qed.

Lemma compare_and_render_debug (E : Env) (issue_url icon i_name a b : string) (send : bool)
    (w : World) :
  DEBUG E = true ->
  let log := "icon_dump/" +:+ i_name +:+ "_" +:+ re_sub_group1 issue_regex issue_url
             +:+ ".log" in
  (forall p, is_Some (files w !! p) ->
             is_Some (files (snd (compare_and_render E issue_url icon i_name a b send w)) !! p))
  /\ (forall o : option string,
        fst (compare_and_render E issue_url icon i_name a b send w) = Ok o ->
        compare_two_icon_files E (files w) a b <> [] ->
        exists rows : list string,
          Forall2 row_of rows (List.filter non_equal (compare_two_icon_files E (files w) a b))
          /\ files (snd (compare_and_render E issue_url icon i_name a b send w)) !! log
             = Some (bytes_of (block_of icon rows)))
  /\ (compare_two_icon_files E (files w) a b <> [] ->
      writable E log = false ->
      exists e : exn, fst (compare_and_render E issue_url icon i_name a b send w) = Raise e).
Proof.
  intros Hdebug log. rewrite compare_and_render_run.
  set (w0 := snd (emit (Compare a b) w)).
  destruct (compare_two_icon_files E (files w) a b) as [|entry rest] eqn:Hcmp.
  { split; [intros p Hp; exact Hp |].
    split; [intros o _ H; now destruct H | intros H; now destruct H]. }
  unfold render_block. rewrite Hdebug, bindR_run. fold log.
  pose proof (fun p => rows_of_debug E send (entry :: rest) w0 p Hdebug) as Hkeep.
  pose proof (rows_of_Ok E send (entry :: rest) w0) as Hrows.
  destruct (rows_of E send (entry :: rest) w0) as [[rows|e] w1]; cbn [fst snd] in *.
  - rewrite bindR_run, write_file_run. fold (block_of icon rows).
    destruct (writable E log); cbn [fst snd ret set_files files].
    + split; [intros p Hp; apply is_Some_insert; now apply Hkeep |].
      split; [| discriminate].
      intros o _ _. exists rows. split; [now apply Hrows | apply lookup_insert_eq].
    + split; [intros p Hp; now apply Hkeep |].
      split; [discriminate | eauto].
  - split; [intros p Hp; now apply Hkeep |].
    split; [discriminate | eauto].
Qed.

Lemma staged_keeps (E : Env) (url_a url_b icon : string)
    (fs : gmap string (list byte)) (p : string) :
  is_Some (fs !! p) -> is_Some (staged E url_a url_b icon fs !! p).
Proof.
  intros Hp. unfold staged.
  destruct (status_code (remote E url_b) =? 200);
    destruct (status_code (remote E url_a) =? 200);
    repeat apply is_Some_insert; exact Hp.
Qed.

(** X25.  Under [DEBUG] nothing is cleaned: for a path whose head side is not
    404, every file that was in the scratch directory is still there after the
    loop body, the copies of the two sides that were fetched are kept, whether
    the rendering returns or raises; and when the compare result is not empty
    and the rendering returns, the block of the path, with the rows of the
    entries that are not [Equal], is written to the log file of the path, also
    when it has no row.  A log file that cannot be created makes the loop body
    raise.  (The two sides hold their [ref], and the scratch copies can be
    created.) *)
Theorem debug_keeps_scratch (E : Env)
    (base_repo_url head_repo_url base head base_ref head_ref : json) (issue_url : string)
    (send : bool) (icon : string) (w : World) :
  getitem base "ref" = Ok base_ref ->
  getitem head "ref" = Ok head_ref ->
  let url_a := blob_url base_repo_url base_ref icon in
  let url_b := blob_url head_repo_url head_ref icon in
  let run := check_icon E base_repo_url head_repo_url base head issue_url send icon w in
  let this_dict := compare_two_icon_files E (staged E url_a url_b icon (files w))
                     (path_a_of E url_a icon) (new_path icon) in
  DEBUG E = true ->
  status_code (remote E url_b) <> 404 ->
  can_stage E url_a url_b icon ->
  (forall p : string, is_Some (files w !! p) -> is_Some (files (snd run) !! p))
  /\ (status_code (remote E url_b) = 200 ->
      files (snd run) !! new_path icon = Some (content (remote E url_b)))
  /\ (status_code (remote E url_a) = 200 ->
      files (snd run) !! old_path icon = Some (content (remote E url_a)))
  /\ (forall o : option string,
        fst run = Ok o -> this_dict <> [] ->
        exists rows : list string,
          Forall2 row_of rows (List.filter non_equal this_dict)
          /\ files (snd run) !! log_path icon issue_url
             = Some (bytes_of (block_of icon rows)))
  /\ (this_dict <> [] -> writable E (log_path icon issue_url) = false ->
      exists e : exn, fst run = Raise e).
Proof.
  intros Hra Hrb url_a url_b run this_dict Hdebug Hhead Hstage.
  assert (Hrun : run
                 = compare_and_render E issue_url icon (re_sub_group1 name_regex icon)
                     (path_a_of E url_a icon) (new_path icon) send
                     (fetched E url_a url_b icon w)).
  { unfold run.
    rewrite (check_icon_run E base_repo_url head_repo_url base head base_ref head_ref
               issue_url send icon w Hra Hrb Hstage).
    fold url_a url_b. apply Z.eqb_neq in Hhead. rewrite Hhead.
    now destruct (status_code (remote E url_b) =? 200). }
  rewrite Hrun.
  destruct (compare_and_render_debug E issue_url icon (re_sub_group1 name_regex icon)
              (path_a_of E url_a icon) (new_path icon) send (fetched E url_a url_b icon w)
              Hdebug) as (Hkeep & Hlog & Hraise).
  assert (Hsame : forall p : string,
            p <> log_path icon issue_url -> ~ is_png_path p ->
            files (snd (compare_and_render E issue_url icon (re_sub_group1 name_regex icon)
                          (path_a_of E url_a icon) (new_path icon) send
                          (fetched E url_a url_b icon w))) !! p
            = staged E url_a url_b icon (files w) !! p).
  { intros p Hlogp Hpng. rewrite compare_and_render_run.
    set (w0 := snd (emit _ (fetched E url_a url_b icon w))).
    destruct (compare_two_icon_files E (files (fetched E url_a url_b icon w)) _ _)
      as [|entry rest]; [reflexivity |].
    unfold render_block. rewrite Hdebug, bindR_run.
    pose proof (rows_of_other E send (entry :: rest) w0 p Hpng) as Hrows.
    destruct (rows_of E send (entry :: rest) w0) as [[rows|e] w1]; cbn [fst snd] in *;
      [| exact Hrows].
    rewrite bindR_run, write_file_run. fold (log_path icon issue_url).
    destruct (writable E (log_path icon issue_url)); cbn [fst snd ret set_files files];
      [rewrite lookup_insert_ne by congruence |]; exact Hrows. }
  assert (Hlog_differs : old_path icon <> log_path icon issue_url
                         /\ new_path icon <> log_path icon issue_url).
  { unfold old_path, new_path, log_path. split; intros H;
      rewrite !append_cons in H; discriminate H. }
  destruct (sheet_is_no_png icon) as [Hold_png Hnew_png].
  destruct (staged_copies E url_a url_b icon (files w)) as [Hnew Hold].
  split; [| split; [| split; [| split]]].
  - intros p Hp. apply Hkeep. cbn [fetched files]. now apply staged_keeps.
  - intros H200. rewrite Hsame by tauto. now apply Hnew.
  - intros H200. rewrite Hsame by tauto. now apply Hold.
  - exact Hlog.
  - exact Hraise.
Qed.

Lemma debug_keeps_scratch_witness :
  files (snd (check_icon debug_env (JStr "https://github.com/o/r")
                (JStr "https://github.com/fork/r") example_base example_head example_issue
                true "icons/test.dmi" empty_world)) !! new_path "icons/test.dmi"
  = Some (bytes_of "new sheet")
  /\ files (snd (check_icon debug_env (JStr "https://github.com/o/r")
                   (JStr "https://github.com/fork/r") example_base example_head
                   example_issue true "icons/test.dmi" empty_world))
     !! old_path "icons/test.dmi"
     = Some (bytes_of "old sheet").
Proof.
  destruct (debug_keeps_scratch debug_env (JStr "https://github.com/o/r")
              (JStr "https://github.com/fork/r") example_base example_head
              (JStr "master") (JStr "patch") example_issue true "icons/test.dmi" empty_world)
    as (_ & Hnew & Hold & _);
    [reflexivity | reflexivity | reflexivity | vm_compute; discriminate
    | split; reflexivity |].
  split; [apply Hnew | apply Hold]; reflexivity.
Defined.

(** Under [DEBUG] the sample run leaves the two copies of the sheet, the
    images of the changed state and the log of the path. *)
Example debug_sample_files :
  map fst (map_to_list
             (files (snd (check_icon debug_env (JStr "https://github.com/o/r")
                            (JStr "https://github.com/fork/r") example_base example_head
                            example_issue true "icons/test.dmi" empty_world))))
  = ["icon_dump/test_7.log"; "./icon_dump/old_walk.png"; "./icon_dump/old_test.dmi";
     "./icon_dump/new_walk.png"; "./icon_dump/new_test.dmi"].
Proof. vm_compute. reflexivity. Qed.

(** ** The name of the debug log *)

Lemma digits_lack (x : ascii) (ds : string) :
  is_digit x = false -> all_chars is_digit ds = true -> has_char x ds = false.
Proof.
  intros Hx Hds. unfold has_char. apply negb_false_iff.
  apply (all_chars_impl is_digit); [| exact Hds].
  intros c Hc. apply negb_true_iff. apply Ascii.eqb_neq. intros ->. congruence.
Qed.

Lemma occurs_cons_none (l : string) (c : ascii) (s : string) :
  strip_prefix l (String c s) = None -> occurs l (String c s) = occurs l s.
Proof. intros H. cbn [occurs]. now rewrite H. Qed.

Lemma issue_regex_match (pre ds : string) :
  all_chars (in_class Dot) pre = true -> all_chars is_digit ds = true ->
  match_at issue_regex false "" (pre +:+ "/issues/" +:+ ds) = Some (ds, "").
Proof.
  intros Hpre Hds. unfold issue_regex. cbn [match_at].
  apply star_extend; [exact Hpre |].
  change ("/issues/" +:+ ds) with (String "/" ("issues/" +:+ ds)).
  cbn [star]. change (in_class Dot "/") with true. cbn iota.
  rewrite (star_no_occurrence Dot _ "/issues/").
  - change (String "/" ("issues/" +:+ ds)) with ("/issues/" +:+ ds).
    cbn [match_at]. rewrite strip_prefix_app.
    rewrite <- (append_nil_r ds) at 1.
    apply star_extend; [exact Hds |]. cbn [capture star match_at]. now rewrite append_nil_l.
  - intros o g' v Hv. cbn [match_at]. now rewrite Hv.
  - change ("issues/" +:+ ds)
      with (String "i" (String "s" (String "s" (String "u" (String "e" (String "s"
             (String "/" ds))))))).
    rewrite !occurs_cons_none by reflexivity.
    rewrite occurs_cons_none.
    + apply (occurs_missing_char "/"); [reflexivity | now apply digits_lack].
    + change (strip_prefix "/issues/" (String "/" ds)) with (strip_prefix "issues/" ds).
      apply (strip_prefix_missing_char "i"); [reflexivity | now apply digits_lack].
Qed.

(** X26.  The debug log of a path is named after the base name of the path and
    the number of the issue: the digits that follow the last [/issues/] of the
    issue URL. *)
Theorem debug_log_name (d n pre ds : string) :
  all_chars (in_class Dot) d = true -> all_chars (in_class Dot) n = true ->
  has_char "/" n = false ->
  all_chars (in_class Dot) pre = true -> all_chars is_digit ds = true ->
  re_sub_group1 issue_regex (pre +:+ "/issues/" +:+ ds) = ds
  /\ log_path (d +:+ "/" +:+ n +:+ ".dmi") (pre +:+ "/issues/" +:+ ds)
     = "icon_dump/" +:+ n +:+ "_" +:+ ds +:+ ".log".
Proof.
  intros Hd Hn Hslash Hpre Hds.
  assert (Hnumber : re_sub_group1 issue_regex (pre +:+ "/issues/" +:+ ds) = ds).
  { unfold re_sub_group1. cbn [sub_group1]. rewrite (issue_regex_match pre ds Hpre Hds).
    assert ((String.length "" <? String.length (pre +:+ "/issues/" +:+ ds))%nat = true) as ->.
    { apply Nat.ltb_lt. rewrite !append_length. simpl. lia. }
    assert (sub_group1 (String.length (pre +:+ "/issues/" +:+ ds)) issue_regex "" = "") as ->
      by now destruct (String.length (pre +:+ "/issues/" +:+ ds)).
    apply append_nil_r. }
  split; [exact Hnumber |].
  unfold log_path. rewrite Hnumber.
  assert (Hname : re_sub_group1 name_regex (d +:+ "/" +:+ n +:+ ".dmi") = n).
  { unfold re_sub_group1. cbn [sub_group1]. rewrite (name_regex_match d n Hd Hn Hslash).
    assert ((String.length "" <? String.length (d +:+ "/" +:+ n +:+ ".dmi"))%nat = true) as ->.
    { apply Nat.ltb_lt. rewrite !append_length. simpl. lia. }
    rewrite sub_group1_no_slash by reflexivity. apply append_nil_r. }
  now rewrite Hname.
Qed.

Lemma debug_log_name_witness :
  log_path ("icons" +:+ "/" +:+ "test" +:+ ".dmi")
           ("https://api.github.com/repos/o/r" +:+ "/issues/" +:+ "7")
  = "icon_dump/" +:+ "test" +:+ "_" +:+ "7" +:+ ".log".
Proof.
  destruct (debug_log_name "icons" "test" "https://api.github.com/repos/o/r" "7") as [_ H];
    [reflexivity | reflexivity | reflexivity | reflexivity | reflexivity | exact H].
Defined.
